(** * Reconciliation of SnipeIT inventory records with NetBox

    A shallow embedding of [syncer.py] (class [Syncer]) and of the pass
    driven by [main.py], together with the properties of the
    reconciliation engine.

    Conventions of the embedding.
    - Python [str] values are [string]s; the text handled by the
      engine is taken to be ASCII.
    - Python dictionaries that the code builds (update and create
      payloads) are finite maps from field names to Python values.
    - JSON objects read from the two systems have a fixed schema and are
      records; a field that may be [null] is an [option].
    - Python exceptions are explicit results; the NetBox client is an
      explicit store threaded through every call. *)

From Stdlib Require Import ZArith String Ascii List Bool Lia.
From stdpp Require Import base option list gmap strings finite.
Import ListNotations.

Local Open Scope Z_scope.
Local Open Scope string_scope.

(** ** Python string operations *)

Module PyStr.

(** [s.find(sub)]: index of the first occurrence, or [-1]. *)
Fixpoint find_nat (sub s : string) : option nat :=
  if String.prefix sub s then Some 0%nat
  else match s with
       | EmptyString => None
       | String _ s' => option_map S (find_nat sub s')
       end.

Definition find (s sub : string) : Z :=
  match find_nat sub s with
  | Some n => Z.of_nat n
  | None => -1
  end.

(** [s.rfind(sub)]: index of the last occurrence, or [-1]. *)
Fixpoint rfind_nat (sub s : string) : option nat :=
  match s with
  | EmptyString => if String.prefix sub EmptyString then Some 0%nat else None
  | String _ s' =>
      match rfind_nat sub s' with
      | Some n => Some (S n)
      | None => if String.prefix sub s then Some 0%nat else None
      end
  end.

Definition rfind (s sub : string) : Z :=
  match rfind_nat sub s with
  | Some n => Z.of_nat n
  | None => -1
  end.

(** [sub in s] on strings. *)
Definition contains (sub s : string) : bool :=
  match find_nat sub s with Some _ => true | None => false end.

(** [s[0:stop]] for a [stop] that is not negative. *)
Definition slice_to (s : string) (stop : Z) : string :=
  String.substring 0 (Z.to_nat stop) s.

(** [c.isspace()] on ASCII: tab, newline, vertical tab, form feed,
    carriage return, the four separators 28..31 and the blank. *)
Definition is_space (c : ascii) : bool :=
  let n := nat_of_ascii c in
  ((9 <=? n) && (n <=? 13) || (28 <=? n) && (n <=? 32))%nat.

Fixpoint lstrip_with (p : ascii -> bool) (s : string) : string :=
  match s with
  | EmptyString => EmptyString
  | String c s' => if p c then lstrip_with p s' else s
  end.

Fixpoint rstrip_with (p : ascii -> bool) (s : string) : string :=
  match s with
  | EmptyString => EmptyString
  | String c s' =>
      match rstrip_with p s' with
      | EmptyString => if p c then EmptyString else String c EmptyString
      | r => String c r
      end
  end.

Definition strip_with (p : ascii -> bool) (s : string) : string :=
  rstrip_with p (lstrip_with p s).

(** [s.strip()] *)
Definition strip (s : string) : string := strip_with is_space s.

Definition is_upper (c : ascii) : bool :=
  let n := nat_of_ascii c in ((65 <=? n) && (n <=? 90))%nat.

Definition lower_ascii (c : ascii) : ascii :=
  if is_upper c then ascii_of_nat (nat_of_ascii c + 32) else c.

(** [s.lower()] *)
Fixpoint lower (s : string) : string :=
  match s with
  | EmptyString => EmptyString
  | String c s' => String (lower_ascii c) (lower s')
  end.

(** [s.replace(old, new)] for a non-empty [old]: occurrences are
    replaced left to right without overlap.  [skip] counts the
    characters of a matched occurrence that are still to be dropped. *)
Fixpoint replace_go (old new s : string) (skip : nat) : string :=
  match s with
  | EmptyString => EmptyString
  | String c s' =>
      match skip with
      | S k => replace_go old new s' k
      | O =>
          if String.prefix old s
          then new ++ replace_go old new s' (String.length old - 1)
          else String c (replace_go old new s' O)
      end
  end.

Definition replace (s old new : string) : string := replace_go old new s O.

(** [str(x)] of an optional text: [None] prints as the word None. *)
Definition str_of (x : option string) : string :=
  match x with Some s => s | None => "None" end.

Definition filter (p : ascii -> bool) (s : string) : string :=
  string_of_list_ascii (List.filter p (list_ascii_of_string s)).

Definition is_ascii (c : ascii) : bool := (nat_of_ascii c <? 128)%nat.

(** [\w] on ASCII text: letters, digits and the underscore. *)
Definition is_word (c : ascii) : bool :=
  let n := nat_of_ascii c in
  ((48 <=? n) && (n <=? 57) || (65 <=? n) && (n <=? 90)
   || (97 <=? n) && (n <=? 122) || (n =? 95))%nat.

Definition is_hyphen (c : ascii) : bool := (nat_of_ascii c =? 45)%nat.

(** [re.sub(r"[-\s]+", "-", s)]: each maximal run of hyphens and
    whitespace becomes one hyphen. *)
Fixpoint collapse_runs (s : string) (in_run : bool) : string :=
  match s with
  | EmptyString => EmptyString
  | String c s' =>
      if is_hyphen c || is_space c
      then if in_run then collapse_runs s' true
           else String "-" (collapse_runs s' true)
      else String c (collapse_runs s' false)
  end.

End PyStr.

(** ** Python values, payloads and exceptions *)

Definition KEY_CUSTOM_FIELD : string := "snipe_object_id".
Definition DEFAULT_SITE_NAME : string := "Default Site".

(** The values that the engine writes into a payload.  [PCustom z] is
    the one-entry dictionary [{KEY_CUSTOM_FIELD: z}] and [PFloat z] a
    float whose value is the integer [z]. *)
Inductive PyVal :=
| PNone
| PInt (z : Z)
| PStr (s : string)
| PBool (b : bool)
| PFloat (z : Z)
| PCustom (z : Z).

#[global] Instance PyVal_eq_dec : EqDecision PyVal.
Proof. solve_decision. Defined.

(** A payload is a Python [dict] keyed by field names. *)
Abbreviation Payload := (gmap string PyVal).

(** [d | {k: v}]: the right operand wins. *)
Definition dict_set (k : string) (v : PyVal) (d : Payload) : Payload := <[k := v]> d.

(** [k in d] *)
Definition dict_has (k : string) (d : Payload) : bool := bool_decide (is_Some (d !! k)).

(** [len(d.values())] *)
Definition dict_len (d : Payload) : Z := Z.of_nat (size d).

Definition py_ostr (x : option string) : PyVal :=
  match x with Some s => PStr s | None => PNone end.

Definition py_oint (x : option Z) : PyVal :=
  match x with Some z => PInt z | None => PNone end.

(** The exceptions that the code can raise.  [OutOfFuel] is no Python
    exception: it marks a run whose loop did not end within the number
    of rounds it was given. *)
Inductive Exn := TypeError | AttributeError | AssertionError | ValueError | OutOfFuel.

Inductive Result (A : Type) :=
| Ok (a : A)
| Raise (e : Exn).
Arguments Ok {A} a.
Arguments Raise {A} e.

(** ** Records of the source system (SnipeIT) *)

(** [{"id": .., "name": ..}]: companies, manufacturers, categories and
    every nested reference have this shape. *)
Record Ref := { ref_id : Z; ref_name : string }.

Record SnipeModel := {
  sm_id : Z;
  sm_name : string;
  sm_model_number : string;
  sm_notes : option string;
  sm_manufacturer : Ref }.

Record SnipeLocation := {
  sl_id : Z;
  sl_name : string;
  sl_parent : option Ref }.

Record SnipeAsset := {
  sa_id : Z;
  sa_name : string;
  sa_asset_tag : string;
  sa_serial : string;
  sa_notes : option string;
  sa_category : Ref;
  sa_model : Z;
  sa_location : option Ref;
  sa_rtd_location : option Ref;
  sa_company : option Ref }.

(** ** Records of the target system (NetBox)

    [item["custom_fields"][KEY_CUSTOM_FIELD]] is the [_key] field of each
    record.  A nested object of which the code reads the [id] only is
    kept as that id; [item["x"]["id"]] on a [null] nested object raises
    [TypeError], so such a field is an [option]. *)

Record Tenant := {
  tn_id : Z; tn_name : string; tn_slug : string; tn_description : string;
  tn_key : option Z }.

Record Manufacturer := {
  mf_id : Z; mf_name : string; mf_slug : string; mf_description : string;
  mf_key : option Z }.

Record DeviceType := {
  dt_id : Z; dt_model : string; dt_slug : string; dt_part_number : string;
  dt_manufacturer : Ref; dt_description : string; dt_comments : string;
  dt_key : option Z }.

Record Site := {
  st_id : Z; st_name : string; st_slug : string; st_description : string;
  st_status : string; st_comments : string; st_key : option Z }.

Record Location := {
  lc_id : Z; lc_name : string; lc_slug : string; lc_description : string;
  lc_status : string; lc_site : Z; lc_parent : option Z; lc_key : option Z }.

Record DeviceRole := {
  rl_id : Z; rl_name : string; rl_slug : string; rl_key : option Z }.

Record Device := {
  dv_id : Z; dv_name : option string; dv_asset_tag : option string;
  dv_serial : string; dv_site : option Z; dv_device_role : Z;
  dv_tenant : option Z; dv_device_type : Z; dv_comments : string;
  dv_description : string; dv_status : string; dv_key : option Z }.

(** What [sync_assets_to_devices] passes on as the site of a device:
    the nested [site] object of a location (a plain [dict]), the record
    that [__get_fallback_site] returns, or the bare default name. *)
Inductive SiteArg :=
| SiteDict (id : Z)
| SiteRecord (s : Site)
| SiteStr (s : string).

(** ** The target collaborator

    The NetBox client ([pynetbox]) is an external library, used by the
    program through four operations.  Per kind it offers [all()], [get(...)],
    [create(attributes) -> record-with-id] and
    [update(list of {id, changed-attributes})]; the model keeps one
    table per kind, gives a created record the next free id, stores the
    attributes it is given and, on update, overwrites exactly the
    attributes present in the payload of the record with that id.  No
    validation of the target system is modelled.  Every write is
    recorded in [nb_calls]. *)

Inductive Endpoint :=
| Tenants | Manufacturers | DeviceTypes | Sites | Locations | DeviceRoles | Devices.

#[global] Instance Endpoint_eq_dec : EqDecision Endpoint.
Proof. solve_decision. Defined.

Inductive Call :=
| Create (e : Endpoint) (p : Payload)
| Update (e : Endpoint) (ps : list Payload).

Record NetBox := {
  nb_tenants : list Tenant;
  nb_manufacturers : list Manufacturer;
  nb_device_types : list DeviceType;
  nb_sites : list Site;
  nb_locations : list Location;
  nb_device_roles : list DeviceRole;
  nb_devices : list Device;
  nb_next_id : Z;
  nb_calls : list Call }.

Definition p_str (p : Payload) (k : string) (d : string) : string :=
  match p !! k with Some (PStr s) => s | _ => d end.

Definition p_ostr (p : Payload) (k : string) (d : option string) : option string :=
  match p !! k with Some (PStr s) => Some s | Some PNone => None | _ => d end.

Definition p_int (p : Payload) (k : string) (d : Z) : Z :=
  match p !! k with Some (PInt z) => z | _ => d end.

Definition p_oint (p : Payload) (k : string) (d : option Z) : option Z :=
  match p !! k with Some (PInt z) => Some z | Some PNone => None | _ => d end.

Definition p_key (p : Payload) (d : option Z) : option Z :=
  match p !! "custom_fields" with Some (PCustom z) => Some z | _ => d end.

(** The uniform shape of a target record: an id, the linkage-key slot,
    an empty record with a given id, and the effect of a payload. *)
Class Target (A : Type) := {
  rec_id : A -> Z;
  rec_key : A -> option Z;
  rec_blank : Z -> A;
  rec_apply : Payload -> A -> A }.

#[global] Instance Target_Tenant : Target Tenant := {
  rec_id := tn_id;
  rec_key := tn_key;
  rec_blank i := {| tn_id := i; tn_name := ""; tn_slug := ""; tn_description := "";
                    tn_key := None |};
  rec_apply p t := {| tn_id := tn_id t;
                      tn_name := p_str p "name" (tn_name t);
                      tn_slug := p_str p "slug" (tn_slug t);
                      tn_description := p_str p "description" (tn_description t);
                      tn_key := p_key p (tn_key t) |} }.

#[global] Instance Target_Manufacturer : Target Manufacturer := {
  rec_id := mf_id;
  rec_key := mf_key;
  rec_blank i := {| mf_id := i; mf_name := ""; mf_slug := ""; mf_description := "";
                    mf_key := None |};
  rec_apply p m := {| mf_id := mf_id m;
                      mf_name := p_str p "name" (mf_name m);
                      mf_slug := p_str p "slug" (mf_slug m);
                      mf_description := p_str p "description" (mf_description m);
                      mf_key := p_key p (mf_key m) |} }.

(** The nested manufacturer of a device type is written by id; its
    name is joined in when the table is read ([device_types_all]). *)
#[global] Instance Target_DeviceType : Target DeviceType := {
  rec_id := dt_id;
  rec_key := dt_key;
  rec_blank i := {| dt_id := i; dt_model := ""; dt_slug := ""; dt_part_number := "";
                    dt_manufacturer := {| ref_id := 0; ref_name := "" |};
                    dt_description := ""; dt_comments := ""; dt_key := None |};
  rec_apply p t := {| dt_id := dt_id t;
                      dt_model := p_str p "model" (dt_model t);
                      dt_slug := p_str p "slug" (dt_slug t);
                      dt_part_number := p_str p "part_number" (dt_part_number t);
                      dt_manufacturer :=
                        {| ref_id := p_int p "manufacturer" (ref_id (dt_manufacturer t));
                           ref_name := ref_name (dt_manufacturer t) |};
                      dt_description := p_str p "description" (dt_description t);
                      dt_comments := p_str p "comments" (dt_comments t);
                      dt_key := p_key p (dt_key t) |} }.

#[global] Instance Target_Site : Target Site := {
  rec_id := st_id;
  rec_key := st_key;
  rec_blank i := {| st_id := i; st_name := ""; st_slug := ""; st_description := "";
                    st_status := ""; st_comments := ""; st_key := None |};
  rec_apply p s := {| st_id := st_id s;
                      st_name := p_str p "name" (st_name s);
                      st_slug := p_str p "slug" (st_slug s);
                      st_description := p_str p "description" (st_description s);
                      st_status := p_str p "status" (st_status s);
                      st_comments := p_str p "comments" (st_comments s);
                      st_key := p_key p (st_key s) |} }.

#[global] Instance Target_Location : Target Location := {
  rec_id := lc_id;
  rec_key := lc_key;
  rec_blank i := {| lc_id := i; lc_name := ""; lc_slug := ""; lc_description := "";
                    lc_status := ""; lc_site := 0; lc_parent := None; lc_key := None |};
  rec_apply p l := {| lc_id := lc_id l;
                      lc_name := p_str p "name" (lc_name l);
                      lc_slug := p_str p "slug" (lc_slug l);
                      lc_description := p_str p "description" (lc_description l);
                      lc_status := p_str p "status" (lc_status l);
                      lc_site := p_int p "site" (lc_site l);
                      lc_parent := p_oint p "parent" (lc_parent l);
                      lc_key := p_key p (lc_key l) |} }.

#[global] Instance Target_DeviceRole : Target DeviceRole := {
  rec_id := rl_id;
  rec_key := rl_key;
  rec_blank i := {| rl_id := i; rl_name := ""; rl_slug := ""; rl_key := None |};
  rec_apply p r := {| rl_id := rl_id r;
                      rl_name := p_str p "name" (rl_name r);
                      rl_slug := p_str p "slug" (rl_slug r);
                      rl_key := p_key p (rl_key r) |} }.

(** The role of a device is written as [role] on creation and read and
    updated as [device_role]. *)
#[global] Instance Target_Device : Target Device := {
  rec_id := dv_id;
  rec_key := dv_key;
  rec_blank i := {| dv_id := i; dv_name := None; dv_asset_tag := None; dv_serial := "";
                    dv_site := None; dv_device_role := 0; dv_tenant := None;
                    dv_device_type := 0; dv_comments := ""; dv_description := "";
                    dv_status := ""; dv_key := None |};
  rec_apply p d := {| dv_id := dv_id d;
                      dv_name := p_ostr p "name" (dv_name d);
                      dv_asset_tag := p_ostr p "asset_tag" (dv_asset_tag d);
                      dv_serial := p_str p "serial" (dv_serial d);
                      dv_site := p_oint p "site" (dv_site d);
                      dv_device_role :=
                        p_int p "device_role" (p_int p "role" (dv_device_role d));
                      dv_tenant := p_oint p "tenant" (dv_tenant d);
                      dv_device_type := p_int p "device_type" (dv_device_type d);
                      dv_comments := p_str p "comments" (dv_comments d);
                      dv_description := p_str p "description" (dv_description d);
                      dv_status := p_str p "status" (dv_status d);
                      dv_key := p_key p (dv_key d) |} }.

(** The record created from a payload, and a table after one update
    payload and after a list of them. *)
Definition make_record {A} `{Target A} (id : Z) (p : Payload) : A :=
  rec_apply p (rec_blank id).

Definition update_one {A} `{Target A} (p : Payload) (l : list A) : list A :=
  map (fun r => if decide (p !! "id" = Some (PInt (rec_id r))) then rec_apply p r else r) l.

Definition update_all {A} `{Target A} (ps : list Payload) (l : list A) : list A :=
  fold_left (fun l p => update_one p l) ps l.

(** ** Computations against the target: state and exceptions

    A computation runs from a state of the target and ends in a value or
    in a raised exception; writes made before an exception stay. *)

Definition M (A : Type) : Type := NetBox -> Result A * NetBox.

Definition ret {A} (a : A) : M A := fun nb => (Ok a, nb).

Definition bind {A B} (m : M A) (k : A -> M B) : M B :=
  fun nb => match m nb with
            | (Ok a, nb') => k a nb'
            | (Raise e, nb') => (Raise e, nb')
            end.

Definition raise {A} (e : Exn) : M A := fun nb => (Raise e, nb).

Declare Scope monad_scope.
Delimit Scope monad_scope with monad.
Notation "x <- m ;; k" := (bind m (fun x => k))
  (at level 100, m at next level, right associativity) : monad_scope.
Notation "m ;;; k" := (bind m (fun _ => k))
  (at level 100, right associativity) : monad_scope.
Local Open Scope monad_scope.

(** [for x in l: body] without and with state that the body rebinds. *)
Fixpoint for_each {A} (l : list A) (body : A -> M unit) : M unit :=
  match l with
  | [] => ret tt
  | x :: l' => body x ;;; for_each l' body
  end.

Fixpoint for_fold {A S} (l : list A) (s : S) (body : S -> A -> M S) : M S :=
  match l with
  | [] => ret s
  | x :: l' => s' <- body s x ;; for_fold l' s' body
  end.

(** [x["id"]] and the like on a value that may be [None]. *)
Definition subscript {A} (x : option A) : M A :=
  match x with
  | Some a => ret a
  | None => raise TypeError
  end.

(** [assert x is not None] *)
Definition assert_some {A} (x : option A) : M A :=
  match x with
  | Some a => ret a
  | None => raise AssertionError
  end.

Definition record_call (c : Call) (nb : NetBox) : list Call := nb_calls nb ++ [c].

(** [all()]: the table as it stands.  Device types carry the current
    name of their manufacturer. *)
Definition tenants_all : M (list Tenant) := fun nb => (Ok (nb_tenants nb), nb).
Definition manufacturers_all : M (list Manufacturer) :=
  fun nb => (Ok (nb_manufacturers nb), nb).
Definition sites_all : M (list Site) := fun nb => (Ok (nb_sites nb), nb).
Definition locations_all : M (list Location) := fun nb => (Ok (nb_locations nb), nb).
Definition device_roles_all : M (list DeviceRole) :=
  fun nb => (Ok (nb_device_roles nb), nb).
Definition devices_all : M (list Device) := fun nb => (Ok (nb_devices nb), nb).

Definition join_manufacturer (ms : list Manufacturer) (t : DeviceType) : DeviceType :=
  {| dt_id := dt_id t; dt_model := dt_model t; dt_slug := dt_slug t;
     dt_part_number := dt_part_number t;
     dt_manufacturer :=
       {| ref_id := ref_id (dt_manufacturer t);
          ref_name :=
            match List.find (fun m => Z.eqb (mf_id m) (ref_id (dt_manufacturer t))) ms with
            | Some m => mf_name m
            | None => ref_name (dt_manufacturer t)
            end |};
     dt_description := dt_description t; dt_comments := dt_comments t;
     dt_key := dt_key t |}.

Definition device_types_all : M (list DeviceType) :=
  fun nb => (Ok (map (join_manufacturer (nb_manufacturers nb)) (nb_device_types nb)), nb).

(** The tables of a state with one table replaced, the id counter
    advanced by [used] and one call recorded. *)
Definition with_tenants (l : list Tenant) (used : Z) (c : Call) (nb : NetBox) : NetBox :=
  {| nb_tenants := l; nb_manufacturers := nb_manufacturers nb;
     nb_device_types := nb_device_types nb; nb_sites := nb_sites nb;
     nb_locations := nb_locations nb; nb_device_roles := nb_device_roles nb;
     nb_devices := nb_devices nb; nb_next_id := nb_next_id nb + used;
     nb_calls := record_call c nb |}.

Definition with_manufacturers (l : list Manufacturer) (used : Z) (c : Call)
    (nb : NetBox) : NetBox :=
  {| nb_tenants := nb_tenants nb; nb_manufacturers := l;
     nb_device_types := nb_device_types nb; nb_sites := nb_sites nb;
     nb_locations := nb_locations nb; nb_device_roles := nb_device_roles nb;
     nb_devices := nb_devices nb; nb_next_id := nb_next_id nb + used;
     nb_calls := record_call c nb |}.

Definition with_device_types (l : list DeviceType) (used : Z) (c : Call)
    (nb : NetBox) : NetBox :=
  {| nb_tenants := nb_tenants nb; nb_manufacturers := nb_manufacturers nb;
     nb_device_types := l; nb_sites := nb_sites nb;
     nb_locations := nb_locations nb; nb_device_roles := nb_device_roles nb;
     nb_devices := nb_devices nb; nb_next_id := nb_next_id nb + used;
     nb_calls := record_call c nb |}.

Definition with_sites (l : list Site) (used : Z) (c : Call) (nb : NetBox) : NetBox :=
  {| nb_tenants := nb_tenants nb; nb_manufacturers := nb_manufacturers nb;
     nb_device_types := nb_device_types nb; nb_sites := l;
     nb_locations := nb_locations nb; nb_device_roles := nb_device_roles nb;
     nb_devices := nb_devices nb; nb_next_id := nb_next_id nb + used;
     nb_calls := record_call c nb |}.

Definition with_locations (l : list Location) (used : Z) (c : Call)
    (nb : NetBox) : NetBox :=
  {| nb_tenants := nb_tenants nb; nb_manufacturers := nb_manufacturers nb;
     nb_device_types := nb_device_types nb; nb_sites := nb_sites nb;
     nb_locations := l; nb_device_roles := nb_device_roles nb;
     nb_devices := nb_devices nb; nb_next_id := nb_next_id nb + used;
     nb_calls := record_call c nb |}.

Definition with_device_roles (l : list DeviceRole) (used : Z) (c : Call)
    (nb : NetBox) : NetBox :=
  {| nb_tenants := nb_tenants nb; nb_manufacturers := nb_manufacturers nb;
     nb_device_types := nb_device_types nb; nb_sites := nb_sites nb;
     nb_locations := nb_locations nb; nb_device_roles := l;
     nb_devices := nb_devices nb; nb_next_id := nb_next_id nb + used;
     nb_calls := record_call c nb |}.

Definition with_devices (l : list Device) (used : Z) (c : Call) (nb : NetBox) : NetBox :=
  {| nb_tenants := nb_tenants nb; nb_manufacturers := nb_manufacturers nb;
     nb_device_types := nb_device_types nb; nb_sites := nb_sites nb;
     nb_locations := nb_locations nb; nb_device_roles := nb_device_roles nb;
     nb_devices := l; nb_next_id := nb_next_id nb + used;
     nb_calls := record_call c nb |}.

(** [create(...)]: the new record gets the next id, joins its table and
    is returned. *)
Definition tenants_create (p : Payload) : M Tenant := fun nb =>
  let r := make_record (nb_next_id nb) p in
  (Ok r, with_tenants (nb_tenants nb ++ [r]) 1 (Create Tenants p) nb).

Definition manufacturers_create (p : Payload) : M Manufacturer := fun nb =>
  let r := make_record (nb_next_id nb) p in
  (Ok r, with_manufacturers (nb_manufacturers nb ++ [r]) 1 (Create Manufacturers p) nb).

Definition device_types_create (p : Payload) : M DeviceType := fun nb =>
  let r := make_record (nb_next_id nb) p in
  (Ok (join_manufacturer (nb_manufacturers nb) r),
   with_device_types (nb_device_types nb ++ [r]) 1 (Create DeviceTypes p) nb).

Definition sites_create (p : Payload) : M Site := fun nb =>
  let r := make_record (nb_next_id nb) p in
  (Ok r, with_sites (nb_sites nb ++ [r]) 1 (Create Sites p) nb).

Definition locations_create (p : Payload) : M Location := fun nb =>
  let r := make_record (nb_next_id nb) p in
  (Ok r, with_locations (nb_locations nb ++ [r]) 1 (Create Locations p) nb).

Definition device_roles_create (p : Payload) : M DeviceRole := fun nb =>
  let r := make_record (nb_next_id nb) p in
  (Ok r, with_device_roles (nb_device_roles nb ++ [r]) 1 (Create DeviceRoles p) nb).

Definition devices_create (p : Payload) : M Device := fun nb =>
  let r := make_record (nb_next_id nb) p in
  (Ok r, with_devices (nb_devices nb ++ [r]) 1 (Create Devices p) nb).

(** [update([...])]: every payload is applied to the record it names. *)
Definition tenants_update (ps : list Payload) : M unit := fun nb =>
  (Ok tt, with_tenants (update_all ps (nb_tenants nb)) 0 (Update Tenants ps) nb).

Definition manufacturers_update (ps : list Payload) : M unit := fun nb =>
  (Ok tt, with_manufacturers (update_all ps (nb_manufacturers nb)) 0
            (Update Manufacturers ps) nb).

Definition device_types_update (ps : list Payload) : M unit := fun nb =>
  (Ok tt, with_device_types (update_all ps (nb_device_types nb)) 0
            (Update DeviceTypes ps) nb).

Definition sites_update (ps : list Payload) : M unit := fun nb =>
  (Ok tt, with_sites (update_all ps (nb_sites nb)) 0 (Update Sites ps) nb).

Definition locations_update (ps : list Payload) : M unit := fun nb =>
  (Ok tt, with_locations (update_all ps (nb_locations nb)) 0 (Update Locations ps) nb).

Definition device_roles_update (ps : list Payload) : M unit := fun nb =>
  (Ok tt, with_device_roles (update_all ps (nb_device_roles nb)) 0
            (Update DeviceRoles ps) nb).

Definition devices_update (ps : list Payload) : M unit := fun nb =>
  (Ok tt, with_devices (update_all ps (nb_devices nb)) 0 (Update Devices ps) nb).

(** [get(...)]: the one record that passes the filter, [None] when
    there is none; more than one result is an error of the client. *)
Definition get_one {A} (f : A -> bool) (l : list A) : M (option A) :=
  match List.filter f l with
  | [] => ret None
  | [x] => ret (Some x)
  | _ => raise ValueError
  end.

Definition sites_get (name : string) : M (option Site) := fun nb =>
  get_one (fun s => String.eqb (st_name s) name) (nb_sites nb) nb.

Definition devices_get (name : string) (site_id tenant_id : Z) : M (option Device) :=
  fun nb =>
    get_one (fun d => bool_decide (dv_name d = Some name)
                      && bool_decide (dv_site d = Some site_id)
                      && bool_decide (dv_tenant d = Some tenant_id))
            (nb_devices nb) nb.

(** ** The class [Syncer]

    [self.netbox] is the state of the monad; [logging] calls write to
    neither system and are left out. *)

Record Syncer := {
  allow_updates : bool;
  allow_linking : bool;
  desc : string }.

(** A [dict] literal and the merge [d | new]. *)
Definition dict (l : list (string * PyVal)) : Payload := list_to_map l.
Definition dict_merge (d new : Payload) : Payload := new ∪ d.

Definition CRLF : string := String (ascii_of_nat 13) (String (ascii_of_nat 10) EmptyString).
Definition LF : string := String (ascii_of_nat 10) EmptyString.

(** [Syncer.slugify].  On ASCII text the NFKD normal form is the text
    itself; [encode("ascii", "ignore")] drops what is not ASCII. *)
Definition slugify (value : string) : string :=
  let value := PyStr.filter PyStr.is_ascii value in
  let value :=
    PyStr.filter (fun c => PyStr.is_word c || PyStr.is_space c || PyStr.is_hyphen c)
                 (PyStr.lower value) in
  PyStr.strip_with (fun c => PyStr.is_hyphen c || (nat_of_ascii c =? 95)%nat)
                   (PyStr.collapse_runs value false).

(** [Syncer.__gen_update_comment] *)
Definition gen_update_comment (self : Syncer) (old_comment : string)
    (suffix : option string) : string :=
  let val := old_comment ++ CRLF ++ CRLF ++ PyStr.replace (desc self) "Imported" "Updated" in
  match suffix with
  | Some sfx => val ++ " (" ++ sfx ++ ")"
  | None => val
  end.

(** [Syncer.__get_fallback_site] *)
Definition get_fallback_site (company_name : option string) : M Site :=
  fallback_site <-
    match company_name with
    | Some company_name =>
        let company_name := PyStr.lower company_name in
        if PyStr.contains "akademie" company_name then sites_get "547 Akademie"
        else if PyStr.contains "oper" company_name || PyStr.contains "medienabt" company_name
        then sites_get "530 Verwaltung/Oper"
        else if PyStr.contains "schauspi" company_name then sites_get "529 Schauspielhaus"
        else if PyStr.contains "ballett" company_name then sites_get "551 Ballettzentrum"
        else sites_get DEFAULT_SITE_NAME
    | None => sites_get DEFAULT_SITE_NAME
    end ;;
  match fallback_site with
  | Some s => ret s
  | None =>
      sites_create (dict [("name", PStr DEFAULT_SITE_NAME);
                          ("slug", PStr (slugify DEFAULT_SITE_NAME));
                          ("description", PStr "Default Site for SnipeIT Import");
                          ("status", PStr "active")])
  end.

(** [Syncer.sync_companies_to_tenants]: the body of the loop and the
    stage.  [desc] is the stage's own description, taken from the clock
    when the stage starts. *)
Definition sync_company (self : Syncer) (desc : string) (netbox_tenants : list Tenant)
    (snipe_company : Ref) : M unit :=
  match List.find (fun item => bool_decide (rec_key item = Some (ref_id snipe_company)))
                  netbox_tenants with
  | None =>
      match List.find (fun item => String.eqb (tn_name item) (ref_name snipe_company))
                      netbox_tenants with
      | None =>
          _ <- tenants_create
                 (dict [("name", PStr (ref_name snipe_company));
                        ("slug", PStr (slugify (ref_name snipe_company)));
                        ("description", PStr desc);
                        ("custom_fields", PCustom (ref_id snipe_company))]) ;;
          ret tt
      | Some present_nb_tenant =>
          if allow_linking self
          then tenants_update
                 [dict [("id", PInt (tn_id present_nb_tenant));
                        ("description", PStr (PyStr.replace desc "Imported" "Updated"));
                        ("custom_fields", PCustom (ref_id snipe_company))]]
          else ret tt
      end
  | Some present_nb_tenant =>
      if negb (String.eqb (tn_name present_nb_tenant) (ref_name snipe_company))
      then if allow_updates self
           then tenants_update
                  [dict [("id", PInt (tn_id present_nb_tenant));
                         ("name", PStr (ref_name snipe_company));
                         ("slug", PStr (slugify (ref_name snipe_company)));
                         ("description", PStr (PyStr.replace desc "Imported" "Updated"))]]
           else ret tt
      else ret tt
  end.

Definition sync_companies_to_tenants (self : Syncer) (desc : string)
    (snipe_companies : list Ref) : M unit :=
  netbox_tenants <- tenants_all ;;
  for_each snipe_companies (sync_company self desc netbox_tenants).

(** [Syncer.sync_manufacturers] *)
Definition sync_manufacturer (self : Syncer) (netbox_manufacturers : list Manufacturer)
    (snipe_manuf : Ref) : M unit :=
  match List.find (fun item => bool_decide (rec_key item = Some (ref_id snipe_manuf)))
                  netbox_manufacturers with
  | None =>
      match List.find (fun item => String.eqb (mf_name item) (ref_name snipe_manuf))
                      netbox_manufacturers with
      | None =>
          _ <- manufacturers_create
                 (dict [("name", PStr (ref_name snipe_manuf));
                        ("slug", PStr (slugify (ref_name snipe_manuf)));
                        ("description", PStr (desc self));
                        ("custom_fields", PCustom (ref_id snipe_manuf))]) ;;
          ret tt
      | Some present_nb_manuf =>
          if allow_linking self
          then manufacturers_update
                 [dict [("id", PInt (mf_id present_nb_manuf));
                        ("custom_fields", PCustom (ref_id snipe_manuf))]]
          else ret tt
      end
  | Some present_nb_manuf =>
      if negb (String.eqb (mf_name present_nb_manuf) (ref_name snipe_manuf))
      then if allow_updates self
           then manufacturers_update
                  [dict [("id", PInt (mf_id present_nb_manuf));
                         ("name", PStr (ref_name snipe_manuf));
                         ("slug", PStr (slugify (ref_name snipe_manuf)))]]
           else ret tt
      else ret tt
  end.

Definition sync_manufacturers (self : Syncer) (snipe_manufacturers : list Ref) : M unit :=
  netbox_manufacturers <- manufacturers_all ;;
  for_each snipe_manufacturers (sync_manufacturer self netbox_manufacturers).

(** [x.id] on a value that may be [None]. *)
Definition attribute {A} (x : option A) : M A :=
  match x with
  | Some a => ret a
  | None => raise AttributeError
  end.

Definition initial_notes (notes : option string) : string :=
  "Notes from SnipeIT when initially creating this Netbox Entry. "
  ++ "(It will not be Updated on further syncs):" ++ LF ++ LF ++ " "
  ++ PyStr.replace (PyStr.str_of notes) CRLF (CRLF ++ CRLF).

(** [Syncer.sync_models_to_device_types] *)
Definition sync_model (self : Syncer) (netbox_device_types : list DeviceType)
    (netbox_manufacturers : list Manufacturer) (model : SnipeModel) : M unit :=
  let update_obj : Payload := ∅ in
  let manuf_by_model :=
    List.find (fun item => String.eqb (mf_name item) (ref_name (sm_manufacturer model)))
              netbox_manufacturers in
  match List.find (fun item => bool_decide (rec_key item = Some (sm_id model)))
                  netbox_device_types with
  | None =>
      match List.find
              (fun item => String.eqb (dt_model item) (sm_name model)
                           && String.eqb (ref_name (dt_manufacturer item))
                                         (ref_name (sm_manufacturer model)))
              netbox_device_types with
      | None =>
          manuf <- attribute manuf_by_model ;;
          _ <- device_types_create
                 (dict [("slug", PStr (slugify (sm_name model)));
                        ("description", PStr (desc self));
                        ("model", PStr (sm_name model));
                        ("part_number", PStr (sm_model_number model));
                        ("manufacturer", PInt (mf_id manuf));
                        ("custom_fields", PCustom (sm_id model));
                        ("comments", PStr (initial_notes (sm_notes model)));
                        ("is_full_depth", PBool false);
                        ("u_height", PFloat 0)]) ;;
          ret tt
      | Some present_nb_devtype =>
          if allow_linking self
          then
            let update_obj :=
              dict_merge update_obj
                (dict [("id", PInt (dt_id present_nb_devtype));
                       ("custom_fields", PCustom (sm_id model));
                       ("comments",
                        PStr (gen_update_comment self (dt_comments present_nb_devtype)
                                                 (Some "Snipe ID")))]) in
            device_types_update [update_obj]
          else ret tt
      end
  | Some present_nb_devtype =>
      let update_obj :=
        if negb (String.eqb (dt_model present_nb_devtype) (sm_name model))
        then dict_merge update_obj
               (dict [("id", PInt (dt_id present_nb_devtype));
                      ("model", PStr (sm_name model));
                      ("slug", PStr (slugify (sm_name model)))])
        else update_obj in
      let update_obj :=
        if negb (String.eqb (dt_part_number present_nb_devtype) (sm_model_number model))
        then dict_merge update_obj
               (dict [("id", PInt (dt_id present_nb_devtype));
                      ("part_number", PStr (sm_model_number model))])
        else update_obj in
      manuf <- attribute manuf_by_model ;;
      let update_obj :=
        if negb (Z.eqb (ref_id (dt_manufacturer present_nb_devtype)) (mf_id manuf))
        then dict_merge update_obj
               (dict [("id", PInt (dt_id present_nb_devtype));
                      ("manufacturer", PInt (mf_id manuf))])
        else update_obj in
      if dict_has "id" update_obj
      then if allow_updates self
           then
             let update_obj :=
               dict_merge update_obj
                 (dict [("comments",
                         PStr (gen_update_comment self (dt_comments present_nb_devtype)
                                                  (Some "Values")))]) in
             device_types_update [update_obj]
           else ret tt
      else ret tt
  end.

Definition sync_models_to_device_types (self : Syncer) (snipe_models : list SnipeModel)
    : M unit :=
  netbox_device_types <- device_types_all ;;
  netbox_manufacturers <- manufacturers_all ;;
  for_each snipe_models (sync_model self netbox_device_types netbox_manufacturers).

(** [Syncer.sync_top_locations_to_sites] *)
Definition sync_top_location (self : Syncer) (netbox_sites : list Site)
    (location : SnipeLocation) : M unit :=
  match List.find (fun item => bool_decide (rec_key item = Some (sl_id location)))
                  netbox_sites with
  | None =>
      match List.find (fun item => String.eqb (st_name item) (sl_name location))
                      netbox_sites with
      | None =>
          _ <- sites_create
                 (dict [("name", PStr (sl_name location));
                        ("slug", PStr (slugify (sl_name location)));
                        ("description", PStr (desc self));
                        ("status", PStr "active");
                        ("custom_fields", PCustom (sl_id location))]) ;;
          ret tt
      | Some present_nb_site =>
          if allow_linking self
          then sites_update
                 [dict [("id", PInt (st_id present_nb_site));
                        ("comments",
                         PStr (gen_update_comment self (st_comments present_nb_site)
                                                  (Some "Snipe ID")));
                        ("custom_fields", PCustom (sl_id location))]]
          else ret tt
      end
  | Some present_nb_site =>
      if negb (String.eqb (st_name present_nb_site) (sl_name location))
      then if allow_updates self
           then sites_update
                  [dict [("id", PInt (st_id present_nb_site));
                         ("name", PStr (sl_name location));
                         ("slug", PStr (slugify (sl_name location)));
                         ("comments",
                          PStr (gen_update_comment self (st_comments present_nb_site)
                                                   (Some "Values")))]]
           else ret tt
      else ret tt
  end.

Definition sync_top_locations_to_sites (self : Syncer) (locations : list SnipeLocation)
    : M unit :=
  netbox_sites <- sites_all ;;
  let top_locations :=
    List.filter (fun s => bool_decide (sl_parent s = None)) locations in
  for_each top_locations (sync_top_location self netbox_sites).

(** ** Locations *)

(** The [while site is None] loop of [Syncer.__sync_location].  Each
    round looks the current [parent] up among the sites by linkage key
    and moves to the parent of [parent] as [locations_with_parents]
    gives it.  The loop need not end on a cyclic parent chain, so the
    number of rounds is bounded by [fuel]: [None] is a walk that used
    all its fuel, [Some None] the [return] taken when the chain ends
    and [Some (Some site)] the site found. *)
Fixpoint find_site (fuel : nat) (netbox_sites : list Site)
    (locations_with_parents : list SnipeLocation) (parent : option Ref)
    : option (option Site) :=
  match fuel with
  | O => None
  | S fuel' =>
      match parent with
      | None => Some None
      | Some p =>
          let site :=
            List.find (fun item => bool_decide (rec_key item = Some (ref_id p)))
                      netbox_sites in
          let parent_item :=
            List.find (fun item => Z.eqb (sl_id item) (ref_id p)) locations_with_parents in
          let parent' :=
            match parent_item with
            | Some item => sl_parent item
            | None => None
            end in
          match site with
          | Some s => Some (Some s)
          | None => find_site fuel' netbox_sites locations_with_parents parent'
          end
      end
  end.

Definition out_of_fuel {A} : M A := raise OutOfFuel.

(** [Syncer.__sync_location] *)
Definition sync_location (fuel : nat) (self : Syncer) (netbox_sites : list Site)
    (netbox_locations : list Location) (locations_with_parents : list SnipeLocation)
    (location : SnipeLocation) : M unit :=
  match find_site fuel netbox_sites locations_with_parents (sl_parent location) with
  | None => out_of_fuel
  | Some None => ret tt
  | Some (Some site) =>
      match List.find (fun item => bool_decide (rec_key item = Some (sl_id location)))
                      netbox_locations with
      | None =>
          match List.find (fun item => String.eqb (lc_name item) (sl_name location)
                                       && Z.eqb (lc_site item) (st_id site))
                          netbox_locations with
          | None =>
              _ <- locations_create
                     (dict [("name", PStr (sl_name location));
                            ("slug", PStr (slugify (sl_name location)));
                            ("description", PStr (desc self));
                            ("status", PStr "active");
                            ("site", PInt (st_id site));
                            ("custom_fields", PCustom (sl_id location))]) ;;
              ret tt
          | Some present_nb_loc =>
              if allow_linking self
              then locations_update
                     [dict [("id", PInt (lc_id present_nb_loc));
                            ("custom_fields", PCustom (sl_id location))]]
              else ret tt
          end
      | Some present_nb_loc =>
          if negb (String.eqb (lc_name present_nb_loc) (sl_name location))
             || negb (Z.eqb (lc_site present_nb_loc) (st_id site))
          then if allow_updates self
               then locations_update
                      [dict [("id", PInt (lc_id present_nb_loc));
                             ("name", PStr (sl_name location));
                             ("site", PInt (st_id site));
                             ("slug", PStr (slugify (sl_name location)))]]
               else ret tt
          else ret tt
      end
  end.

(** The body of the loop of [Syncer.__sync_location_relationships]:
    [updates] is the list that the loop appends to. *)
Definition sync_location_relationship (self : Syncer) (netbox_locations : list Location)
    (updates : list Payload) (snipe_location : SnipeLocation) : M (list Payload) :=
  present_nb_loc <-
    assert_some (List.find (fun item => bool_decide (rec_key item = Some (sl_id snipe_location)))
                           netbox_locations) ;;
  parent <- subscript (sl_parent snipe_location) ;;
  present_nb_parent_loc <-
    assert_some (List.find (fun item => bool_decide (rec_key item = Some (ref_id parent)))
                           netbox_locations) ;;
  nb_parent_id <- subscript (lc_parent present_nb_loc) ;;
  if negb (Z.eqb nb_parent_id (lc_id present_nb_parent_loc))
  then if allow_updates self
       then ret (updates ++ [dict [("id", PInt (lc_id present_nb_loc));
                                   ("parent", PInt (lc_id present_nb_parent_loc))]])%list
       else ret updates
  else ret updates.

(** [Syncer.__sync_location_relationships] *)
Definition sync_location_relationships (self : Syncer) (sub_locations : list SnipeLocation)
    : M unit :=
  netbox_locations <- locations_all ;;
  updates <- for_fold sub_locations [] (sync_location_relationship self netbox_locations) ;;
  locations_update updates.

(** The test of [sync_locations] that keeps a location as a
    sub-location: its parent is linked to no site. *)
Definition parent_is_no_site (netbox_sites : list Site) (snipe_location : SnipeLocation)
    : Result bool :=
  match sl_parent snipe_location with
  | None => Raise TypeError
  | Some p =>
      Ok (bool_decide
            (List.find (fun item => bool_decide (rec_key item = Some (ref_id p))) netbox_sites
             = None))
  end.

Definition lift {A} (r : Result A) : M A := fun nb => (r, nb).

(** [Syncer.sync_locations] *)
Definition sync_locations (fuel : nat) (self : Syncer) (locations : list SnipeLocation)
    : M unit :=
  netbox_locations <- locations_all ;;
  netbox_sites <- sites_all ;;
  let snipe_locations_with_parent :=
    List.filter (fun s => negb (bool_decide (sl_parent s = None))) locations in
  snipe_sub_locations <-
    for_fold snipe_locations_with_parent []
      (fun acc snipe_location =>
         b <- lift (parent_is_no_site netbox_sites snipe_location) ;;
         ret (if b then (acc ++ [snipe_location])%list else acc)) ;;
  for_each snipe_locations_with_parent
    (sync_location fuel self netbox_sites netbox_locations snipe_locations_with_parent) ;;;
  sync_location_relationships self snipe_sub_locations.

(** ** Roles and devices *)

(** [Syncer.__get_customfield_from_dict_list] *)
Definition get_customfield_from_dict_list {A} `{Target A} (the_list : list A) (needle : Z)
    : option A :=
  List.find (fun item => bool_decide (rec_key item = Some needle)) the_list.

(** The role name that [Syncer.__get_role_from_category] derives from
    the name of the category. *)
Definition role_name (category_name : string) : string :=
  let hypos := PyStr.find category_name "-" in
  if Z.ltb 1 hypos then PyStr.strip (PyStr.slice_to category_name hypos) else category_name.

(** [Syncer.__get_role_from_category]: returns the list of roles, with
    a created role appended, and the role. *)
Definition get_role_from_category (netbox_roles : list DeviceRole) (snipe_asset : SnipeAsset)
    : M (list DeviceRole * DeviceRole) :=
  let category_name := role_name (ref_name (sa_category snipe_asset)) in
  match get_customfield_from_dict_list netbox_roles (ref_id (sa_category snipe_asset)) with
  | Some role => ret (netbox_roles, role)
  | None =>
      match List.find (fun item => String.eqb (rl_name item) category_name) netbox_roles with
      | Some role =>
          device_roles_update
            [dict [("id", PInt (rl_id role));
                   ("custom_fields", PCustom (ref_id (sa_category snipe_asset)))]] ;;;
          ret (netbox_roles, role)
      | None =>
          role <- device_roles_create
                    (dict [("name", PStr category_name);
                           ("slug", PStr (slugify category_name))]) ;;
          ret ((netbox_roles ++ [role])%list, role)
      end
  end.

(** [nb_site["id"]]: a string cannot be indexed by a string. *)
Definition site_id (nb_site : SiteArg) : M Z :=
  match nb_site with
  | SiteDict id => ret id
  | SiteRecord s => ret (st_id s)
  | SiteStr _ => raise TypeError
  end.

(** ["id" in nb_site]: a key test on a [dict], a substring test on a
    string.  A [pynetbox] record has no [__contains__]; the test falls
    back on iterating over its (name, value) pairs, none of which equals
    the string. *)
Definition site_has_id (nb_site : SiteArg) : bool :=
  match nb_site with
  | SiteDict _ => true
  | SiteRecord _ => false
  | SiteStr s => PyStr.contains "id" s
  end.

(** The stored name with an appended asset tag cut off, as
    [__update_device] computes it. *)
Definition strip_tag (oldname : option string) (asset_tag : string) : option string :=
  match oldname with
  | Some n =>
      if Z.ltb 1 (PyStr.rfind n asset_tag)
      then Some (PyStr.slice_to n (PyStr.rfind n asset_tag - 1))
      else Some n
  | None => None
  end.

(** [Syncer.__update_device] *)
Definition update_device (self : Syncer) (nb_device : Device) (snipe_device : SnipeAsset)
    (nb_role : DeviceRole) (nb_site : SiteArg) (nb_tenant : option Tenant)
    (nb_device_type : option DeviceType) (update_custom_field_id : bool) : M unit :=
  let update_dict := dict [("id", PInt (dv_id nb_device))] in
  let update_dict :=
    if update_custom_field_id
    then dict_merge update_dict (dict [("custom_fields", PCustom (sa_id snipe_device))])
    else update_dict in
  let update_dict :=
    if negb (bool_decide (dv_asset_tag nb_device = Some (sa_asset_tag snipe_device)))
    then dict_merge update_dict (dict [("asset_tag", PStr (sa_asset_tag snipe_device))])
    else update_dict in
  let update_dict :=
    if negb (String.eqb (dv_serial nb_device) (sa_serial snipe_device))
    then dict_merge update_dict (dict [("serial", PStr (sa_serial snipe_device))])
    else update_dict in
  dev_site <- subscript (dv_site nb_device) ;;
  nb_site_id <- site_id nb_site ;;
  let update_dict :=
    if negb (Z.eqb dev_site nb_site_id)
    then dict_merge update_dict (dict [("site", PInt nb_site_id)])
    else update_dict in
  let update_dict :=
    if negb (Z.eqb (dv_device_role nb_device) (rl_id nb_role))
    then dict_merge update_dict (dict [("device_role", PInt (rl_id nb_role))])
    else update_dict in
  dev_tenant <- subscript (dv_tenant nb_device) ;;
  tenant <- subscript nb_tenant ;;
  let update_dict :=
    if negb (Z.eqb dev_tenant (tn_id tenant))
    then dict_merge update_dict (dict [("tenant", PInt (tn_id tenant))])
    else update_dict in
  device_type <- subscript nb_device_type ;;
  let update_dict :=
    if negb (Z.eqb (dv_device_type nb_device) (dt_id device_type))
    then dict_merge update_dict (dict [("device_type", PInt (dt_id device_type))])
    else update_dict in
  let oldname := strip_tag (dv_name nb_device) (sa_asset_tag snipe_device) in
  let check_name :=
    if Nat.ltb 0 (String.length (sa_name snipe_device))
    then Some (sa_name snipe_device) else None in
  update_dict <-
    (if negb (bool_decide (oldname = check_name))
     then
       name <-
         match check_name with
         | None => ret PNone
         | Some check_name =>
             conflict <- devices_get check_name nb_site_id (tn_id tenant) ;;
             match conflict with
             | Some _ => ret (PStr (check_name ++ " " ++ sa_asset_tag snipe_device))
             | None => ret (PStr (sa_name snipe_device))
             end
         end ;;
       ret (dict_merge update_dict (dict [("name", name)]))
     else ret update_dict) ;;
  if Z.ltb 1 (dict_len update_dict)
  then
    let update_dict :=
      dict_merge update_dict
        (dict [("comments",
                PStr (gen_update_comment self (dv_comments nb_device)
                        (Some (if dict_has "custom_fields" update_dict
                               then "Snipe ID" else "Values"))))]) in
    devices_update [update_dict]
  else ret tt.

(** The search of [__sync_device] by name and tenant.  The test on an
    item reads [nb_tenant["id"]] only when the name is equal and the
    item has a tenant. *)
Fixpoint find_by_name_and_tenant (netbox_devices : list Device) (name : string)
    (nb_tenant : option Tenant) : Result (option Device) :=
  match netbox_devices with
  | [] => Ok None
  | item :: rest =>
      if bool_decide (dv_name item = Some name)
      then match dv_tenant item with
           | None => find_by_name_and_tenant rest name nb_tenant
           | Some item_tenant =>
               match nb_tenant with
               | None => Raise TypeError
               | Some tenant =>
                   if Z.eqb item_tenant (tn_id tenant) then Ok (Some item)
                   else find_by_name_and_tenant rest name nb_tenant
               end
           end
      else find_by_name_and_tenant rest name nb_tenant
  end.

(** The payload of the device that [__sync_device] creates. *)
Definition new_device (self : Syncer) (name : string) (snipe_asset : SnipeAsset)
    (nb_role : DeviceRole) (device_type : DeviceType) (nb_tenant : option Tenant)
    (nb_site : SiteArg) : M Payload :=
  let new_device :=
    dict [("name", PStr name);
          ("comments", PStr (initial_notes (sa_notes snipe_asset)));
          ("description", PStr (desc self));
          ("status", PStr "active");
          ("asset_tag", PStr (sa_asset_tag snipe_asset));
          ("role", PInt (rl_id nb_role));
          ("serial", PStr (sa_serial snipe_asset));
          ("device_type", PInt (dt_id device_type));
          ("tenant", match nb_tenant with
                     | Some tenant => PInt (tn_id tenant)
                     | None => PNone
                     end);
          ("custom_fields", PCustom (sa_id snipe_asset))] in
  if site_has_id nb_site
  then nb_site_id <- site_id nb_site ;;
       ret (dict_merge new_device (dict [("site", PInt nb_site_id)]))
  else ret new_device.

(** [Syncer.__sync_device]: returns [netbox_devices], with a created
    device appended. *)
Definition sync_device (self : Syncer) (nb_device_type : option DeviceType)
    (nb_tenant : option Tenant) (netbox_devices : list Device) (nb_role : DeviceRole)
    (nb_site : SiteArg) (snipe_asset : SnipeAsset) : M (list Device) :=
  match List.find (fun item => bool_decide (rec_key item = Some (sa_id snipe_asset)))
                  netbox_devices with
  | Some device =>
      update_device self device snipe_asset nb_role nb_site nb_tenant nb_device_type false ;;;
      ret netbox_devices
  | None =>
      match List.find
              (fun item => bool_decide (dv_asset_tag item = Some (sa_asset_tag snipe_asset)))
              netbox_devices with
      | Some device =>
          update_device self device snipe_asset nb_role nb_site nb_tenant nb_device_type
                        true ;;;
          ret netbox_devices
      | None =>
          device <- lift (find_by_name_and_tenant netbox_devices (sa_name snipe_asset)
                                                  nb_tenant) ;;
          let name :=
            match device with
            | Some _ => sa_name snipe_asset ++ " " ++ sa_asset_tag snipe_asset
            | None => sa_name snipe_asset
            end in
          device_type <- subscript nb_device_type ;;
          payload <- new_device self name snipe_asset nb_role device_type nb_tenant nb_site ;;
          device <- devices_create payload ;;
          ret (netbox_devices ++ [device])%list
      end
  end.

(** The site that [sync_assets_to_devices] hands to [__sync_device]. *)
Definition asset_location (netbox_locations : list Location) (snipe_asset : SnipeAsset)
    : option Location :=
  match sa_location snipe_asset with
  | Some l => get_customfield_from_dict_list netbox_locations (ref_id l)
  | None =>
      match sa_rtd_location snipe_asset with
      | Some l => get_customfield_from_dict_list netbox_locations (ref_id l)
      | None => None
      end
  end.

Definition asset_site (netbox_locations : list Location) (snipe_asset : SnipeAsset)
    : M SiteArg :=
  match asset_location netbox_locations snipe_asset with
  | Some location => ret (SiteDict (lc_site location))
  | None =>
      match sa_company snipe_asset with
      | Some company =>
          s <- get_fallback_site (Some (ref_name company)) ;;
          ret (SiteRecord s)
      | None => ret (SiteStr DEFAULT_SITE_NAME)
      end
  end.

(** The body of the loop of [Syncer.sync_assets_to_devices]; the state
    of the loop is the pair of [netbox_roles] and [netbox_devices]. *)
Definition sync_asset (self : Syncer) (netbox_tenants : list Tenant)
    (netbox_locations : list Location) (netbox_device_types : list DeviceType)
    (st : list DeviceRole * list Device) (snipe_asset : SnipeAsset)
    : M (list DeviceRole * list Device) :=
  let nb_device_type :=
    get_customfield_from_dict_list netbox_device_types (sa_model snipe_asset) in
  site <- asset_site netbox_locations snipe_asset ;;
  let nb_tenant :=
    match sa_company snipe_asset with
    | Some company => get_customfield_from_dict_list netbox_tenants (ref_id company)
    | None => None
    end in
  rr <- get_role_from_category (fst st) snipe_asset ;;
  netbox_devices <- sync_device self nb_device_type nb_tenant (snd st) (snd rr) site
                                snipe_asset ;;
  ret (fst rr, netbox_devices).

(** [Syncer.sync_assets_to_devices] *)
Definition sync_assets_to_devices (self : Syncer) (snipe_assets : list SnipeAsset) : M unit :=
  netbox_devices <- devices_all ;;
  netbox_tenants <- tenants_all ;;
  netbox_locations <- locations_all ;;
  netbox_roles <- device_roles_all ;;
  netbox_device_types <- device_types_all ;;
  _ <- for_fold snipe_assets (netbox_roles, netbox_devices)
         (sync_asset self netbox_tenants netbox_locations netbox_device_types) ;;
  ret tt.

(** ** The pass of [main.py] *)

(** What the source collaborator delivers for one pass. *)
Record Snipe := {
  get_companies : list Ref;
  get_manufacturers : list Ref;
  get_models : list SnipeModel;
  get_locations : list SnipeLocation;
  get_assets : list SnipeAsset }.

(** The stages in the order of [main.py], after the custom field has
    been ensured.  [desc] of [self] and the description of the tenant
    stage come from the clock. *)
Definition main (fuel : nat) (self : Syncer) (tenant_desc : string) (snipe : Snipe) : M unit :=
  sync_companies_to_tenants self tenant_desc (get_companies snipe) ;;;
  sync_manufacturers self (get_manufacturers snipe) ;;;
  sync_models_to_device_types self (get_models snipe) ;;;
  sync_top_locations_to_sites self (get_locations snipe) ;;;
  sync_locations fuel self (get_locations snipe) ;;;
  sync_assets_to_devices self (get_assets snipe).

Definition empty_netbox : NetBox :=
  {| nb_tenants := []; nb_manufacturers := []; nb_device_types := []; nb_sites := [];
     nb_locations := []; nb_device_roles := []; nb_devices := [];
     nb_next_id := 1; nb_calls := [] |}.

(** The calls that a computation adds to the record of a state. *)
Definition calls_of {A} (m : M A) (nb : NetBox) : list Call :=
  drop (length (nb_calls nb)) (nb_calls (snd (m nb))).

(** ** The decision table of the specification

    These definitions follow the words of the specification (EntityMatcher
    and ReconcilePolicy); the code has no function of this shape, and the
    properties below compare the stage handlers with them. *)

Inductive MatchResult (A : Type) :=
| Linked (target : A)
| NameMatched (target : A)
| NotFound.
Arguments Linked {A} target.
Arguments NameMatched {A} target.
Arguments NotFound {A}.

Inductive Action := ACreate | ALink | AUpdate | ASkip.

(** Linkage key first, name second. *)
Definition entity_match {A} `{Target A} (same_name : A -> bool) (snapshot : list A)
    (source_id : Z) : MatchResult A :=
  match List.find (fun t => bool_decide (rec_key t = Some source_id)) snapshot with
  | Some t => Linked t
  | None =>
      match List.find same_name snapshot with
      | Some t => NameMatched t
      | None => NotFound
      end
  end.

Definition decide_action {A} (matchResult : MatchResult A) (diff_empty : bool)
    (allow_updates allow_linking : bool) : Action :=
  match matchResult with
  | NotFound => ACreate
  | NameMatched _ => if allow_linking then ALink else ASkip
  | Linked _ =>
      if diff_empty then ASkip
      else if allow_updates then AUpdate else ASkip
  end.

Definition matched_id {A} `{Target A} (m : MatchResult A) : option Z :=
  match m with
  | Linked t | NameMatched t => Some (rec_id t)
  | NotFound => None
  end.

(** What carrying out an action means for the calls made on the
    endpoint [e]: a create that stamps the source id; an update of the
    matched target that stamps the source id; an update of the matched
    target that writes every changed field and leaves the linkage key
    alone; no call at all. *)
Definition performs (a : Action) (e : Endpoint) (source_id : Z) (target : option Z)
    (changed : list (string * PyVal)) (calls : list Call) : Prop :=
  match a with
  | ACreate =>
      exists p, calls = [Create e p] /\ p !! "custom_fields" = Some (PCustom source_id)
  | ALink =>
      exists p t, target = Some t /\ calls = [Update e [p]]
                  /\ p !! "id" = Some (PInt t)
                  /\ p !! "custom_fields" = Some (PCustom source_id)
  | AUpdate =>
      exists p t, target = Some t /\ calls = [Update e [p]]
                  /\ p !! "id" = Some (PInt t)
                  /\ p !! "custom_fields" = None
                  /\ Forall (fun kv => p !! fst kv = Some (snd kv)) changed
  | ASkip => calls = []
  end.

(** One source record of a kind other than device, with what its
    handler reads: the snapshot of the stage and, for a device type, the
    manufacturers; for a location, the site that the parent walk found. *)
Inductive Item :=
| ItemCompany (desc : string) (netbox_tenants : list Tenant) (snipe_company : Ref)
| ItemManufacturer (netbox_manufacturers : list Manufacturer) (snipe_manuf : Ref)
| ItemModel (netbox_device_types : list DeviceType)
            (netbox_manufacturers : list Manufacturer) (manuf : Manufacturer)
            (model : SnipeModel)
| ItemTopLocation (netbox_sites : list Site) (location : SnipeLocation)
| ItemLocation (fuel : nat) (netbox_sites : list Site) (netbox_locations : list Location)
               (locations_with_parents : list SnipeLocation) (site : Site)
               (location : SnipeLocation).

(** The references of an item resolve: the manufacturer of a model is
    found by name, the parent walk of a location ends at a site. *)
Definition item_resolved (it : Item) : Prop :=
  match it with
  | ItemModel _ ms manuf model =>
      List.find (fun item => String.eqb (mf_name item) (ref_name (sm_manufacturer model))) ms
      = Some manuf
  | ItemLocation fuel sites _ lwp site location =>
      find_site fuel sites lwp (sl_parent location) = Some (Some site)
  | _ => True
  end.

(** The parent walk of a location ends without a site: the handler
    logs the error and returns. *)
Definition item_unowned (it : Item) : Prop :=
  match it with
  | ItemLocation fuel sites _ lwp _ location =>
      find_site fuel sites lwp (sl_parent location) = Some None
  | _ => False
  end.

Definition item_run (self : Syncer) (it : Item) : M unit :=
  match it with
  | ItemCompany desc l c => sync_company self desc l c
  | ItemManufacturer l m => sync_manufacturer self l m
  | ItemModel dts ms _ model => sync_model self dts ms model
  | ItemTopLocation sites location => sync_top_location self sites location
  | ItemLocation fuel sites locs lwp _ location =>
      sync_location fuel self sites locs lwp location
  end.

Definition item_endpoint (it : Item) : Endpoint :=
  match it with
  | ItemCompany _ _ _ => Tenants
  | ItemManufacturer _ _ => Manufacturers
  | ItemModel _ _ _ _ => DeviceTypes
  | ItemTopLocation _ _ => Sites
  | ItemLocation _ _ _ _ _ _ => Locations
  end.

Definition item_source_id (it : Item) : Z :=
  match it with
  | ItemCompany _ _ c => ref_id c
  | ItemManufacturer _ m => ref_id m
  | ItemModel _ _ _ model => sm_id model
  | ItemTopLocation _ location => sl_id location
  | ItemLocation _ _ _ _ _ location => sl_id location
  end.

Definition changed_if (b : bool) (k : string) (v : PyVal) : list (string * PyVal) :=
  if b then [] else [(k, v)].

(** The EntityMatcher result of an item, reduced to what the table
    needs: the action of the table, the id of the matched target and the
    reconciled fields that differ, with the value of the source. *)
Definition item_decision (self : Syncer) (it : Item)
    : Action * option Z * list (string * PyVal) :=
  let au := allow_updates self in
  let al := allow_linking self in
  match it with
  | ItemCompany _ l c =>
      let m := entity_match (fun t => String.eqb (tn_name t) (ref_name c)) l (ref_id c) in
      let changed :=
        match m with
        | Linked t => changed_if (String.eqb (tn_name t) (ref_name c)) "name" (PStr (ref_name c))
        | _ => []
        end in
      (decide_action m (bool_decide (changed = [])) au al, matched_id m, changed)
  | ItemManufacturer l c =>
      let m := entity_match (fun t => String.eqb (mf_name t) (ref_name c)) l (ref_id c) in
      let changed :=
        match m with
        | Linked t => changed_if (String.eqb (mf_name t) (ref_name c)) "name" (PStr (ref_name c))
        | _ => []
        end in
      (decide_action m (bool_decide (changed = [])) au al, matched_id m, changed)
  | ItemModel dts _ manuf model =>
      let m :=
        entity_match
          (fun t => String.eqb (dt_model t) (sm_name model)
                    && String.eqb (ref_name (dt_manufacturer t))
                                  (ref_name (sm_manufacturer model)))
          dts (sm_id model) in
      let changed :=
        match m with
        | Linked t =>
            (changed_if (String.eqb (dt_model t) (sm_name model)) "model" (PStr (sm_name model))
             ++ changed_if (String.eqb (dt_part_number t) (sm_model_number model))
                  "part_number" (PStr (sm_model_number model))
             ++ changed_if (Z.eqb (ref_id (dt_manufacturer t)) (mf_id manuf))
                  "manufacturer" (PInt (mf_id manuf)))%list
        | _ => []
        end in
      (decide_action m (bool_decide (changed = [])) au al, matched_id m, changed)
  | ItemTopLocation sites location =>
      let m :=
        entity_match (fun t => String.eqb (st_name t) (sl_name location)) sites
                     (sl_id location) in
      let changed :=
        match m with
        | Linked t =>
            changed_if (String.eqb (st_name t) (sl_name location)) "name"
                       (PStr (sl_name location))
        | _ => []
        end in
      (decide_action m (bool_decide (changed = [])) au al, matched_id m, changed)
  | ItemLocation _ _ locs _ site location =>
      let m :=
        entity_match (fun t => String.eqb (lc_name t) (sl_name location)
                               && Z.eqb (lc_site t) (st_id site))
                     locs (sl_id location) in
      let changed :=
        match m with
        | Linked t =>
            (changed_if (String.eqb (lc_name t) (sl_name location)) "name"
                        (PStr (sl_name location))
             ++ changed_if (Z.eqb (lc_site t) (st_id site)) "site" (PInt (st_id site)))%list
        | _ => []
        end in
      (decide_action m (bool_decide (changed = [])) au al, matched_id m, changed)
  end.

(** ** Chains of ancestors in the source tree *)

(** [leads lwp a top n]: [n] parent links of the source, read from
    [locations_with_parents], lead from [a] up to [top]. *)
Inductive leads (lwp : list SnipeLocation) : Ref -> Ref -> nat -> Prop :=
| leads_here a : leads lwp a a 0
| leads_up a item b top n :
    List.find (fun item => Z.eqb (sl_id item) (ref_id a)) lwp = Some item ->
    sl_parent item = Some b ->
    leads lwp b top n ->
    leads lwp a top (S n).

(** [climbs sites lwp a top n]: the same, and none of the [n]
    ancestors below [top] is linked to a site. *)
Inductive climbs (netbox_sites : list Site) (lwp : list SnipeLocation)
    : Ref -> Ref -> nat -> Prop :=
| climbs_here a : climbs netbox_sites lwp a a 0
| climbs_up a item b top n :
    List.find (fun item => bool_decide (rec_key item = Some (ref_id a))) netbox_sites = None ->
    List.find (fun item => Z.eqb (sl_id item) (ref_id a)) lwp = Some item ->
    sl_parent item = Some b ->
    climbs netbox_sites lwp b top n ->
    climbs netbox_sites lwp a top (S n).

(** ** The three steps of [__update_device]

    The body of [update_device] cut into its steps, for the properties:
    the dictionary after the six comparisons, the step that decides the
    name, and the step that sends the update. *)

Definition device_changes (nb_device : Device) (snipe_device : SnipeAsset)
    (nb_role : DeviceRole) (nb_site_id : Z) (tenant : Tenant) (device_type : DeviceType)
    (dev_site dev_tenant : Z) (update_custom_field_id : bool) : Payload :=
  let update_dict := dict [("id", PInt (dv_id nb_device))] in
  let update_dict :=
    if update_custom_field_id
    then dict_merge update_dict (dict [("custom_fields", PCustom (sa_id snipe_device))])
    else update_dict in
  let update_dict :=
    if negb (bool_decide (dv_asset_tag nb_device = Some (sa_asset_tag snipe_device)))
    then dict_merge update_dict (dict [("asset_tag", PStr (sa_asset_tag snipe_device))])
    else update_dict in
  let update_dict :=
    if negb (String.eqb (dv_serial nb_device) (sa_serial snipe_device))
    then dict_merge update_dict (dict [("serial", PStr (sa_serial snipe_device))])
    else update_dict in
  let update_dict :=
    if negb (Z.eqb dev_site nb_site_id)
    then dict_merge update_dict (dict [("site", PInt nb_site_id)])
    else update_dict in
  let update_dict :=
    if negb (Z.eqb (dv_device_role nb_device) (rl_id nb_role))
    then dict_merge update_dict (dict [("device_role", PInt (rl_id nb_role))])
    else update_dict in
  let update_dict :=
    if negb (Z.eqb dev_tenant (tn_id tenant))
    then dict_merge update_dict (dict [("tenant", PInt (tn_id tenant))])
    else update_dict in
  if negb (Z.eqb (dv_device_type nb_device) (dt_id device_type))
  then dict_merge update_dict (dict [("device_type", PInt (dt_id device_type))])
  else update_dict.

Definition name_change (nb_device : Device) (snipe_device : SnipeAsset) (nb_site_id : Z)
    (tenant : Tenant) (update_dict : Payload) : M Payload :=
  let oldname := strip_tag (dv_name nb_device) (sa_asset_tag snipe_device) in
  let check_name :=
    if Nat.ltb 0 (String.length (sa_name snipe_device))
    then Some (sa_name snipe_device) else None in
  if negb (bool_decide (oldname = check_name))
  then
    name <-
      match check_name with
      | None => ret PNone
      | Some check_name =>
          conflict <- devices_get check_name nb_site_id (tn_id tenant) ;;
          match conflict with
          | Some _ => ret (PStr (check_name ++ " " ++ sa_asset_tag snipe_device))
          | None => ret (PStr (sa_name snipe_device))
          end
      end ;;
    ret (dict_merge update_dict (dict [("name", name)]))
  else ret update_dict.

Definition send_update (self : Syncer) (nb_device : Device) (update_dict : Payload)
    : M unit :=
  if Z.ltb 1 (dict_len update_dict)
  then
    let update_dict :=
      dict_merge update_dict
        (dict [("comments",
                PStr (gen_update_comment self (dv_comments nb_device)
                        (Some (if dict_has "custom_fields" update_dict
                               then "Snipe ID" else "Values"))))]) in
    devices_update [update_dict]
  else ret tt.

(** The sites that [sync_assets_to_devices] passes on: the site of a
    location, a fallback record, or the default name. *)
Definition passed_site (nb_site : SiteArg) : Prop :=
  match nb_site with
  | SiteStr s => s = DEFAULT_SITE_NAME
  | _ => True
  end.

(** The id that [nb_site["id"]] gives, when it gives one. *)
Definition site_id_of (nb_site : SiteArg) : option Z :=
  match nb_site with
  | SiteDict id => Some id
  | SiteRecord s => Some (st_id s)
  | SiteStr _ => None
  end.

(** A target device whose name and tenant are those of the asset. *)
Definition same_name_and_tenant (name : string) (tenant : Tenant) (item : Device) : bool :=
  bool_decide (dv_name item = Some name) && bool_decide (dv_tenant item = Some (tn_id tenant)).


Definition tenant_value (nb_tenant : option Tenant) : PyVal :=
  match nb_tenant with Some tenant => PInt (tn_id tenant) | None => PNone end.

(** The name of a created device: the asset tag is appended when the
    search by name and tenant found a device. *)
Definition created_name (a : SnipeAsset) (collision : option Device) : string :=
  match collision with
  | Some _ => sa_name a ++ " " ++ sa_asset_tag a
  | None => sa_name a
  end.



(** ** Linkage keys of a table *)

(** The (id, linkage key) pairs of a table. *)
Definition keys_of {A} `{Target A} (l : list A) : list (Z * option Z) :=
  map (fun r => (rec_id r, rec_key r)) l.

Definition table_keys (e : Endpoint) (nb : NetBox) : list (Z * option Z) :=
  match e with
  | Tenants => keys_of (nb_tenants nb)
  | Manufacturers => keys_of (nb_manufacturers nb)
  | DeviceTypes => keys_of (nb_device_types nb)
  | Sites => keys_of (nb_sites nb)
  | Locations => keys_of (nb_locations nb)
  | DeviceRoles => keys_of (nb_device_roles nb)
  | Devices => keys_of (nb_devices nb)
  end.

(** At most one id carries a given linkage key. *)
Definition unique_keys (K : list (Z * option Z)) : Prop :=
  forall k i j, In (i, Some k) K -> In (j, Some k) K -> i = j.

(** A table of a state is well keyed: its ids are pairwise distinct and
    below the id counter, and its linkage keys are unique. *)
Definition well_keyed (e : Endpoint) (nb : NetBox) : Prop :=
  NoDup (map fst (table_keys e nb))
  /\ (forall i key, In (i, key) (table_keys e nb) -> i < nb_next_id nb)
  /\ unique_keys (table_keys e nb).

(** The records of a table that carry the linkage key [k]. *)
Definition carriers {A} `{Target A} (k : Z) (l : list A) : list A :=
  List.filter (fun r => bool_decide (rec_key r = Some k)) l.

(** The keys of a table after the record with id [i] is stamped with
    [k], and after one update payload. *)
Definition stamp (i k : Z) (K : list (Z * option Z)) : list (Z * option Z) :=
  map (fun x => if Z.eqb (fst x) i then (fst x, Some k) else x) K.

Definition stamp_by (p : Payload) (K : list (Z * option Z)) : list (Z * option Z) :=
  match p !! "id", p !! "custom_fields" with
  | Some (PInt i), Some (PCustom k) => stamp i k K
  | _, _ => K
  end.

(** The invariant of a stage on the table [e].  [K0] are the keys of
    the table when the stage starts and [seen] the ids of the source
    records handled so far: a linkage key in the table either was there
    from the start, on the same record, or is the id of a source record
    already handled that no record carried at the start; and such a new
    key is on one record only. *)
Definition key_inv (e : Endpoint) (K0 : list (Z * option Z)) (seen : list Z) (nb : NetBox)
    : Prop :=
  NoDup (map fst (table_keys e nb))
  /\ (forall i key, In (i, key) (table_keys e nb) -> i < nb_next_id nb)
  /\ (forall i k, In (i, Some k) (table_keys e nb) ->
        In (i, Some k) K0 \/ (~ In (Some k) (map snd K0) /\ In k seen))
  /\ (forall k i j, ~ In (Some k) (map snd K0) ->
        In (i, Some k) (table_keys e nb) -> In (j, Some k) (table_keys e nb) -> i = j).

(** The state after [create] and after [update] on the endpoint [X]. *)
Definition create_at (X : Endpoint) (p : Payload) (nb : NetBox) : NetBox :=
  match X with
  | Tenants => snd (tenants_create p nb)
  | Manufacturers => snd (manufacturers_create p nb)
  | DeviceTypes => snd (device_types_create p nb)
  | Sites => snd (sites_create p nb)
  | Locations => snd (locations_create p nb)
  | DeviceRoles => snd (device_roles_create p nb)
  | Devices => snd (devices_create p nb)
  end.

Definition update_at (X : Endpoint) (ps : list Payload) (nb : NetBox) : NetBox :=
  match X with
  | Tenants => snd (tenants_update ps nb)
  | Manufacturers => snd (manufacturers_update ps nb)
  | DeviceTypes => snd (device_types_update ps nb)
  | Sites => snd (sites_update ps nb)
  | Locations => snd (locations_update ps nb)
  | DeviceRoles => snd (device_roles_update ps nb)
  | Devices => snd (devices_update ps nb)
  end.


(** ** Sample records *)

Module Sample.

Definition syncer (updates linking : bool) : Syncer :=
  {| allow_updates := updates; allow_linking := linking;
     desc := "Imported from SnipeIT 24-01-01 00:00:00 (UTC)" |}.

Definition site (id : Z) (name : string) (key : option Z) : Site :=
  {| st_id := id; st_name := name; st_slug := slugify name; st_description := "";
     st_status := "active"; st_comments := ""; st_key := key |}.

Definition location (id : Z) (name : string) (site : Z) (parent key : option Z) : Location :=
  {| lc_id := id; lc_name := name; lc_slug := slugify name; lc_description := "";
     lc_status := "active"; lc_site := site; lc_parent := parent; lc_key := key |}.

Definition ref (id : Z) (name : string) : Ref := {| ref_id := id; ref_name := name |}.

(** A source tree HQ > Floor > Room. *)
Definition hq : SnipeLocation := {| sl_id := 4; sl_name := "HQ"; sl_parent := None |}.
Definition floor : SnipeLocation :=
  {| sl_id := 5; sl_name := "Floor"; sl_parent := Some (ref 4 "HQ") |}.
Definition room : SnipeLocation :=
  {| sl_id := 6; sl_name := "Room"; sl_parent := Some (ref 5 "Floor") |}.

Definition tenant (id : Z) (name : string) (key : option Z) : Tenant :=
  {| tn_id := id; tn_name := name; tn_slug := slugify name; tn_description := "";
     tn_key := key |}.

Definition role (id : Z) (name : string) (key : option Z) : DeviceRole :=
  {| rl_id := id; rl_name := name; rl_slug := slugify name; rl_key := key |}.

Definition device_type (id : Z) (model : string) (key : option Z) : DeviceType :=
  {| dt_id := id; dt_model := model; dt_slug := slugify model; dt_part_number := "";
     dt_manufacturer := ref 1 "Dell"; dt_description := ""; dt_comments := "";
     dt_key := key |}.

(** A device of role 30, tenant 20, type 40 on site 10. *)
Definition device (id : Z) (name tag : option string) (serial : string) (key : option Z)
    : Device :=
  {| dv_id := id; dv_name := name; dv_asset_tag := tag; dv_serial := serial;
     dv_site := Some 10; dv_device_role := 30; dv_tenant := Some 20;
     dv_device_type := 40; dv_comments := ""; dv_description := "";
     dv_status := "active"; dv_key := key |}.

(** An asset of category 7, model 3 and company 1, checked out to no
    location. *)
Definition asset (id : Z) (name tag serial category : string) : SnipeAsset :=
  {| sa_id := id; sa_name := name; sa_asset_tag := tag; sa_serial := serial;
     sa_notes := None; sa_category := ref 7 category; sa_model := 3;
     sa_location := None; sa_rtd_location := None; sa_company := Some (ref 1 "Acme") |}.

Definition netbox (ts : list Tenant) (ss : list Site) (ls : list Location)
    (rs : list DeviceRole) (ds : list Device) : NetBox :=
  {| nb_tenants := ts; nb_manufacturers := []; nb_device_types := []; nb_sites := ss;
     nb_locations := ls; nb_device_roles := rs; nb_devices := ds;
     nb_next_id := 100; nb_calls := [] |}.

Definition acme : Ref := ref 1 "Acme".
Definition dell : Ref := ref 2 "Dell".

(** A source with one company, one manufacturer, one model, the
    locations HQ > Floor and one asset checked out to Floor. *)
Definition snipe : Snipe :=
  {| get_companies := [acme];
     get_manufacturers := [dell];
     get_models := [ {| sm_id := 3; sm_name := "XPS"; sm_model_number := "9310";
                        sm_notes := None; sm_manufacturer := dell |} ];
     get_locations := [hq; floor];
     get_assets := [ {| sa_id := 6; sa_name := "PC"; sa_asset_tag := "T1";
                        sa_serial := "S1"; sa_notes := None;
                        sa_category := ref 7 "Laptop"; sa_model := 3;
                        sa_location := Some (ref 5 "Floor");
                        sa_rtd_location := None; sa_company := Some acme |} ] |}.

(** An asset with neither a location nor a company. *)
Definition loose_asset : SnipeAsset :=
  {| sa_id := 6; sa_name := "PC"; sa_asset_tag := "T1"; sa_serial := "S1";
     sa_notes := None; sa_category := ref 7 "Laptop"; sa_model := 3;
     sa_location := Some (ref 5 "Floor"); sa_rtd_location := None;
     sa_company := None |}.

End Sample.

(** The keys of the snapshot that the handler of an item reads. *)
Definition item_snapshot_keys (it : Item) : list (Z * option Z) :=
  match it with
  | ItemCompany _ l _ => keys_of l
  | ItemManufacturer l _ => keys_of l
  | ItemModel l _ _ _ => keys_of l
  | ItemTopLocation l _ => keys_of l
  | ItemLocation _ _ l _ _ _ => keys_of l
  end.

(** An update payload that leaves the linkage key alone. *)
Definition plain (p : Payload) : Prop := p !! "custom_fields" = None.

(** The local list of devices still shows every key of the start. *)
Definition shows_keys (K0 : list (Z * option Z)) (devices : list Device) : Prop :=
  forall k, List.find (fun item => bool_decide (rec_key item = Some k)) devices = None ->
            ~ In (Some k) (map snd K0).

(** ** Definitions for the further properties *)

(** The characters of a slug: lower-case letters, digits, the
    underscore and the hyphen. *)
Definition slug_char (c : ascii) : bool :=
  PyStr.is_word c && negb (PyStr.is_upper c) || PyStr.is_hyphen c.

(** No two hyphens in a row. *)
Fixpoint no_double_hyphen (s : string) : bool :=
  match s with
  | String a s' =>
      match s' with
      | String b _ => negb (PyStr.is_hyphen a && PyStr.is_hyphen b) && no_double_hyphen s'
      | EmptyString => true
      end
  | EmptyString => true
  end.

(** What [strip("-_")] strips. *)
Definition is_edge (c : ascii) : bool := PyStr.is_hyphen c || (nat_of_ascii c =? 95)%nat.

(** The first and the last character of a text. *)
Definition first_char (s : string) : option ascii := head (list_ascii_of_string s).
Definition last_char (s : string) : option ascii := last (list_ascii_of_string s).

(** The name of the site that [__get_fallback_site] looks up for a
    company name: the hard mapping of the code. *)
Definition fallback_site_name (company_name : option string) : string :=
  match company_name with
  | Some company_name =>
      let company_name := PyStr.lower company_name in
      if PyStr.contains "akademie" company_name then "547 Akademie"
      else if PyStr.contains "oper" company_name || PyStr.contains "medienabt" company_name
      then "530 Verwaltung/Oper"
      else if PyStr.contains "schauspi" company_name then "529 Schauspielhaus"
      else if PyStr.contains "ballett" company_name then "551 Ballettzentrum"
      else DEFAULT_SITE_NAME
  | None => DEFAULT_SITE_NAME
  end.

(** The sites of a state that carry a given name. *)
Definition sites_named (name : string) (nb : NetBox) : list Site :=
  List.filter (fun s => String.eqb (st_name s) name) (nb_sites nb).

(** The payload of the default site. *)
Definition default_site_payload : Payload :=
  dict [("name", PStr DEFAULT_SITE_NAME);
        ("slug", PStr (slugify DEFAULT_SITE_NAME));
        ("description", PStr "Default Site for SnipeIT Import");
        ("status", PStr "active")].

(** One round of the walk of [__sync_location] from a parent that is
    linked to no site: the parent of the source location with the id of
    [p], when there is one. *)
Definition next_parent (netbox_sites : list Site) (lwp : list SnipeLocation) (p : Ref)
    : option Ref :=
  match List.find (fun item => bool_decide (rec_key item = Some (ref_id p))) netbox_sites with
  | Some _ => None
  | None =>
      match List.find (fun item => Z.eqb (sl_id item) (ref_id p)) lwp with
      | Some item => sl_parent item
      | None => None
      end
  end.

(** A set of source references that the walk cannot leave: none is
    linked to a site and each has a parent in the set. *)
Definition closed_walk (netbox_sites : list Site) (lwp : list SnipeLocation)
    (P : Ref -> Prop) : Prop :=
  forall p, P p -> exists q, next_parent netbox_sites lwp p = Some q /\ P q.

(** A source in which the locations 5 and 6 are each the parent of the
    other. *)
Definition two_cycle : list SnipeLocation :=
  [ {| sl_id := 5; sl_name := "A"; sl_parent := Some {| ref_id := 6; ref_name := "B" |} |};
    {| sl_id := 6; sl_name := "B"; sl_parent := Some {| ref_id := 5; ref_name := "A" |} |} ].

(** The parent that the walk stands on after [k] rounds from [p], when
    it has neither found a site nor reached the end of the chain. *)
Fixpoint nth_parent (netbox_sites : list Site) (lwp : list SnipeLocation) (k : nat) (p : Ref)
    : option Ref :=
  match k with
  | O => Some p
  | S k' =>
      match nth_parent netbox_sites lwp k' p with
      | Some q => next_parent netbox_sites lwp q
      | None => None
      end
  end.

(** The flag that licenses an update payload: [allow_linking] for a
    payload that stamps the linkage key, [allow_updates] for any
    other. *)
Definition licensed (self : Syncer) (p : Payload) : Prop :=
  match p !! "custom_fields" with
  | Some _ => allow_linking self = true
  | None => allow_updates self = true
  end.

(** The writes that the two flags permit: any create, any update of a
    device or of a device role, and an update of another kind all of
    whose payloads are licensed. *)
Definition permitted (self : Syncer) (c : Call) : Prop :=
  match c with
  | Create _ _ => True
  | Update X ps => X = Devices \/ X = DeviceRoles \/ Forall (licensed self) ps
  end.

(** [reach ok nb nb']: the state [nb'] comes from [nb] by creates and
    updates that all satisfy [ok]. *)
Inductive reach (ok : Call -> Prop) (nb : NetBox) : NetBox -> Prop :=
| reach_here : reach ok nb nb
| reach_create X p nb1 :
    reach ok nb nb1 -> ok (Create X p) -> reach ok nb (create_at X p nb1)
| reach_update X ps nb1 :
    reach ok nb nb1 -> ok (Update X ps) -> reach ok nb (update_at X ps nb1).

Definition reaches {A} (ok : Call -> Prop) (m : M A) : Prop :=
  forall nb, reach ok nb (snd (m nb)).

(** [ok] holds of the writes of a stage of the kind [X]: a create, or
    an update all of whose payloads are licensed. *)
Definition handler_ok (ok : Call -> Prop) (self : Syncer) (X : Endpoint) : Prop :=
  (forall p, ok (Create X p))
  /\ (forall ps, Forall (licensed self) ps -> ok (Update X ps)).

(** The kind that a call writes. *)
Definition endpoint_of (c : Call) : Endpoint :=
  match c with Create X _ | Update X _ => X end.

(** The ids of the records of a table, in the order of the table. *)
Definition table_ids (e : Endpoint) (nb : NetBox) : list Z := map fst (table_keys e nb).

(** A write that leaves every existing tenant, manufacturer, device
    type, site and location as it is. *)
Definition harmless (c : Call) : Prop :=
  match c with
  | Create _ _ => True
  | Update X ps => X = Devices \/ X = DeviceRoles \/ ps = []
  end.

(** The five tables of a state are extended, at their end, to those of
    another. *)
Definition extended (nb nb' : NetBox) : Prop :=
  nb_tenants nb `prefix_of` nb_tenants nb'
  /\ nb_manufacturers nb `prefix_of` nb_manufacturers nb'
  /\ nb_device_types nb `prefix_of` nb_device_types nb'
  /\ nb_sites nb `prefix_of` nb_sites nb'
  /\ nb_locations nb `prefix_of` nb_locations nb'.

(** No location of the target has a parent pointer. *)
Definition flat_locations (nb : NetBox) : Prop :=
  Forall (fun l => lc_parent l = None) (nb_locations nb).

(** A source location below another location that is no site of the
    target. *)
Definition nested_location (nb : NetBox) (sl : SnipeLocation) : Prop :=
  exists p, sl_parent sl = Some p
            /\ List.find (fun item => bool_decide (rec_key item = Some (ref_id p)))
                         (nb_sites nb) = None.

(** ** The client of the source system ([snipe.py])

    The HTTP session is a function from the parameters of a request to
    the JSON answer.  A row of an answer is a value of a type with a
    decidable equality, read through the fields that the code reads. *)

Module SnipeClient.

(** [Snipe.__init__]: the base url.  [url[-1]] is the last character,
    and [IndexError] on the empty string; [None] stands for it. *)
Definition last_char_str (url : string) : option string :=
  match last (list_ascii_of_string url) with
  | Some c => Some (String c EmptyString)
  | None => None
  end.

(** [url[:-1]] *)
Definition drop_last (url : string) : string :=
  String.substring 0 (String.length url - 1) url.

Definition base_url (url : string) : option string :=
  match last_char_str url with
  | None => None
  | Some c => Some ((if negb (String.eqb c " / ") then url else drop_last url) ++ "/api/v1/")
  end.

Section Rows.

Context {A : Type} `{EqDecision A}.

(** The JSON answer of a list request. *)
Record Page := { total : Z; rows : list A }.

(** [session.get(url + endpoint, params={"limit": .., "offset": ..})]
    on one endpoint, as a function of the limit and the offset. *)
Definition Session : Type := Z -> Z -> Page.

(** [math.ceil(a / b)] *)
Definition ceil_div (a b : Z) : Z := - ((- a) / b).

(** [range(lo, hi)] *)
Definition py_range (lo hi : Z) : list Z :=
  map (fun i => lo + Z.of_nat i) (seq 0 (Z.to_nat (hi - lo))).

(** [Snipe.__get_paged_items]: the pages that the generator yields, in
    order.  A page size of zero raises [ZeroDivisionError] after the
    first page; [None] stands for it. *)
Definition get_paged_items (session : Session) (pagesize : Z) : option (list Page) :=
  let response := session pagesize 0 in
  if Z.eqb pagesize 0 then None
  else
    let num_pages := ceil_div (total response) pagesize in
    Some (response
          :: map (fun page => session pagesize (page * pagesize)) (py_range 1 num_pages)).

(** [if x not in xs: xs.append(x)] *)
Definition append_new (xs : list A) (x : A) : list A :=
  if bool_decide (x ∈ xs) then xs else (xs ++ [x])%list.

(** The loop [for page in pages: for x in page["rows"]: ...] over the
    rows of all pages. *)
Definition all_rows (pages : list Page) : list A := concat (map rows pages).

End Rows.

Arguments Page A : clear implicits.
Arguments Session A : clear implicits.

(** [sorted(xs, key=...)]: ascending in the key, and stable. *)
Section Sorted.

Context {A K : Type} (key : A -> K) (leb : K -> K -> bool).

Fixpoint insert_sorted (x : A) (l : list A) : list A :=
  match l with
  | [] => [x]
  | y :: l' => if leb (key x) (key y) then x :: y :: l' else y :: insert_sorted x l'
  end.

Definition sorted (l : list A) : list A := fold_right insert_sorted [] l.

End Sorted.

(** [Snipe.__custom_fields_has_mac_type]: [custom_fields] are the
    values of the dictionary, each read through [field_format]. *)
Definition custom_fields_has_mac_type (custom_fields : list string) : bool :=
  existsb (fun field_format => String.eqb (PyStr.lower field_format) "mac") custom_fields.

(** A fieldset of the answer of [fieldsets]: its id and the formats of
    its fields, [None] for a [null] format. *)
Record Fieldset := { fs_id : Z; fs_formats : list (option string) }.

(** [Snipe.__get_fieldsets_with_mac]: the inner loop stops at the
    first field of format mac. *)
Definition get_fieldsets_with_mac (response : list Fieldset) : list Z :=
  fold_left
    (fun fieldsets_with_mac fieldset =>
       if existsb (fun format => String.eqb (PyStr.lower (PyStr.str_of format)) "mac")
                  (fs_formats fieldset)
       then (fieldsets_with_mac ++ [fs_id fieldset])%list
       else fieldsets_with_mac)
    response [].

Section Lists.

Context {A : Type} `{EqDecision A}.

(** [Snipe.get_locations] *)
Definition get_locations (name : A -> string) (session : Session A) : option (list A) :=
  match get_paged_items session 200 with
  | None => None
  | Some pages =>
      let locations := fold_left append_new (all_rows pages) [] in
      Some (sorted name String.leb locations)
  end.

(** [Snipe.get_assets_with_mac] *)
Definition get_assets_with_mac (custom_fields : A -> list string) (session : Session A)
    : option (list A) :=
  match get_paged_items session 200 with
  | None => None
  | Some pages =>
      Some (fold_left
              (fun assets asset =>
                 if custom_fields_has_mac_type (custom_fields asset)
                 then append_new assets asset
                 else assets)
              (all_rows pages) [])
  end.

(** [Snipe.get_companies] *)
Definition get_companies (response : Page A) : list A := rows response.

End Lists.

Section Models.

Context {Model Manuf : Type} `{EqDecision Model} `{EqDecision Manuf}.

(** [Snipe.get_models_and_manufacturers_with_mac]; [fieldset] is the id
    of the fieldset of a model, [None] for [null]. *)
Definition get_models_and_manufacturers_with_mac
    (fieldset : Model -> option Z) (manufacturer : Model -> Manuf)
    (model_id : Model -> Z) (manuf_id : Manuf -> Z)
    (fieldsets_response : list Fieldset) (session : Session Model)
    : option (list Manuf * list Model) :=
  let fieldsets := get_fieldsets_with_mac fieldsets_response in
  match get_paged_items session 100 with
  | None => None
  | Some pages =>
      let '(manufacturers, models) :=
        fold_left
          (fun '(manufacturers, models) model =>
             match fieldset model with
             | Some id =>
                 if bool_decide (id ∈ fieldsets)
                 then (append_new manufacturers (manufacturer model),
                       append_new models model)
                 else (manufacturers, models)
             | None => (manufacturers, models)
             end)
          (all_rows pages) ([], []) in
      Some (sorted manuf_id Z.leb manufacturers, sorted model_id Z.leb models)
  end.

End Models.

End SnipeClient.

(** A source that serves the fixed list [items] in slices. *)
Definition serves {A} (items : list A) (session : SnipeClient.Session A) : Prop :=
  forall limit offset,
    0 <= limit -> 0 <= offset ->
    session limit offset
    = {| SnipeClient.total := Z.of_nat (length items);
         SnipeClient.rows := take (Z.to_nat limit) (drop (Z.to_nat offset) items) |}.

(** Ascending in the key, neighbour by neighbour. *)
Definition ascending {A K} (key : A -> K) (leb : K -> K -> bool) (l : list A) : Prop :=
  forall i x y, l !! i = Some x -> l !! (S i) = Some y -> leb (key x) (key y) = true.

(** ** The custom field of the linkage key

    [Syncer.ensure_netbox_custom_field] works on the custom fields of
    the target, which the other stages do not touch; they are a store of
    their own, with the [get], [create] and [update] of the client. *)

Inductive CfVal :=
| CfStr (s : string)
| CfInt (z : Z)
| CfList (l : list string).

#[global] Instance CfVal_eq_dec : EqDecision CfVal.
Proof. solve_decision. Defined.

Abbreviation CfPayload := (gmap string CfVal).

Inductive CfCall :=
| CfCreate (p : CfPayload)
| CfUpdate (ps : list CfPayload).

(** A custom field is its id and its attributes. *)
Record CustomFields := {
  cf_fields : list (Z * CfPayload);
  cf_next_id : Z;
  cf_calls : list CfCall }.

Definition cf_named (name : string) (ex : CustomFields) : list (Z * CfPayload) :=
  List.filter (fun f => bool_decide (snd f !! "name" = Some (CfStr name))) (cf_fields ex).

(** [custom_fields.get(name=...)] *)
Definition custom_fields_get (name : string) (ex : CustomFields)
    : Result (option (Z * CfPayload)) :=
  match cf_named name ex with
  | [] => Ok None
  | [f] => Ok (Some f)
  | _ => Raise ValueError
  end.

(** [custom_fields.create(attributes)] *)
Definition custom_fields_create (p : CfPayload) (ex : CustomFields) : CustomFields :=
  {| cf_fields := cf_fields ex ++ [(cf_next_id ex, p)];
     cf_next_id := cf_next_id ex + 1;
     cf_calls := cf_calls ex ++ [CfCreate p] |}.

(** [custom_fields.update([...])]: the attributes of a payload, its id
    apart, overwrite those of the field with that id. *)
Definition cf_update_one (p : CfPayload) (l : list (Z * CfPayload)) : list (Z * CfPayload) :=
  map (fun f => if decide (p !! "id" = Some (CfInt (fst f)))
                then (fst f, delete "id" p ∪ snd f) else f) l.

Definition custom_fields_update (ps : list CfPayload) (ex : CustomFields) : CustomFields :=
  {| cf_fields := fold_left (fun l p => cf_update_one p l) ps (cf_fields ex);
     cf_next_id := cf_next_id ex;
     cf_calls := cf_calls ex ++ [CfUpdate ps] |}.

Definition content_types : list string :=
  ["dcim.device"; "dcim.devicetype"; "dcim.interface"; "dcim.manufacturer"; "dcim.site";
   "dcim.devicerole"; "dcim.location"; "tenancy.tenant"].

Definition cufi (lock : bool) : CfPayload :=
  list_to_map
    [("name", CfStr KEY_CUSTOM_FIELD);
     ("display", CfStr "Snipe object id");
     ("content_types", CfList content_types);
     ("description", CfStr "The ID of the original SnipeIT Object used for Sync");
     ("type", CfStr "integer");
     ("ui_visibility", CfStr (if lock then "read-only" else "read-write"))].

(** [Syncer.ensure_netbox_custom_field] *)
Definition ensure_netbox_custom_field (lock : bool) (ex : CustomFields)
    : Result unit * CustomFields :=
  match custom_fields_get KEY_CUSTOM_FIELD ex with
  | Raise e => (Raise e, ex)
  | Ok None => (Ok tt, custom_fields_create (cufi lock) ex)
  | Ok (Some field) =>
      let cufi := <["id" := CfInt (fst field)]> (cufi lock) in
      (Ok tt, custom_fields_update [cufi] ex)
  end.

(** The item with the snapshot read afresh from a state. *)
Definition item_refresh (it : Item) (nb : NetBox) : Item :=
  match it with
  | ItemCompany desc _ c => ItemCompany desc (nb_tenants nb) c
  | ItemManufacturer _ m => ItemManufacturer (nb_manufacturers nb) m
  | ItemModel _ _ manuf model =>
      ItemModel (map (join_manufacturer (nb_manufacturers nb)) (nb_device_types nb))
                (nb_manufacturers nb) manuf model
  | ItemTopLocation _ l => ItemTopLocation (nb_sites nb) l
  | ItemLocation fuel sites _ lwp site l =>
      ItemLocation fuel sites (nb_locations nb) lwp site l
  end.

Definition is_model (it : Item) : bool :=
  match it with ItemModel _ _ _ _ => true | _ => false end.

(** * Properties *)

(** ** Python string operations on examples *)

Example find_hyphen : PyStr.find "Laptop - Dell" "-" = 7.
Proof. reflexivity. Qed.

Example find_missing : PyStr.find "Laptop" "-" = -1.
Proof. reflexivity. Qed.

Example rfind_tag : PyStr.rfind "PC T1" "T1" = 3.
Proof. reflexivity. Qed.

Example strip_blank : PyStr.strip "  Laptop " = "Laptop".
Proof. reflexivity. Qed.

Example replace_imported :
  PyStr.replace "Imported from SnipeIT" "Imported" "Updated" = "Updated from SnipeIT".
Proof. reflexivity. Qed.

(** ** Calls made by a computation *)

Lemma calls_of_one {A} (m : M A) (c : Call) (nb : NetBox) :
  nb_calls (snd (m nb)) = record_call c nb -> calls_of m nb = [c].
Proof.
  intros E. unfold calls_of. rewrite E. unfold record_call.
  apply drop_app_length.
Qed.

Lemma calls_of_none {A} (m : M A) (nb : NetBox) :
  nb_calls (snd (m nb)) = nb_calls nb -> calls_of m nb = [].
Proof.
  intros E. unfold calls_of. rewrite E. apply drop_all.
Qed.

Lemma calls_of_ret {A} (a : A) (nb : NetBox) : calls_of (ret a) nb = [].
Proof. apply calls_of_none. reflexivity. Qed.

(** ** The decision table (C4) *)

Ltac table_step :=
  match goal with
  | |- context [List.find ?f ?l] => destruct (List.find f l) eqn:?
  | |- context [allow_linking ?s] => destruct (allow_linking s) eqn:?
  | |- context [allow_updates ?s] => destruct (allow_updates s) eqn:?
  | |- context [String.eqb ?a ?b] => destruct (String.eqb a b) eqn:?
  | |- context [Z.eqb ?a ?b] => destruct (Z.eqb a b) eqn:?
  end.

Ltac table_close :=
  first
    [ reflexivity
    | apply calls_of_ret
    | eexists; split; [apply calls_of_one; reflexivity | vm_compute; reflexivity]
    | eexists; eexists; split; [reflexivity |];
      split; [apply calls_of_one; reflexivity |];
      repeat split; try (vm_compute; reflexivity);
      repeat constructor; vm_compute; reflexivity ].

Lemma bind_ret {A B} (a : A) (k : A -> M B) : bind (ret a) k = k a.
Proof. reflexivity. Qed.

Ltac has_step :=
  match goal with
  | |- context [dict_has ?k ?d] =>
      let b := eval vm_compute in (dict_has k d) in
      replace (dict_has k d) with b by (vm_compute; reflexivity)
  end.

(** C4, as stated, fails.  A location that is not found is not always
    created.  The site HQ of the target is not linked (it was made by
    hand, and the stage of the sites runs without [allow_linking]); the
    target has no location at all.  The parent walk of Floor ends
    without a site, and the handler returns without a call: Floor is not
    created. *)
Lemma unowned_location_not_created :
  let self := Sample.syncer true false in
  let sites := [Sample.site 1 "HQ" None] in
  let nb := Sample.netbox [] sites [] [] [] in
  let source := [Sample.hq; Sample.floor] in
  let it := ItemLocation 3 sites [] [Sample.floor] (Sample.site 1 "HQ" None) Sample.floor in
  snd (sync_top_locations_to_sites self source nb) = nb
  /\ fst (fst (item_decision self it)) = ACreate
  /\ item_run self it nb = (Ok tt, nb)
  /\ ~ performs ACreate (item_endpoint it) (item_source_id it) (snd (fst (item_decision self it)))
         (snd (item_decision self it)) (calls_of (item_run self it) nb).
Proof.
  cbv zeta. split; [vm_compute; reflexivity |]. split; [reflexivity |].
  split; [reflexivity |].
  intros (p & H & _). vm_compute in H. discriminate H.
Qed.

(** C4, amended.  For a company, a manufacturer, a model whose
    manufacturer is found by name, a top location and a location whose
    parent walk ends at a site, the handler of the stage returns
    normally and the calls it makes are exactly those of the action that
    the decision table gives for the EntityMatcher result, the field
    diff and the two flags: NotFound creates a target stamped with the
    source id; NameMatched stamps the matched target when linking is
    allowed and makes no call otherwise; Linked makes no call on an
    empty diff, updates the matched target with every changed field (and
    without the linkage key) when updates are allowed, and makes no call
    otherwise.  A location whose parent walk ends without a site is left
    alone: the handler returns and nothing is written, whatever the
    snapshot and the flags. *)
Theorem reconcile_policy_table (self : Syncer) (it : Item) (nb : NetBox) :
  (item_resolved it ->
   fst (item_run self it nb) = Ok tt /\
   performs (fst (fst (item_decision self it))) (item_endpoint it) (item_source_id it)
            (snd (fst (item_decision self it))) (snd (item_decision self it))
            (calls_of (item_run self it) nb))
  /\ (item_unowned it -> item_run self it nb = (Ok tt, nb)).
Proof.
  split.
  - intros Hres. destruct it; simpl in *.
    + unfold sync_company, entity_match.
      repeat table_step; simpl; split; try table_close.
    + unfold sync_manufacturer, entity_match.
      repeat table_step; simpl; split; try table_close.
    + unfold sync_model, entity_match. rewrite Hres. cbv [attribute].
      repeat (table_step; rewrite ?bind_ret; cbn [negb andb orb]); simpl;
        try has_step; simpl; split; try table_close.
    + unfold sync_top_location, entity_match.
      repeat table_step; simpl; split; try table_close.
    + unfold sync_location, entity_match. rewrite Hres.
      repeat table_step; simpl; split; try table_close.
  - destruct it; cbn [item_unowned item_run]; try contradiction.
    intros E. unfold sync_location. rewrite E. reflexivity.
Qed.

Lemma reconcile_policy_table_witness :
  let self := Sample.syncer false false in
  let it := ItemLocation 2 [Sample.site 1 "HQ" (Some 4)] [] [Sample.floor]
                         (Sample.site 1 "HQ" (Some 4)) Sample.floor in
  let lost := ItemLocation 3 [Sample.site 1 "HQ" None] [] [Sample.floor]
                           (Sample.site 1 "HQ" None) Sample.floor in
  (item_resolved it
   /\ fst (item_run self it empty_netbox) = Ok tt
   /\ performs ACreate Locations 5 None [] (calls_of (item_run self it) empty_netbox))
  /\ (item_unowned lost /\ item_run self lost empty_netbox = (Ok tt, empty_netbox)).
Proof.
  cbv zeta. split.
  - split; [reflexivity |].
    exact (proj1 (reconcile_policy_table (Sample.syncer false false)
                    (ItemLocation 2 [Sample.site 1 "HQ" (Some 4)] [] [Sample.floor]
                                  (Sample.site 1 "HQ" (Some 4)) Sample.floor)
                    empty_netbox) eq_refl).
  - split; [reflexivity |].
    exact (proj2 (reconcile_policy_table (Sample.syncer false false)
                    (ItemLocation 3 [Sample.site 1 "HQ" None] [] [Sample.floor]
                                  (Sample.site 1 "HQ" None) Sample.floor)
                    empty_netbox) eq_refl).
Defined.

(** A model whose manufacturer is not found by name makes the handler
    raise before any call, whether the device type is new or linked. *)
Example sync_model_without_manufacturer_raises :
  let model := {| sm_id := 3; sm_name := "XPS"; sm_model_number := "9310";
                  sm_notes := None; sm_manufacturer := Sample.ref 2 "Dell" |} in
  sync_model (Sample.syncer true true) [] [] model empty_netbox
  = (Raise AttributeError, empty_netbox).
Proof. reflexivity. Qed.

(** ** The parent walk of a location (C5) *)

Lemma find_site_climbs sites lwp a top n :
  climbs sites lwp a top n ->
  forall fuel,
    find_site (n + S fuel) sites lwp (Some a) = find_site (S fuel) sites lwp (Some top).
Proof.
  induction 1 as [a | a item b top n Hs Hl Hp Hc IH]; intros fuel.
  - reflexivity.
  - change (S n + S fuel)%nat with (S (n + S fuel)).
    cbn [find_site]. rewrite Hs, Hl, Hp. apply IH.
Qed.

Lemma find_site_linked sites lwp top s fuel :
  List.find (fun item => bool_decide (rec_key item = Some (ref_id top))) sites = Some s ->
  find_site (S fuel) sites lwp (Some top) = Some (Some s).
Proof. intros E. cbn [find_site]. rewrite E. reflexivity. Qed.

Lemma find_site_chain_ends sites lwp top fuel :
  List.find (fun item => bool_decide (rec_key item = Some (ref_id top))) sites = None ->
  List.find (fun item => Z.eqb (sl_id item) (ref_id top)) lwp = None ->
  find_site (S (S fuel)) sites lwp (Some top) = Some None.
Proof. intros E1 E2. cbn [find_site]. rewrite E1, E2. reflexivity. Qed.

(** C5, as stated, fails.  In the source tree HQ > Floor > Room, with a
    target site linked to HQ and another linked to Floor, the walk for
    Room (depth 2 below HQ) stops at the site of Floor, while the walk
    for Floor (depth 1 below HQ) finds the site of HQ. *)
Lemma depth_invariance_counterexample :
  let sites := [Sample.site 1 "HQ" (Some 4); Sample.site 2 "Floor" (Some 5)] in
  let lwp := [Sample.floor; Sample.room] in
  leads lwp (Sample.ref 5 "Floor") (Sample.ref 4 "HQ") 1
  /\ find_site 3 sites lwp (sl_parent Sample.room)
     = Some (Some (Sample.site 2 "Floor" (Some 5)))
  /\ find_site 3 sites lwp (sl_parent Sample.floor)
     = Some (Some (Sample.site 1 "HQ" (Some 4)))
  /\ find_site 3 sites lwp (sl_parent Sample.room)
     <> find_site 3 sites lwp (sl_parent Sample.floor).
Proof.
  cbv zeta. split; [| split; [| split]].
  - eapply leads_up; [reflexivity | reflexivity | apply leads_here].
  - reflexivity.
  - reflexivity.
  - vm_compute. discriminate.
Qed.

(** C5, amended.  The walk checks the current ancestor against the
    sites and otherwise moves to the parent of that ancestor: when [n]
    parent links lead from the parent of a location up to [top] and
    none of the ancestors below [top] is linked to a site, the walk
    gives what it gives for a location whose parent is [top], for every
    [n]; it gives the site linked to [top] when there is one; and when
    [top] is linked to no site and has no parent to move to, the
    handler returns without any write. *)
Theorem owning_site_walk (self : Syncer) (sites : list Site) (locs : list Location)
    (lwp : list SnipeLocation) (deep shallow : SnipeLocation) (a top : Ref) (n fuel : nat)
    (nb : NetBox) :
  sl_parent deep = Some a ->
  sl_parent shallow = Some top ->
  climbs sites lwp a top n ->
  find_site (n + S fuel) sites lwp (sl_parent deep)
  = find_site (S fuel) sites lwp (sl_parent shallow)
  /\ (forall s,
         List.find (fun item => bool_decide (rec_key item = Some (ref_id top))) sites = Some s ->
         find_site (n + S fuel) sites lwp (sl_parent deep) = Some (Some s))
  /\ (List.find (fun item => bool_decide (rec_key item = Some (ref_id top))) sites = None ->
      List.find (fun item => Z.eqb (sl_id item) (ref_id top)) lwp = None ->
      find_site (n + S (S fuel)) sites lwp (sl_parent deep) = Some None
      /\ sync_location (n + S (S fuel)) self sites locs lwp deep nb = (Ok tt, nb)).
Proof.
  intros Hd Hs Hc. rewrite Hd, Hs. split; [| split].
  - apply find_site_climbs, Hc.
  - intros s E. rewrite (find_site_climbs _ _ _ _ _ Hc).
    apply find_site_linked, E.
  - intros E1 E2.
    assert (F : find_site (n + S (S fuel)) sites lwp (Some a) = Some None).
    { rewrite (find_site_climbs _ _ _ _ _ Hc). apply find_site_chain_ends; assumption. }
    split; [exact F |].
    unfold sync_location. rewrite Hd, F. reflexivity.
Qed.

Lemma owning_site_walk_witness :
  let sites := [Sample.site 1 "HQ" (Some 4)] in
  let lwp := [Sample.floor; Sample.room] in
  climbs sites lwp (Sample.ref 5 "Floor") (Sample.ref 4 "HQ") 1
  /\ find_site (1 + 1) sites lwp (sl_parent Sample.room)
     = find_site 1 sites lwp (sl_parent Sample.floor).
Proof.
  cbv zeta.
  assert (C : climbs [Sample.site 1 "HQ" (Some 4)] [Sample.floor; Sample.room]
                     (Sample.ref 5 "Floor") (Sample.ref 4 "HQ") 1).
  { eapply climbs_up; [reflexivity | reflexivity | reflexivity | apply climbs_here]. }
  split; [exact C |].
  exact (proj1 (owning_site_walk (Sample.syncer true true) _ [] _ Sample.room Sample.floor
                                 _ _ 1 0 empty_netbox eq_refl eq_refl C)).
Defined.

(** ** The second pass over the locations (C6) *)

Lemma fixup_body_state self locs updates sl nb :
  snd (sync_location_relationship self locs updates sl nb) = nb.
Proof.
  unfold sync_location_relationship, assert_some, subscript.
  destruct (List.find _ locs) as [loc|]; [| reflexivity].
  destruct (sl_parent sl) as [parent|]; [| reflexivity].
  rewrite !bind_ret.
  destruct (List.find _ locs) as [ploc|]; [| reflexivity].
  rewrite !bind_ret.
  destruct (lc_parent loc) as [p|]; [| reflexivity].
  rewrite !bind_ret.
  destruct (negb _); [destruct (allow_updates self) |]; reflexivity.
Qed.

Lemma fixup_fold_state self locs subs : forall updates nb,
  snd (for_fold subs updates (sync_location_relationship self locs) nb) = nb.
Proof.
  induction subs as [| sl subs IH]; intros updates nb; [reflexivity |].
  cbn [for_fold]. unfold bind at 1.
  pose proof (fixup_body_state self locs updates sl nb) as E.
  destruct (sync_location_relationship self locs updates sl nb) as [[u | e] nb'];
    simpl in E; subst nb'; [apply IH | reflexivity].
Qed.

(** The target location that the first pass has just created has no
    parent; reading the id of that parent raises before anything is
    queued, whatever the flags. *)
Example fixup_fresh_location_raises :
  let floor_loc := Sample.location 10 "Floor" 1 None (Some 5) in
  let room_loc := Sample.location 11 "Room" 1 None (Some 6) in
  let nb := Sample.netbox [] [] [floor_loc; room_loc] [] [] in
  sync_location_relationships (Sample.syncer true true) [Sample.room] nb
  = (Raise TypeError, nb).
Proof. vm_compute. reflexivity. Qed.

(** The body of the loop of the fixup stage.  For a source location with
    a parent: when the location and its parent are both found by linkage
    key in the snapshot and the target location has a parent, the stage
    queues an update that sets the pointer to the target id of the
    parent exactly when the pointer differs from that id and updates are
    allowed, and queues nothing otherwise; when either of the two is not
    found the handler raises [AssertionError]; and a stage that raises
    has written nothing. *)
Lemma fixup_body_cases (self : Syncer) (netbox_locations : list Location)
    (updates : list Payload) (snipe_location : SnipeLocation) (parent : Ref)
    (sub_locations : list SnipeLocation) (nb : NetBox) :
  sl_parent snipe_location = Some parent ->
  let present_nb_loc :=
    List.find (fun item => bool_decide (rec_key item = Some (sl_id snipe_location)))
              netbox_locations in
  let present_nb_parent_loc :=
    List.find (fun item => bool_decide (rec_key item = Some (ref_id parent)))
              netbox_locations in
  let run := sync_location_relationship self netbox_locations updates snipe_location nb in
  (forall loc ploc p,
      present_nb_loc = Some loc -> present_nb_parent_loc = Some ploc ->
      lc_parent loc = Some p ->
      let payload := dict [("id", PInt (lc_id loc)); ("parent", PInt (lc_id ploc))] in
      run = (Ok (if negb (Z.eqb p (lc_id ploc)) && allow_updates self
                 then updates ++ [payload] else updates)%list, nb)
      /\ lc_parent (rec_apply payload loc) = Some (lc_id ploc))
  /\ (present_nb_loc = None \/ present_nb_parent_loc = None ->
      run = (Raise AssertionError, nb))
  /\ (forall e,
         fst (sync_location_relationships self sub_locations nb) = Raise e ->
         snd (sync_location_relationships self sub_locations nb) = nb).
Proof.
  intros Hp. cbv zeta. unfold sync_location_relationship, assert_some, subscript.
  rewrite Hp. split; [| split].
  - intros loc ploc p E1 E2 E3. rewrite E1, !bind_ret, E2, !bind_ret, E3, !bind_ret.
    split; [| vm_compute; reflexivity].
    destruct (negb _); [destruct (allow_updates self) |]; reflexivity.
  - intros [E | E].
    + rewrite E. reflexivity.
    + destruct (List.find (fun item => bool_decide (rec_key item = Some (sl_id snipe_location)))
                          netbox_locations) as [loc|]; [| reflexivity].
      rewrite !bind_ret, E. reflexivity.
  - intros e.
    change (sync_location_relationships self sub_locations nb)
      with (match for_fold sub_locations []
                    (sync_location_relationship self (nb_locations nb)) nb with
            | (Ok u, nb') => locations_update u nb'
            | (Raise e, nb') => (Raise e, nb')
            end).
    pose proof (fixup_fold_state self (nb_locations nb) sub_locations [] nb) as E.
    destruct (for_fold _ _ _ nb) as [[u | e'] nb']; simpl in E; subst nb'.
    + simpl. discriminate.
    + reflexivity.
Qed.

(** C6.  The fixup stage on locations that the first pass created.  The
    source tree HQ > Floor > Room is imported into an empty target with
    both flags on.  The pass creates the site of HQ and the locations of
    Floor and Room, both linked and without a parent; the fixup stage
    then finds Room and Floor by their linkage keys and raises
    [TypeError] on reading the id of the parent of Room, before anything
    is queued: the pass ends there, the parent of Room is not set and
    the assets are not reached.  A second pass makes no call and raises
    at the same place. *)
Theorem fixup_raises_on_created_locations :
  let self := Sample.syncer true true in
  let source :=
    {| get_companies := []; get_manufacturers := []; get_models := [];
       get_locations := [Sample.hq; Sample.floor; Sample.room]; get_assets := [] |} in
  let pass := main 3 self (desc self) source in
  let first := pass empty_netbox in
  let second := pass (snd first) in
  fst first = Raise TypeError
  /\ map (fun s => (st_id s, st_name s, st_key s)) (nb_sites (snd first)) = [(1, "HQ", Some 4)]
  /\ map (fun l => (lc_id l, lc_name l, lc_key l, lc_parent l)) (nb_locations (snd first))
     = [(2, "Floor", Some 5, None); (3, "Room", Some 6, None)]
  /\ map (fun c => match c with Create e _ => (e, true) | Update e _ => (e, false) end)
         (calls_of pass empty_netbox)
     = [(Sites, true); (Locations, true); (Locations, true)]
  /\ fst second = Raise TypeError
  /\ calls_of pass (snd first) = []
  /\ nb_locations (snd second) = nb_locations (snd first).
Proof. vm_compute. repeat split. Qed.

(** ** Roles (C7) *)

(** C7.  The code evaluated at a category name whose first hyphen is at
    index 1: the name is not cut at the hyphen, and the role that is
    created carries the whole category name. *)
Theorem role_name_keeps_early_hyphen :
  role_name "A-B" = "A-B"
  /\ calls_of (get_role_from_category [] (Sample.asset 6 "PC" "T1" "S1" "A-B")) empty_netbox
     = [Create DeviceRoles (dict [("name", PStr "A-B"); ("slug", PStr "a-b")])].
Proof. vm_compute. split; reflexivity. Qed.

(** The name is cut at the first hyphen, and trimmed, exactly when that
    hyphen is at index 2 or later. *)
Lemma role_name_truncates (category_name : string) :
  1 < PyStr.find category_name "-" ->
  role_name category_name
  = PyStr.strip (PyStr.slice_to category_name (PyStr.find category_name "-")).
Proof.
  intros H. unfold role_name.
  destruct (Z.ltb_spec 1 (PyStr.find category_name "-")); [reflexivity | lia].
Qed.

Lemma role_name_keeps (category_name : string) :
  PyStr.find category_name "-" <= 1 -> role_name category_name = category_name.
Proof.
  intros H. unfold role_name.
  destruct (Z.ltb_spec 1 (PyStr.find category_name "-")); [lia | reflexivity].
Qed.

Example role_name_spaced_hyphen : role_name "Laptop - Dell" = "Laptop".
Proof. reflexivity. Qed.

(** The three ways a role is resolved: by linkage key, without a call;
    by name, with one update that stamps the category id; by creation,
    from a name and a slug only. *)
Lemma role_resolution (netbox_roles : list DeviceRole) (snipe_asset : SnipeAsset)
    (nb : NetBox) :
  let cat := sa_category snipe_asset in
  let run := get_role_from_category netbox_roles snipe_asset in
  match get_customfield_from_dict_list netbox_roles (ref_id cat) with
  | Some role => run nb = (Ok (netbox_roles, role), nb)
  | None =>
      match List.find (fun item => String.eqb (rl_name item) (role_name (ref_name cat)))
                      netbox_roles with
      | Some role =>
          fst (run nb) = Ok (netbox_roles, role)
          /\ calls_of run nb
             = [Update DeviceRoles [dict [("id", PInt (rl_id role));
                                          ("custom_fields", PCustom (ref_id cat))]]]
      | None =>
          exists role,
            fst (run nb) = Ok ((netbox_roles ++ [role])%list, role)
            /\ rl_name role = role_name (ref_name cat)
            /\ rl_key role = None
            /\ calls_of run nb
               = [Create DeviceRoles
                    (dict [("name", PStr (role_name (ref_name cat)));
                           ("slug", PStr (slugify (role_name (ref_name cat))))])]
      end
  end.
Proof.
  cbv zeta. unfold get_role_from_category.
  destruct (get_customfield_from_dict_list _ _) as [role|]; [reflexivity |].
  destruct (List.find _ _) as [role|].
  - split; [reflexivity | apply calls_of_one; reflexivity].
  - eexists. split; [reflexivity |]. split; [vm_compute; reflexivity |].
    split; [vm_compute; reflexivity | apply calls_of_one; reflexivity].
Qed.

(** ** Devices: the steps of an update *)

Lemma dict_merge_one (d : Payload) (k : string) (v : PyVal) :
  dict_merge d (dict [(k, v)]) = <[k := v]> d.
Proof.
  unfold dict_merge, dict. simpl. rewrite insert_empty. symmetry. apply insert_union_singleton_l.
Qed.

Lemma update_device_steps self d a role site sid tenant dt flag ds dten :
  dv_site d = Some ds -> site_id_of site = Some sid -> dv_tenant d = Some dten ->
  update_device self d a role site (Some tenant) (Some dt) flag
  = (update_dict <- name_change d a sid tenant
                      (device_changes d a role sid tenant dt ds dten flag) ;;
     send_update self d update_dict).
Proof.
  intros E1 E2 E3. unfold update_device, subscript. rewrite E1, E3.
  assert (Es : site_id site = ret sid).
  { destruct site; simpl in E2; inversion E2; reflexivity. }
  rewrite Es, !bind_ret. reflexivity.
Qed.


Lemma device_changes_custom d a role sid tenant dt ds dten flag :
  device_changes d a role sid tenant dt ds dten flag !! "custom_fields"
  = if flag then Some (PCustom (sa_id a)) else None.
Proof.
  unfold device_changes. rewrite !dict_merge_one.
  repeat match goal with |- context [if ?b then _ else _] => destruct b end;
    vm_compute; reflexivity.
Qed.

Lemma strip_tag_some n tag : exists m, strip_tag (Some n) tag = Some m.
Proof. unfold strip_tag. destruct (Z.ltb _ _); eauto. Qed.

Lemma name_change_cases d a sid tenant (u : Payload) nb :
  snd (name_change d a sid tenant u nb) = nb
  /\ (fst (name_change d a sid tenant u nb) = Raise ValueError
      \/ fst (name_change d a sid tenant u nb) = Ok u
      \/ exists v, fst (name_change d a sid tenant u nb) = Ok (<["name" := v]> u)).
Proof.
  unfold name_change.
  destruct (negb _); [| split; [reflexivity | right; left; reflexivity]].
  destruct (Nat.ltb _ _).
  - unfold devices_get, get_one, bind.
    destruct (List.filter _ _) as [| x [| y l]]; cbv beta iota delta [ret raise fst snd].
    + split; [reflexivity |]. right; right. eexists. rewrite dict_merge_one. reflexivity.
    + split; [reflexivity |]. right; right. eexists. rewrite dict_merge_one. reflexivity.
    + split; [reflexivity | left; reflexivity].
  - rewrite bind_ret, dict_merge_one. split; [reflexivity |]. right; right. eexists. reflexivity.
Qed.

Lemma name_change_empty d a sid tenant (u : Payload) :
  sa_name a = "" ->
  name_change d a sid tenant u
  = ret (match dv_name d with Some _ => <["name" := PNone]> u | None => u end).
Proof.
  intros E. unfold name_change. rewrite E. cbn [String.length Nat.ltb Nat.leb].
  destruct (dv_name d) as [n|].
  - destruct (strip_tag_some n (sa_asset_tag a)) as [m Hm]. rewrite Hm.
    cbn [negb]. rewrite bool_decide_eq_false_2 by discriminate.
    cbn [negb]. rewrite bind_ret, dict_merge_one. reflexivity.
  - reflexivity.
Qed.

Lemma send_update_run self d (u : Payload) nb :
  send_update self d u nb
  = if Z.ltb 1 (dict_len u)
    then devices_update
           [<["comments" := PStr (gen_update_comment self (dv_comments d)
                                    (Some (if dict_has "custom_fields" u
                                           then "Snipe ID" else "Values")))]> u] nb
    else (Ok tt, nb).
Proof.
  unfold send_update. destruct (Z.ltb _ _); [| reflexivity].
  rewrite dict_merge_one. reflexivity.
Qed.


Lemma update_device_raises self d a role site nb_tenant nb_dt flag nb :
  dv_site d = None \/ site_id_of site = None \/ dv_tenant d = None
  \/ nb_tenant = None \/ nb_dt = None ->
  update_device self d a role site nb_tenant nb_dt flag nb = (Raise TypeError, nb).
Proof.
  intros H. unfold update_device, subscript.
  destruct (dv_site d) as [ds|]; [| reflexivity].
  destruct site as [i | s | s]; [| | reflexivity];
    (destruct (dv_tenant d) as [dten|]; [| reflexivity];
     destruct nb_tenant as [tenant|]; [| reflexivity];
     destruct nb_dt as [dt|]; [| reflexivity];
     exfalso; simpl in H; intuition discriminate).
Qed.


(** ** Devices: creation *)

Lemma find_by_name_and_tenant_some devices name tenant :
  find_by_name_and_tenant devices name (Some tenant)
  = Ok (List.find (same_name_and_tenant name tenant) devices).
Proof.
  induction devices as [| item rest IH]; [reflexivity |].
  cbn [find_by_name_and_tenant List.find]. unfold same_name_and_tenant at 1.
  destruct (bool_decide (dv_name item = Some name)); cbn [andb]; [| exact IH].
  destruct (dv_tenant item) as [t|].
  - destruct (Z.eqb_spec t (tn_id tenant)) as [-> | Hne].
    + rewrite bool_decide_eq_true_2 by reflexivity. reflexivity.
    + rewrite bool_decide_eq_false_2 by congruence. exact IH.
  - rewrite bool_decide_eq_false_2 by discriminate. exact IH.
Qed.

Lemma find_by_name_and_tenant_raises devices name nb_tenant e :
  find_by_name_and_tenant devices name nb_tenant = Raise e -> e = TypeError.
Proof.
  induction devices as [| item rest IH]; [discriminate |].
  cbn [find_by_name_and_tenant].
  destruct (bool_decide _); [| exact IH].
  destruct (dv_tenant item); [| exact IH].
  destruct nb_tenant; [| congruence].
  destruct (Z.eqb _ _); [discriminate | exact IH].
Qed.

Lemma new_device_payload self name a role dt nb_tenant site nb :
  passed_site site ->
  exists p,
    new_device self name a role dt nb_tenant site nb = (Ok p, nb)
    /\ p !! "name" = Some (PStr name)
    /\ p !! "asset_tag" = Some (PStr (sa_asset_tag a))
    /\ p !! "tenant" = Some (tenant_value nb_tenant)
    /\ p !! "custom_fields" = Some (PCustom (sa_id a))
    /\ p !! "site" = (if site_has_id site then option_map PInt (site_id_of site) else None).
Proof.
  intros Hs. unfold new_device.
  change (match nb_tenant with Some tenant => PInt (tn_id tenant) | None => PNone end)
    with (tenant_value nb_tenant).
  destruct site as [i | s | s]; simpl in Hs; subst; cbn [site_has_id site_id site_id_of].
  - rewrite bind_ret, dict_merge_one. eexists. split; [reflexivity |].
    repeat split; vm_compute; reflexivity.
  - eexists. split; [reflexivity |]. repeat split; vm_compute; reflexivity.
  - replace (PyStr.contains "id" DEFAULT_SITE_NAME) with false by (vm_compute; reflexivity).
    eexists. split; [reflexivity |]. repeat split; vm_compute; reflexivity.
Qed.

Lemma sync_device_create_path self nb_dt nb_tenant devices role site a nb :
  passed_site site ->
  List.find (fun item => bool_decide (rec_key item = Some (sa_id a))) devices = None ->
  List.find (fun item => bool_decide (dv_asset_tag item = Some (sa_asset_tag a))) devices
  = None ->
  match find_by_name_and_tenant devices (sa_name a) nb_tenant, nb_dt with
  | Ok collision, Some dt =>
      exists p,
        let dev : Device := make_record (nb_next_id nb) p in
        sync_device self nb_dt nb_tenant devices role site a nb
        = (Ok (devices ++ [dev])%list,
           with_devices (nb_devices nb ++ [dev]) 1 (Create Devices p) nb)
        /\ p !! "name" = Some (PStr (created_name a collision))
        /\ p !! "custom_fields" = Some (PCustom (sa_id a))
        /\ p !! "site" = (if site_has_id site then option_map PInt (site_id_of site)
                          else None)
        /\ dv_id dev = nb_next_id nb
        /\ dv_name dev = Some (created_name a collision)
        /\ dv_asset_tag dev = Some (sa_asset_tag a)
        /\ dv_tenant dev = option_map tn_id nb_tenant
        /\ dv_key dev = Some (sa_id a)
        /\ dv_site dev = (if site_has_id site then site_id_of site else None)
  | _, _ => sync_device self nb_dt nb_tenant devices role site a nb = (Raise TypeError, nb)
  end.
Proof.
  intros Hs Hk Ht. unfold sync_device. rewrite Hk, Ht.
  destruct (find_by_name_and_tenant devices (sa_name a) nb_tenant) as [collision | e] eqn:En.
  - destruct nb_dt as [dt|]; [| reflexivity].
    destruct (new_device_payload self (created_name a collision) a role dt nb_tenant site nb Hs)
      as (p & Hp & Hn & Hta & Hte & Hc & Hsi).
    exists p. split.
    + cbv beta iota delta [lift subscript bind ret].
      change (match collision with
              | Some _ => sa_name a ++ " " ++ sa_asset_tag a
              | None => sa_name a
              end) with (created_name a collision).
      rewrite Hp. reflexivity.
    + repeat split; try assumption.
      * unfold make_record. cbn. unfold p_ostr. rewrite Hn. reflexivity.
      * unfold make_record. cbn. unfold p_ostr. rewrite Hta. reflexivity.
      * unfold make_record. cbn. unfold p_oint. rewrite Hte.
        destruct nb_tenant; reflexivity.
      * unfold make_record. cbn. unfold p_key. rewrite Hc. reflexivity.
      * unfold make_record. cbn. unfold p_oint. rewrite Hsi.
        destruct (site_has_id site); [destruct (site_id_of site) |]; reflexivity.
  - apply find_by_name_and_tenant_raises in En. subst e. reflexivity.
Qed.

Lemma sync_device_creates self dt tenant devices role site a nb :
  passed_site site ->
  List.find (fun item => bool_decide (rec_key item = Some (sa_id a))) devices = None ->
  List.find (fun item => bool_decide (dv_asset_tag item = Some (sa_asset_tag a))) devices
  = None ->
  let name :=
    created_name a (List.find (same_name_and_tenant (sa_name a) tenant) devices) in
  exists p,
    let dev : Device := make_record (nb_next_id nb) p in
    sync_device self (Some dt) (Some tenant) devices role site a nb
    = (Ok (devices ++ [dev])%list,
       with_devices (nb_devices nb ++ [dev]) 1 (Create Devices p) nb)
    /\ p !! "name" = Some (PStr name)
    /\ p !! "custom_fields" = Some (PCustom (sa_id a))
    /\ p !! "site" = (if site_has_id site then option_map PInt (site_id_of site) else None)
    /\ dv_id dev = nb_next_id nb
    /\ dv_name dev = Some name
    /\ dv_asset_tag dev = Some (sa_asset_tag a)
    /\ dv_tenant dev = Some (tn_id tenant)
    /\ dv_key dev = Some (sa_id a).
Proof.
  intros Hs Hk Ht.
  pose proof (sync_device_create_path self (Some dt) (Some tenant) devices role site a nb
                                      Hs Hk Ht) as H.
  rewrite find_by_name_and_tenant_some in H.
  destruct H as (p & H). exists p. cbv zeta in *. intuition.
Qed.

(** ** Device matching (C3) *)

Lemma calls_of_then_ret {A B} (m : M A) (b : B) (nb : NetBox) :
  calls_of (m ;;; ret b) nb = calls_of m nb.
Proof. unfold calls_of, bind. destruct (m nb) as [[x | e] nb']; reflexivity. Qed.

Lemma fst_then_ret {A B} (m : M A) (b : B) (nb : NetBox) :
  fst ((m ;;; ret b) nb) = match fst (m nb) with Ok _ => Ok b | Raise e => Raise e end.
Proof. unfold bind. destruct (m nb) as [[x | e] nb']; reflexivity. Qed.

Lemma find_snoc {A} (f : A -> bool) (l : list A) (x : A) :
  List.find f (l ++ [x])
  = match List.find f l with
    | Some y => Some y
    | None => if f x then Some x else None
    end.
Proof.
  induction l as [| y l IH]; [reflexivity |].
  simpl. destruct (f y); [reflexivity | exact IH].
Qed.







(** ** The update of a device with an empty source name (C9) *)

Lemma prefix_refl s : String.prefix s s = true.
Proof. induction s as [| c s IH]; [reflexivity |]. simpl. destruct (ascii_dec c c); [exact IH | congruence]. Qed.

Lemma prefix_length a b : String.prefix a b = true -> (String.length a <= String.length b)%nat.
Proof.
  revert b. induction a as [| c a IH]; intros b H; [simpl; lia |].
  destruct b as [| c' b]; [discriminate |]. simpl in H.
  destruct (ascii_dec c c'); [| discriminate]. apply IH in H. simpl. lia.
Qed.

Lemma rfind_nat_short sub s :
  (String.length s < String.length sub)%nat -> PyStr.rfind_nat sub s = None.
Proof.
  induction s as [| c s IH]; intros H.
  - simpl. destruct sub; [simpl in H; lia | reflexivity].
  - cbn [PyStr.rfind_nat]. rewrite IH by (simpl in H; lia).
    destruct (String.prefix sub (String c s)) eqn:E; [| reflexivity].
    apply prefix_length in E. lia.
Qed.

Lemma rfind_nat_app base rest sub k :
  PyStr.rfind_nat sub rest = Some k ->
  PyStr.rfind_nat sub (base ++ rest) = Some (String.length base + k)%nat.
Proof.
  intros H. induction base as [| c base IH]; [exact H |].
  change (String c base ++ rest) with (String c (base ++ rest)).
  cbn [PyStr.rfind_nat]. rewrite IH. reflexivity.
Qed.

Lemma rfind_suffix base tag :
  tag <> "" ->
  PyStr.rfind (base ++ " " ++ tag) tag = Z.of_nat (String.length base + 1).
Proof.
  intros Hne. unfold PyStr.rfind.
  assert (H1 : PyStr.rfind_nat tag (" " ++ tag) = Some 1%nat).
  { change (" " ++ tag) with (String " " tag). cbn [PyStr.rfind_nat].
    destruct tag as [| c t]; [congruence |].
    cbn [PyStr.rfind_nat]. rewrite rfind_nat_short by (simpl; lia).
    rewrite prefix_refl. reflexivity. }
  rewrite (rfind_nat_app base _ tag 1 H1). reflexivity.
Qed.

Lemma substring_app base rest : String.substring 0 (String.length base) (base ++ rest) = base.
Proof. induction base as [| c base IH]; [destruct rest; reflexivity |]. simpl. rewrite IH. reflexivity. Qed.

Lemma strip_tag_suffix base tag :
  base <> "" -> tag <> "" -> strip_tag (Some (base ++ " " ++ tag)) tag = Some base.
Proof.
  intros Hb Ht. unfold strip_tag. rewrite rfind_suffix by assumption.
  assert (0 < String.length base)%nat by (destruct base; [congruence | simpl; lia]).
  destruct (Z.ltb_spec 1 (Z.of_nat (String.length base + 1))); [| lia].
  unfold PyStr.slice_to.
  replace (Z.to_nat (Z.of_nat (String.length base + 1) - 1)) with (String.length base) by lia.
  rewrite substring_app. reflexivity.
Qed.

Example strip_tag_empty_base : strip_tag (Some (" " ++ "T1")) "T1" = Some " T1".
Proof. reflexivity. Qed.

Lemma send_update_calls self d (u : Payload) nb (b h : bool) rhs :
  Z.ltb 1 (dict_len u) = b ->
  dict_has "custom_fields" u = h ->
  (if b
   then [Update Devices
           [<["comments" := PStr (gen_update_comment self (dv_comments d)
                                    (Some (if h then "Snipe ID" else "Values")))]> u]]
   else []) = rhs ->
  calls_of (send_update self d u) nb = rhs.
Proof.
  intros Hb Hh <-. destruct b.
  - apply calls_of_one. rewrite send_update_run, Hb, Hh. reflexivity.
  - apply calls_of_none. rewrite send_update_run, Hb. reflexivity.
Qed.

Ltac payload_case :=
  match goal with
  | |- calls_of (send_update ?self ?d ?u) ?nb = ?rhs =>
      let b := eval vm_compute in (Z.ltb 1 (dict_len u)) in
      let h := eval vm_compute in (dict_has "custom_fields" u) in
      apply (send_update_calls self d u nb b h);
      [ vm_compute; reflexivity | vm_compute; reflexivity | ];
      cbv beta iota;
      try reflexivity;
      apply (f_equal (fun p => [Update Devices [p]]));
      vm_compute; reflexivity
  end.

(** C9, amended.  For an asset with an empty name that is found by
    linkage key, on a device with a site and a tenant: the run returns;
    it makes no call when none of tag, serial, site, role, tenant and
    device type differs and the device has no stored name; otherwise it
    sends one update whose payload holds the id of the device, exactly
    those of the six attributes that differ, each with the value of
    the source, the name set to [None] exactly when the device has a
    stored name, and the audit comment; the linkage key is not in it
    and the name is never set to a text.  An asset tag appended to a
    name that is not empty is cut off before the comparison. *)
Theorem empty_name_update_payload (self : Syncer) (d : Device) (a : SnipeAsset)
    (role : DeviceRole) (site : SiteArg) (sid : Z) (tenant : Tenant) (dt : DeviceType)
    (ds dten : Z) (devices : list Device) (nb : NetBox) :
  sa_name a = "" ->
  List.find (fun item => bool_decide (rec_key item = Some (sa_id a))) devices = Some d ->
  dv_site d = Some ds -> site_id_of site = Some sid -> dv_tenant d = Some dten ->
  let differing :=
    (changed_if (bool_decide (dv_asset_tag d = Some (sa_asset_tag a)))
                "asset_tag" (PStr (sa_asset_tag a))
     ++ changed_if (String.eqb (dv_serial d) (sa_serial a)) "serial" (PStr (sa_serial a))
     ++ changed_if (Z.eqb ds sid) "site" (PInt sid)
     ++ changed_if (Z.eqb (dv_device_role d) (rl_id role)) "device_role" (PInt (rl_id role))
     ++ changed_if (Z.eqb dten (tn_id tenant)) "tenant" (PInt (tn_id tenant))
     ++ changed_if (Z.eqb (dv_device_type d) (dt_id dt)) "device_type" (PInt (dt_id dt)))%list in
  let name_entry :=
    match dv_name d with Some _ => [("name", PNone)] | None => [] end in
  let run := sync_device self (Some dt) (Some tenant) devices role site a in
  fst (run nb) = Ok devices
  /\ calls_of run nb
     = match (differing ++ name_entry)%list with
       | [] => []
       | _ =>
           [Update Devices
              [dict (("id", PInt (dv_id d))
                     :: differing ++ name_entry
                     ++ [("comments",
                          PStr (gen_update_comment self (dv_comments d)
                                                   (Some "Values")))])%list]]
       end
  /\ (forall base, base <> "" -> sa_asset_tag a <> "" ->
      strip_tag (Some (base ++ " " ++ sa_asset_tag a)) (sa_asset_tag a) = Some base).
Proof.
  intros Hname Hk E1 E2 E3. cbv zeta.
  split; [| split; [| intros base Hb Ht; apply strip_tag_suffix; assumption]].
  - unfold sync_device. rewrite Hk, fst_then_ret.
    rewrite (update_device_steps self d a role site sid tenant dt false ds dten E1 E2 E3).
    rewrite name_change_empty by assumption. rewrite bind_ret, send_update_run.
    destruct (Z.ltb _ _); reflexivity.
  - unfold sync_device. rewrite Hk, calls_of_then_ret.
    rewrite (update_device_steps self d a role site sid tenant dt false ds dten E1 E2 E3).
    rewrite name_change_empty by assumption. rewrite bind_ret.
    unfold device_changes. rewrite !dict_merge_one.
    destruct (dv_name d) as [n|];
      destruct (bool_decide (dv_asset_tag d = Some (sa_asset_tag a)));
      destruct (String.eqb (dv_serial d) (sa_serial a));
      destruct (Z.eqb ds sid);
      destruct (Z.eqb (dv_device_role d) (rl_id role));
      destruct (Z.eqb dten (tn_id tenant));
      destruct (Z.eqb (dv_device_type d) (dt_id dt));
      cbn [negb changed_if app];
      payload_case.
Qed.

Lemma empty_name_update_payload_witness :
  let stored := Sample.device 50 (Some "PC") (Some "T1") "S1" (Some 6) in
  let a := Sample.asset 6 "" "T1" "S1" "Laptop" in
  sa_name a = ""
  /\ fst (sync_device (Sample.syncer true true) (Some (Sample.device_type 40 "XPS" (Some 3)))
                      (Some (Sample.tenant 20 "Acme" (Some 1))) [stored]
                      (Sample.role 30 "Laptop" None) (SiteDict 10) a empty_netbox)
     = Ok [stored].
Proof.
  cbv zeta. split; [reflexivity |].
  exact (proj1 (empty_name_update_payload
                  (Sample.syncer true true)
                  (Sample.device 50 (Some "PC") (Some "T1") "S1" (Some 6))
                  (Sample.asset 6 "" "T1" "S1" "Laptop") (Sample.role 30 "Laptop" None)
                  (SiteDict 10) 10 (Sample.tenant 20 "Acme" (Some 1))
                  (Sample.device_type 40 "XPS" (Some 3)) 10 20
                  [Sample.device 50 (Some "PC") (Some "T1") "S1" (Some 6)] empty_netbox
                  eq_refl eq_refl eq_refl eq_refl eq_refl)).
Defined.

(** C9, as stated, fails.  The asset has an empty name and is found by
    linkage key; the stored device differs from it in nothing but its
    name.  The payload sets the name, to [None], and the stored name is
    cleared. *)
Lemma empty_name_clears_stored_name :
  let self := Sample.syncer true true in
  let stored := Sample.device 50 (Some "PC") (Some "T1") "S1" (Some 6) in
  let nb := Sample.netbox [] [] [] [] [stored] in
  let a := Sample.asset 6 "" "T1" "S1" "Laptop" in
  let run :=
    sync_device self (Some (Sample.device_type 40 "XPS" (Some 3)))
                (Some (Sample.tenant 20 "Acme" (Some 1))) [stored]
                (Sample.role 30 "Laptop" None) (SiteDict 10) a in
  calls_of run nb
  = [Update Devices
       [dict [("id", PInt 50); ("name", PNone);
              ("comments", PStr (gen_update_comment self "" (Some "Values")))]]]
  /\ map dv_name (nb_devices (snd (run nb))) = [None].
Proof. vm_compute. repeat split. Qed.

(** ** The default site (C10) *)



(** ** The flags (C1) *)

(** C1.  The code evaluated with both flags off.  A device found by
    linkage key whose serial differs is updated, and the stored serial
    changes; a role found by name only is stamped with the category
    id. *)
Theorem device_and_role_writes_ignore_flags :
  let self := Sample.syncer false false in
  let stored := Sample.device 50 (Some "PC") (Some "T1") "OLD" (Some 6) in
  let nb := Sample.netbox [] [] [] [Sample.role 30 "Laptop" None] [stored] in
  let a := Sample.asset 6 "PC" "T1" "NEW" "Laptop" in
  let run :=
    sync_device self (Some (Sample.device_type 40 "XPS" (Some 3)))
                (Some (Sample.tenant 20 "Acme" (Some 1))) [stored]
                (Sample.role 30 "Laptop" None) (SiteDict 10) a in
  let link := get_role_from_category [Sample.role 30 "Laptop" None] a in
  calls_of run nb
  = [Update Devices
       [dict [("id", PInt 50); ("serial", PStr "NEW");
              ("comments", PStr (gen_update_comment self "" (Some "Values")))]]]
  /\ map dv_serial (nb_devices (snd (run nb))) = ["NEW"]
  /\ calls_of link nb
     = [Update DeviceRoles [dict [("id", PInt 30); ("custom_fields", PCustom 7)]]]
  /\ map rl_key (nb_device_roles (snd (link nb))) = [Some 7].
Proof. vm_compute. repeat split. Qed.

(** ** The full pass, twice (C2) *)

(** C2.  The pass of [main.py] run twice from an empty target on a
    source with one asset, both flags on.  The first run returns and
    leaves the role it created without a linkage key; the second run,
    with the source unchanged, finds that role by name and stamps the
    category id on it. *)
Theorem second_pass_stamps_role :
  let self := Sample.syncer true true in
  let first := main 3 self (desc self) Sample.snipe empty_netbox in
  let second := main 3 self (desc self) Sample.snipe in
  fst first = Ok tt
  /\ map rl_key (nb_device_roles (snd first)) = [None]
  /\ fst (second (snd first)) = Ok tt
  /\ calls_of second (snd first)
     = [Update Locations [];
        Update DeviceRoles [dict [("id", PInt 6); ("custom_fields", PCustom 7)]]].
Proof. vm_compute. repeat split. Qed.

(** ** Linkage keys through a pass (C8) *)

Lemma inv_init e nb : well_keyed e nb -> key_inv e (table_keys e nb) [] nb.
Proof.
  intros (Hnd & Hlt & Hu). repeat split; auto.
  intros k i j Hk Hi Hj. exfalso. apply Hk.
  apply in_map_iff. exists (i, Some k). auto.
Qed.

Lemma inv_final e K0 seen nb : unique_keys K0 -> key_inv e K0 seen nb -> well_keyed e nb.
Proof.
  intros Hu (Hnd & Hlt & H2 & H3). repeat split; auto.
  intros k i j Hi Hj.
  destruct (H2 i k Hi) as [Hi0 | [Hn _]].
  - destruct (H2 j k Hj) as [Hj0 | [Hn _]].
    + exact (Hu k i j Hi0 Hj0).
    + exfalso. apply Hn. apply in_map_iff. exists (i, Some k). auto.
  - exact (H3 k i j Hn Hi Hj).
Qed.

Lemma inv_weaken e K0 seen k nb : key_inv e K0 seen nb -> key_inv e K0 (k :: seen) nb.
Proof.
  intros (Hnd & Hlt & H2 & H3). repeat split; auto.
  intros i k' Hi. destruct (H2 i k' Hi) as [? | [? ?]]; [left | right; split]; simpl; auto.
Qed.

Lemma inv_same e K0 seen nb nb' :
  table_keys e nb' = table_keys e nb -> nb_next_id nb <= nb_next_id nb' ->
  key_inv e K0 seen nb -> key_inv e K0 seen nb'.
Proof.
  intros E Hle (Hnd & Hlt & H2 & H3). unfold key_inv. rewrite E. repeat split; auto.
  intros i key Hi. specialize (Hlt i key Hi). lia.
Qed.

Lemma inv_append e K0 seen nb nb' key :
  table_keys e nb' = (table_keys e nb ++ [(nb_next_id nb, key)])%list ->
  nb_next_id nb < nb_next_id nb' ->
  (forall k, key = Some k -> ~ In (Some k) (map snd K0) /\ In k seen
                             /\ forall i, ~ In (i, Some k) (table_keys e nb)) ->
  key_inv e K0 seen nb -> key_inv e K0 seen nb'.
Proof.
  intros E Hlt' Hkey (Hnd & Hlt & H2 & H3). unfold key_inv. rewrite E.
  split; [| split; [| split]].
  - rewrite map_app. simpl. apply NoDup_app. split; [exact Hnd |]. split.
    + intros x Hx Hx'. apply list_elem_of_In in Hx'. destruct Hx' as [<- | []].
      apply list_elem_of_In, in_map_iff in Hx. destruct Hx as ([i key'] & Hfst & Hin).
      simpl in Hfst. subst i. specialize (Hlt _ _ Hin). lia.
    + apply NoDup_singleton.
  - intros i key' Hi. apply in_app_iff in Hi. destruct Hi as [Hi | [Hi | []]].
    + specialize (Hlt i key' Hi). lia.
    + inversion Hi. subst. lia.
  - intros i k Hi. apply in_app_iff in Hi. destruct Hi as [Hi | [Hi | []]].
    + auto.
    + inversion Hi; subst. destruct (Hkey k eq_refl) as (? & ? & ?). auto.
  - intros k i j Hn Hi Hj. apply in_app_iff in Hi. apply in_app_iff in Hj.
    destruct Hi as [Hi | [Hi | []]]; destruct Hj as [Hj | [Hj | []]].
    + exact (H3 k i j Hn Hi Hj).
    + inversion Hj; subst. destruct (Hkey k eq_refl) as (_ & _ & Hno). destruct (Hno i Hi).
    + inversion Hi; subst. destruct (Hkey k eq_refl) as (_ & _ & Hno). destruct (Hno j Hj).
    + inversion Hi; inversion Hj; subst. reflexivity.
Qed.

Lemma inv_fresh_key e K0 seen nb k :
  key_inv e K0 seen nb -> ~ In k seen -> ~ In (Some k) (map snd K0) ->
  forall i, ~ In (i, Some k) (table_keys e nb).
Proof.
  intros (_ & _ & H2 & _) Hs Hn i Hi.
  destruct (H2 i k Hi) as [Hi0 | [_ Hin]]; [| auto].
  apply Hn. apply in_map_iff. exists (i, Some k). auto.
Qed.

Lemma in_stamp i k K j key :
  In (j, key) (stamp i k K) ->
  (j = i /\ key = Some k /\ exists key', In (j, key') K) \/ (j <> i /\ In (j, key) K).
Proof.
  unfold stamp. intros H. apply in_map_iff in H. destruct H as ([j' key'] & E & Hin).
  simpl in E. destruct (Z.eqb_spec j' i) as [-> | Hne]; inversion E; subst.
  - left. eauto.
  - right. auto.
Qed.

Lemma map_fst_stamp i k K : map fst (stamp i k K) = map fst K.
Proof.
  unfold stamp. rewrite map_map. apply map_ext. intros [j key]. simpl.
  destruct (Z.eqb j i); reflexivity.
Qed.

Lemma inv_stamp e K0 seen nb nb' i k :
  table_keys e nb' = stamp i k (table_keys e nb) -> nb_next_id nb <= nb_next_id nb' ->
  ~ In k seen -> ~ In (Some k) (map snd K0) ->
  key_inv e K0 seen nb -> key_inv e K0 (k :: seen) nb'.
Proof.
  intros E Hle Hs Hn Hinv.
  pose proof (inv_fresh_key e K0 seen nb k Hinv Hs Hn) as Hfresh.
  destruct Hinv as (Hnd & Hlt & H2 & H3). unfold key_inv. rewrite E.
  split; [| split; [| split]].
  - rewrite map_fst_stamp. exact Hnd.
  - intros j key Hj. apply in_stamp in Hj.
    destruct Hj as [(-> & _ & key' & Hin) | [_ Hin]]; specialize (Hlt _ _ Hin); lia.
  - intros j k' Hj. apply in_stamp in Hj.
    destruct Hj as [(-> & Hk & _) | [_ Hin]].
    + inversion Hk; subst. right. simpl. auto.
    + destruct (H2 j k' Hin) as [? | [? ?]]; [left | right; split]; simpl; auto.
  - intros k' j1 j2 Hn' H1 Hj2. apply in_stamp in H1. apply in_stamp in Hj2.
    destruct H1 as [(-> & Hk1 & _) | [Hne1 Hin1]];
      destruct Hj2 as [(-> & Hk2 & _) | [Hne2 Hin2]].
    + reflexivity.
    + inversion Hk1; subst. destruct (Hfresh _ Hin2).
    + inversion Hk2; subst. destruct (Hfresh _ Hin1).
    + exact (H3 k' j1 j2 Hn' Hin1 Hin2).
Qed.

Lemma keys_of_update_one {A} `{Target A} (p : Payload) (l : list A) :
  (forall q r, rec_id (rec_apply q r) = rec_id r) ->
  (forall q r, rec_key (rec_apply q r) = p_key q (rec_key r)) ->
  keys_of (update_one p l) = stamp_by p (keys_of l).
Proof.
  intros Hid Hkey. unfold keys_of, update_one, stamp_by, stamp. rewrite map_map.
  destruct (p !! "id") as [[| i | | | |]|] eqn:Ei;
    try (apply map_ext; intros r; rewrite decide_False by discriminate; reflexivity).
  destruct (p !! "custom_fields") as [[| | | | | k]|] eqn:Ec;
    try (apply map_ext; intros r; destruct (decide _); [| reflexivity];
         rewrite Hid, Hkey; unfold p_key; rewrite Ec; reflexivity).
  rewrite map_map. apply map_ext. intros r. simpl.
  destruct (decide (Some (PInt i) = Some (PInt (rec_id r)))) as [E | Hne].
  - inversion E; subst. rewrite Z.eqb_refl, Hid, Hkey. unfold p_key. rewrite Ec. reflexivity.
  - destruct (Z.eqb_spec (rec_id r) i) as [E | _]; [rewrite E in Hne; congruence | reflexivity].
Qed.

Lemma keys_of_update_all {A} `{Target A} (ps : list Payload) (l : list A) :
  (forall q r, rec_id (rec_apply q r) = rec_id r) ->
  (forall q r, rec_key (rec_apply q r) = p_key q (rec_key r)) ->
  keys_of (update_all ps l) = fold_left (fun K p => stamp_by p K) ps (keys_of l).
Proof.
  intros Hid Hkey. unfold update_all. revert l.
  induction ps as [| p ps IH]; intros l; [reflexivity |].
  simpl. rewrite IH, keys_of_update_one by assumption. reflexivity.
Qed.

Lemma keys_of_join ms l : keys_of (map (join_manufacturer ms) l) = keys_of l.
Proof. unfold keys_of. rewrite map_map. reflexivity. Qed.

Lemma create_at_keys X e p nb :
  table_keys e (create_at X p nb)
  = if decide (e = X)
    then (table_keys e nb ++ [(nb_next_id nb, p_key p None)])%list
    else table_keys e nb.
Proof.
  destruct X, e; simpl; try reflexivity;
    unfold keys_of; rewrite map_app; reflexivity.
Qed.

Lemma create_at_next X p nb : nb_next_id (create_at X p nb) = nb_next_id nb + 1.
Proof. destruct X; reflexivity. Qed.

Lemma update_at_keys X e ps nb :
  table_keys e (update_at X ps nb)
  = if decide (e = X)
    then fold_left (fun K p => stamp_by p K) ps (table_keys e nb)
    else table_keys e nb.
Proof.
  destruct X, e; simpl; try reflexivity;
    apply keys_of_update_all; intros; reflexivity.
Qed.

Lemma update_at_next X ps nb : nb_next_id (update_at X ps nb) = nb_next_id nb + 0.
Proof. destruct X; reflexivity. Qed.

Lemma inv_frame_create e X K0 seen p nb :
  e <> X -> key_inv e K0 seen nb -> key_inv e K0 seen (create_at X p nb).
Proof.
  intros Hne. apply inv_same.
  - rewrite create_at_keys, decide_False by assumption. reflexivity.
  - rewrite create_at_next. lia.
Qed.

Lemma inv_frame_update e X K0 seen ps nb :
  e <> X -> key_inv e K0 seen nb -> key_inv e K0 seen (update_at X ps nb).
Proof.
  intros Hne. apply inv_same.
  - rewrite update_at_keys, decide_False by assumption. reflexivity.
  - rewrite update_at_next. lia.
Qed.

Lemma inv_create_plain e X K0 seen p nb :
  p !! "custom_fields" = None ->
  key_inv e K0 seen nb -> key_inv e K0 seen (create_at X p nb).
Proof.
  intros Hp Hinv. destruct (decide (e = X)) as [-> | Hne];
    [| apply inv_frame_create; assumption].
  apply (inv_append X K0 seen nb _ None); auto.
  - rewrite create_at_keys, decide_True by reflexivity. unfold p_key. rewrite Hp. reflexivity.
  - rewrite create_at_next. lia.
  - discriminate.
Qed.

Lemma inv_create_key e X K0 seen p k nb :
  p !! "custom_fields" = Some (PCustom k) ->
  ~ In k seen -> (e = X -> ~ In (Some k) (map snd K0)) ->
  key_inv e K0 seen nb -> key_inv e K0 (k :: seen) (create_at X p nb).
Proof.
  intros Hp Hs Hn Hinv. destruct (decide (e = X)) as [-> | Hne];
    [| apply inv_frame_create; [assumption | apply inv_weaken; assumption]].
  pose proof (inv_fresh_key X K0 seen nb k Hinv Hs (Hn eq_refl)) as Hfresh.
  apply (inv_append X K0 (k :: seen) nb _ (Some k)).
  - rewrite create_at_keys, decide_True by reflexivity. unfold p_key. rewrite Hp. reflexivity.
  - rewrite create_at_next. lia.
  - intros k' E. inversion E; subst. simpl. auto.
  - apply inv_weaken. assumption.
Qed.

Lemma inv_update_plain e X K0 seen ps nb :
  Forall (fun p : Payload => p !! "custom_fields" = None) ps ->
  key_inv e K0 seen nb -> key_inv e K0 seen (update_at X ps nb).
Proof.
  intros Hps. apply inv_same.
  - rewrite update_at_keys. destruct (decide (e = X)); [| reflexivity].
    generalize (table_keys e nb). induction Hps as [| p ps Hp _ IH]; intros K; [reflexivity |].
    simpl. rewrite IH. unfold stamp_by. rewrite Hp. destruct (p !! "id") as [[]|]; reflexivity.
  - rewrite update_at_next. lia.
Qed.

Lemma inv_update_stamp e X K0 seen p k nb :
  p !! "custom_fields" = Some (PCustom k) ->
  ~ In k seen -> (e = X -> ~ In (Some k) (map snd K0)) ->
  key_inv e K0 seen nb -> key_inv e K0 (k :: seen) (update_at X [p] nb).
Proof.
  intros Hp Hs Hn Hinv. destruct (decide (e = X)) as [-> | Hne];
    [| apply inv_frame_update; [assumption | apply inv_weaken; assumption]].
  assert (Hnext : nb_next_id nb <= nb_next_id (update_at X [p] nb))
    by (rewrite update_at_next; lia).
  assert (Hk : table_keys X (update_at X [p] nb) = stamp_by p (table_keys X nb)).
  { rewrite update_at_keys, decide_True by reflexivity. reflexivity. }
  unfold stamp_by in Hk. rewrite Hp in Hk.
  destruct (p !! "id") as [[| i | | | |]|];
    try (apply inv_weaken; apply (inv_same X K0 seen nb); assumption).
  apply (inv_stamp X K0 seen nb _ i k); auto.
Qed.

Lemma find_key_none {A} `{Target A} (l : list A) (k : Z) :
  List.find (fun item => bool_decide (rec_key item = Some k)) l = None ->
  ~ In (Some k) (map snd (keys_of l)).
Proof.
  intros Hf Hin. unfold keys_of in Hin. rewrite map_map in Hin.
  apply in_map_iff in Hin. destruct Hin as (r & Hr & Hin). simpl in Hr.
  pose proof (find_none _ _ Hf r Hin) as Hb. simpl in Hb.
  rewrite bool_decide_eq_true_2 in Hb by assumption. discriminate.
Qed.

Ltac keys_leaf X :=
  lazymatch goal with
  | |- key_inv ?e ?K0 ?s (snd (?m ?nb)) =>
      lazymatch m with
      | ret _ => apply inv_weaken; assumption
      | raise _ => apply inv_weaken; assumption
      | out_of_fuel => apply inv_weaken; assumption
      | bind (raise _) _ => apply inv_weaken; assumption
      | bind (?c ?p) (fun _ => ret tt) =>
          change (key_inv e K0 s (create_at X p nb));
          apply inv_create_key;
          [ vm_compute; reflexivity | assumption | | assumption ]
      | ?u [?p] =>
          change (key_inv e K0 s (update_at X [p] nb));
          first
            [ apply inv_update_stamp;
              [ vm_compute; reflexivity | assumption | | assumption ]
            | apply inv_weaken; apply inv_update_plain;
              [ constructor; [vm_compute; reflexivity | constructor] | assumption ] ]
      end
  end.

Lemma item_keeps_keys (self : Syncer) (it : Item) (e : Endpoint)
    (K0 : list (Z * option Z)) (seen : list Z) (nb : NetBox) :
  (e = item_endpoint it -> K0 = item_snapshot_keys it) ->
  ~ In (item_source_id it) seen ->
  key_inv e K0 seen nb ->
  key_inv e K0 (item_source_id it :: seen) (snd (item_run self it nb)).
Proof.
  intros HK Hs Hinv. destruct it; simpl in *.
  - unfold sync_company.
    destruct (List.find _ netbox_tenants) as [t|] eqn:Hk.
    + repeat table_step; cbn [negb]; keys_leaf Tenants.
    + apply find_key_none in Hk.
      repeat table_step; keys_leaf Tenants; intros ->; rewrite HK by reflexivity; exact Hk.
  - unfold sync_manufacturer.
    destruct (List.find _ netbox_manufacturers) as [t|] eqn:Hk.
    + repeat table_step; cbn [negb]; keys_leaf Manufacturers.
    + apply find_key_none in Hk.
      repeat table_step; keys_leaf Manufacturers; intros ->; rewrite HK by reflexivity;
        exact Hk.
  - unfold sync_model.
    destruct (List.find (fun item => String.eqb (mf_name item) _) netbox_manufacturers)
      as [m|]; cbv [attribute];
      (destruct (List.find (fun item => bool_decide (rec_key item = Some (sm_id model)))
                           netbox_device_types) as [t|] eqn:Hk;
       [| apply find_key_none in Hk]);
      rewrite ?bind_ret;
      repeat (table_step; rewrite ?bind_ret; cbn [negb andb orb]);
      try has_step; cbv iota; try table_step;
      keys_leaf DeviceTypes; intros ->; rewrite HK by reflexivity; exact Hk.
  - unfold sync_top_location.
    destruct (List.find _ netbox_sites) as [t|] eqn:Hk.
    + repeat table_step; cbn [negb]; keys_leaf Sites.
    + apply find_key_none in Hk.
      repeat table_step; keys_leaf Sites; intros ->; rewrite HK by reflexivity; exact Hk.
  - unfold sync_location.
    destruct (find_site _ _ _ _) as [[s|]|]; [| keys_leaf Locations | keys_leaf Locations].
    destruct (List.find (fun item => bool_decide (rec_key item = Some (sl_id location)))
                        netbox_locations) as [t|] eqn:Hk.
    + repeat table_step; cbn [negb orb]; keys_leaf Locations.
    + apply find_key_none in Hk.
      repeat table_step; keys_leaf Locations; intros ->; rewrite HK by reflexivity; exact Hk.
Qed.

Lemma for_each_map {A B} (g : A -> B) (body : B -> M unit) (l : list A) :
  for_each (map g l) body = for_each l (fun x => body (g x)).
Proof. induction l as [| x l IH]; [reflexivity |]. simpl. rewrite IH. reflexivity. Qed.

Lemma well_keyed_step e nb nb' :
  well_keyed e nb ->
  (forall seen, key_inv e (table_keys e nb) seen nb ->
                exists seen', key_inv e (table_keys e nb) seen' nb') ->
  well_keyed e nb'.
Proof.
  intros Hw Hstep. destruct (Hstep [] (inv_init e nb Hw)) as [seen' Hinv].
  apply (inv_final e (table_keys e nb) seen'); [apply Hw | exact Hinv].
Qed.

Lemma items_stage (self : Syncer) (e : Endpoint) (its : list Item) (nb : NetBox) :
  NoDup (map item_source_id its) ->
  (forall it, In it its -> e = item_endpoint it -> table_keys e nb = item_snapshot_keys it) ->
  well_keyed e nb ->
  well_keyed e (snd (for_each its (item_run self) nb)).
Proof.
  intros Hnd Hsnap Hw. apply (well_keyed_step e nb); [exact Hw |]. intros seen0 Hinv0.
  clear Hinv0 seen0.
  assert (forall l seen nb1,
             (forall it, In it l -> In it its) ->
             NoDup (map item_source_id l) ->
             (forall x, In x l -> ~ In (item_source_id x) seen) ->
             key_inv e (table_keys e nb) seen nb1 ->
             exists seen', key_inv e (table_keys e nb) seen'
                                   (snd (for_each l (item_run self) nb1))) as Hgen.
  { induction l as [| x l IH]; intros seen nb1 Hsub Hnd' Hfresh Hinv.
    - exists seen. exact Hinv.
    - cbn [for_each]. unfold bind.
      assert (Hx : key_inv e (table_keys e nb) (item_source_id x :: seen)
                           (snd (item_run self x nb1))).
      { apply item_keeps_keys; [| apply Hfresh; left; reflexivity | exact Hinv].
        intros E. apply Hsnap; [apply Hsub; left; reflexivity | exact E]. }
      destruct (item_run self x nb1) as [[u | ex] nb2]; cbn [snd] in *; [| eauto].
      simpl in Hnd'. apply NoDup_cons in Hnd'. destruct Hnd' as [Hnx Hnd'].
      apply (IH (item_source_id x :: seen) nb2); auto.
      + intros it Hit. apply Hsub. right. exact Hit.
      + intros y Hy [E | Hin].
        * apply Hnx. rewrite E. apply list_elem_of_In, in_map. exact Hy.
        * exact (Hfresh y (or_intror Hy) Hin). }
  apply (Hgen its [] nb); auto. apply inv_init. exact Hw.
Qed.

Lemma stage_tenants self desc cs e nb :
  NoDup (map ref_id cs) -> well_keyed e nb ->
  well_keyed e (snd (sync_companies_to_tenants self desc cs nb)).
Proof.
  intros Hnd Hw.
  change (snd (sync_companies_to_tenants self desc cs nb))
    with (snd (for_each cs (fun c => item_run self (ItemCompany desc (nb_tenants nb) c)) nb)).
  rewrite <- (for_each_map (ItemCompany desc (nb_tenants nb)) (item_run self)).
  apply items_stage; [rewrite map_map; exact Hnd | | exact Hw].
  intros it Hit ->. apply in_map_iff in Hit. destruct Hit as (c & <- & _). reflexivity.
Qed.

Lemma stage_manufacturers self ms e nb :
  NoDup (map ref_id ms) -> well_keyed e nb ->
  well_keyed e (snd (sync_manufacturers self ms nb)).
Proof.
  intros Hnd Hw.
  change (snd (sync_manufacturers self ms nb))
    with (snd (for_each ms (fun c => item_run self (ItemManufacturer (nb_manufacturers nb) c))
                        nb)).
  rewrite <- (for_each_map (ItemManufacturer (nb_manufacturers nb)) (item_run self)).
  apply items_stage; [rewrite map_map; exact Hnd | | exact Hw].
  intros it Hit ->. apply in_map_iff in Hit. destruct Hit as (c & <- & _). reflexivity.
Qed.

Lemma stage_models self models e nb :
  NoDup (map sm_id models) -> well_keyed e nb ->
  well_keyed e (snd (sync_models_to_device_types self models nb)).
Proof.
  intros Hnd Hw.
  set (dts := map (join_manufacturer (nb_manufacturers nb)) (nb_device_types nb)).
  set (dummy := {| mf_id := 0; mf_name := ""; mf_slug := ""; mf_description := "";
                   mf_key := None |}).
  change (snd (sync_models_to_device_types self models nb))
    with (snd (for_each models
                 (fun m => item_run self (ItemModel dts (nb_manufacturers nb) dummy m)) nb)).
  rewrite <- (for_each_map (ItemModel dts (nb_manufacturers nb) dummy) (item_run self)).
  apply items_stage; [rewrite map_map; exact Hnd | | exact Hw].
  intros it Hit ->. apply in_map_iff in Hit. destruct Hit as (c & <- & _).
  simpl. unfold dts. rewrite keys_of_join. reflexivity.
Qed.

Lemma NoDup_map_filter {A} (f : A -> Z) (p : A -> bool) (l : list A) :
  NoDup (map f l) -> NoDup (map f (List.filter p l)).
Proof.
  induction l as [| x l IH]; intros H; [constructor |].
  simpl in *. apply NoDup_cons in H. destruct H as [Hx Hl].
  destruct (p x); [| auto]. simpl. apply NoDup_cons. split; [| auto].
  intros Hin. apply Hx. apply list_elem_of_In in Hin. apply list_elem_of_In.
  apply in_map_iff in Hin. destruct Hin as (y & E & Hy). apply filter_In in Hy.
  apply in_map_iff. exists y. tauto.
Qed.

Lemma stage_top_locations self locations e nb :
  NoDup (map sl_id locations) -> well_keyed e nb ->
  well_keyed e (snd (sync_top_locations_to_sites self locations nb)).
Proof.
  intros Hnd Hw.
  set (tops := List.filter (fun s => bool_decide (sl_parent s = None)) locations).
  change (snd (sync_top_locations_to_sites self locations nb))
    with (snd (for_each tops (fun c => item_run self (ItemTopLocation (nb_sites nb) c)) nb)).
  rewrite <- (for_each_map (ItemTopLocation (nb_sites nb)) (item_run self)).
  apply items_stage; [rewrite map_map; apply NoDup_map_filter; exact Hnd | | exact Hw].
  intros it Hit ->. apply in_map_iff in Hit. destruct Hit as (c & <- & _). reflexivity.
Qed.

Lemma wk_update_plain e X ps nb :
  Forall plain ps -> well_keyed e nb -> well_keyed e (update_at X ps nb).
Proof.
  intros Hps Hw. apply (well_keyed_step e nb); [exact Hw |].
  intros seen Hinv. exists seen. apply inv_update_plain; assumption.
Qed.

Lemma snd_bind_keeps {A B} (P : NetBox -> Prop) (m : M A) (k : A -> M B) (nb : NetBox) :
  P (snd (m nb)) -> (forall a nb1, P nb1 -> P (snd (k a nb1))) -> P (snd (bind m k nb)).
Proof.
  intros Hm Hk. unfold bind. destruct (m nb) as [[a | e] nb1]; cbn [snd] in *; auto.
Qed.

Lemma for_fold_state {A S} (body : S -> A -> M S) :
  (forall s x nb, snd (body s x nb) = nb) ->
  forall l s nb, snd (for_fold l s body nb) = nb.
Proof.
  intros Hb. induction l as [| x l IH]; intros s nb; [reflexivity |].
  cbn [for_fold]. unfold bind. pose proof (Hb s x nb) as E.
  destruct (body s x nb) as [[s' | e] nb']; cbn [snd] in *; subst nb'; [apply IH | reflexivity].
Qed.

Lemma fixup_updates_plain self locs subs :
  forall updates nb u,
    Forall plain updates ->
    fst (for_fold subs updates (sync_location_relationship self locs) nb) = Ok u ->
    Forall plain u.
Proof.
  induction subs as [| sl subs IH]; intros updates nb u Hp Hu.
  - simpl in Hu. inversion Hu; subst. exact Hp.
  - cbn [for_fold] in Hu. unfold bind at 1 in Hu.
    pose proof (fixup_body_state self locs updates sl nb) as Es.
    destruct (sync_location_relationship self locs updates sl nb) as [[u1 | e1] nb1] eqn:Eb;
      [| discriminate]. cbn [snd] in Es. subst nb1.
    apply (IH u1 nb u); [| exact Hu].
    clear Hu IH. unfold sync_location_relationship, assert_some, subscript in Eb.
    destruct (List.find _ locs) as [loc|]; [| discriminate].
    destruct (sl_parent sl) as [parent|]; [| discriminate].
    rewrite !bind_ret in Eb.
    destruct (List.find _ locs) as [ploc|]; [| discriminate].
    rewrite !bind_ret in Eb.
    destruct (lc_parent loc) as [p|]; [| discriminate].
    rewrite !bind_ret in Eb.
    destruct (negb _); [destruct (allow_updates self) |]; inversion Eb; subst; auto.
    apply Forall_app. split; [exact Hp |]. constructor; [vm_compute; reflexivity | constructor].
Qed.

Lemma relationships_keys self subs e nb :
  well_keyed e nb -> well_keyed e (snd (sync_location_relationships self subs nb)).
Proof.
  intros Hw.
  change (sync_location_relationships self subs nb)
    with (match for_fold subs [] (sync_location_relationship self (nb_locations nb)) nb with
          | (Ok u, nb') => locations_update u nb'
          | (Raise e, nb') => (Raise e, nb')
          end).
  pose proof (fixup_fold_state self (nb_locations nb) subs [] nb) as E.
  pose proof (fixup_updates_plain self (nb_locations nb) subs [] nb) as Hp.
  destruct (for_fold _ _ _ nb) as [[u | e'] nb']; cbn [snd] in E; subst nb'; [| exact Hw].
  change (snd (locations_update u nb)) with (update_at Locations u nb).
  apply wk_update_plain; [| exact Hw]. apply Hp; [constructor | reflexivity].
Qed.

Lemma stage_locations fuel self locations e nb :
  NoDup (map sl_id locations) -> well_keyed e nb ->
  well_keyed e (snd (sync_locations fuel self locations nb)).
Proof.
  intros Hnd Hw.
  set (lwp := List.filter (fun s => negb (bool_decide (sl_parent s = None))) locations).
  set (pick := fun (acc : list SnipeLocation) (snipe_location : SnipeLocation) =>
                 b <- lift (parent_is_no_site (nb_sites nb) snipe_location) ;;
                 ret (if b then (acc ++ [snipe_location])%list else acc)).
  set (dummy := Sample.site 0 "" None).
  change (snd (sync_locations fuel self locations nb))
    with (snd ((subs <- for_fold lwp [] pick ;;
                (for_each lwp (fun l => item_run self
                                          (ItemLocation fuel (nb_sites nb) (nb_locations nb)
                                                        lwp dummy l)) ;;;
                 sync_location_relationships self subs)) nb)).
  unfold bind at 1.
  assert (Es : snd (for_fold lwp [] pick nb) = nb).
  { apply for_fold_state. intros s x nb1. unfold pick, lift, bind.
    destruct (parent_is_no_site _ _); reflexivity. }
  destruct (for_fold lwp [] pick nb) as [[subs | e'] nb1]; cbn [snd] in Es; subst nb1;
    [| exact Hw].
  apply snd_bind_keeps.
  - rewrite <- (for_each_map (ItemLocation fuel (nb_sites nb) (nb_locations nb) lwp dummy)
                             (item_run self)).
    apply items_stage; [rewrite map_map; apply NoDup_map_filter; exact Hnd | | exact Hw].
    intros it Hit ->. apply in_map_iff in Hit. destruct Hit as (c & <- & _). reflexivity.
  - intros _ nb2 Hw2. apply relationships_keys. exact Hw2.
Qed.

Lemma get_fallback_site_state cn nb :
  snd (get_fallback_site cn nb) = nb
  \/ exists p, snd (get_fallback_site cn nb) = create_at Sites p nb /\ plain p.
Proof.
  unfold get_fallback_site, bind.
  assert (Hget : forall name, snd (sites_get name nb) = nb).
  { intros name. unfold sites_get, get_one. destruct (List.filter _ _) as [| x [| y l]]; reflexivity. }
  assert (Hcase : forall name,
             snd (let (r, nb') := sites_get name nb in
                  match r with
                  | Ok a =>
                      match a with
                      | Some s => ret s
                      | None =>
                          sites_create
                            (dict [("name", PStr DEFAULT_SITE_NAME);
                                   ("slug", PStr (slugify DEFAULT_SITE_NAME));
                                   ("description", PStr "Default Site for SnipeIT Import");
                                   ("status", PStr "active")])
                      end nb'
                  | Raise e => (Raise e, nb')
                  end) = nb
             \/ exists p,
                 snd (let (r, nb') := sites_get name nb in
                      match r with
                      | Ok a =>
                          match a with
                          | Some s => ret s
                          | None =>
                              sites_create
                                (dict [("name", PStr DEFAULT_SITE_NAME);
                                       ("slug", PStr (slugify DEFAULT_SITE_NAME));
                                       ("description", PStr "Default Site for SnipeIT Import");
                                       ("status", PStr "active")])
                          end nb'
                      | Raise e => (Raise e, nb')
                      end) = create_at Sites p nb /\ plain p).
  { intros name. pose proof (Hget name) as E.
    destruct (sites_get name nb) as [[[s|] | e] nb']; cbn [snd] in E; subst nb'.
    - left. reflexivity.
    - right. eexists. split; [reflexivity | vm_compute; reflexivity].
    - left. reflexivity. }
  destruct cn as [cn|]; [| apply Hcase].
  repeat match goal with |- context [if ?b then _ else _] => destruct b end; apply Hcase.
Qed.

Lemma asset_site_keys locs a e K0 seen nb :
  key_inv e K0 seen nb -> key_inv e K0 seen (snd (asset_site locs a nb)).
Proof.
  intros Hinv. unfold asset_site.
  destruct (asset_location locs a); [exact Hinv |].
  destruct (sa_company a) as [c|]; [| exact Hinv].
  unfold bind.
  destruct (get_fallback_site_state (Some (ref_name c)) nb) as [E | (p & E & Hp)];
    destruct (get_fallback_site (Some (ref_name c)) nb) as [[s | ex] nb1];
    cbn [snd] in *; subst nb1; try exact Hinv; apply inv_create_plain; assumption.
Qed.

Lemma role_keys roles a e K0 seen nb :
  e <> DeviceRoles ->
  key_inv e K0 seen nb -> key_inv e K0 seen (snd (get_role_from_category roles a nb)).
Proof.
  intros Hne Hinv. unfold get_role_from_category.
  destruct (get_customfield_from_dict_list _ _); [exact Hinv |].
  destruct (List.find _ _) as [r|].
  - match goal with
    | |- context [device_roles_update ?ps] =>
        change (key_inv e K0 seen (update_at DeviceRoles ps nb))
    end.
    apply inv_frame_update; assumption.
  - match goal with
    | |- context [device_roles_create ?p] =>
        change (key_inv e K0 seen (create_at DeviceRoles p nb))
    end.
    apply inv_frame_create; assumption.
Qed.

Lemma update_device_state self d a role site nb_tenant nb_dt flag nb :
  snd (update_device self d a role site nb_tenant nb_dt flag nb) = nb
  \/ exists p,
      snd (update_device self d a role site nb_tenant nb_dt flag nb)
      = update_at Devices [p] nb
      /\ p !! "custom_fields" = (if flag then Some (PCustom (sa_id a)) else None).
Proof.
  assert (Hcrash : update_device self d a role site nb_tenant nb_dt flag nb
                   = (Raise TypeError, nb) ->
                   snd (update_device self d a role site nb_tenant nb_dt flag nb) = nb
                   \/ exists p,
                       snd (update_device self d a role site nb_tenant nb_dt flag nb)
                       = update_at Devices [p] nb
                       /\ p !! "custom_fields"
                          = (if flag then Some (PCustom (sa_id a)) else None)).
  { intros E. rewrite E. left. reflexivity. }
  destruct (dv_site d) as [ds|] eqn:E1; [| apply Hcrash, update_device_raises; auto].
  destruct (site_id_of site) as [sid|] eqn:E2; [| apply Hcrash, update_device_raises; auto].
  destruct (dv_tenant d) as [dten|] eqn:E3; [| apply Hcrash, update_device_raises; auto].
  destruct nb_tenant as [tenant|]; [| apply Hcrash, update_device_raises; auto].
  destruct nb_dt as [dt|]; [| apply Hcrash, update_device_raises; auto 10].
  clear Hcrash.
  rewrite (update_device_steps self d a role site sid tenant dt flag ds dten E1 E2 E3).
  set (u := device_changes d a role sid tenant dt ds dten flag).
  assert (Hcf : u !! "custom_fields" = if flag then Some (PCustom (sa_id a)) else None)
    by apply device_changes_custom.
  destruct (name_change_cases d a sid tenant u nb) as [Hs Hr].
  unfold bind.
  destruct (name_change d a sid tenant u nb) as [[u' | e] nb'] eqn:En;
    cbn [snd fst] in *; subst nb'; [| left; reflexivity].
  assert (Hcf' : u' !! "custom_fields" = if flag then Some (PCustom (sa_id a)) else None).
  { destruct Hr as [Hr | [Hr | [v Hr]]]; [discriminate | |]; inversion Hr; subst u'.
    - exact Hcf.
    - rewrite lookup_insert_ne by discriminate. exact Hcf. }
  rewrite send_update_run. destruct (Z.ltb _ _); [| left; reflexivity].
  right. eexists. split; [reflexivity |].
  rewrite lookup_insert_ne by discriminate. exact Hcf'.
Qed.

Lemma new_device_cases self name a role dt nb_tenant site nb :
  new_device self name a role dt nb_tenant site nb = (Raise TypeError, nb)
  \/ exists p, new_device self name a role dt nb_tenant site nb = (Ok p, nb)
               /\ p !! "custom_fields" = Some (PCustom (sa_id a)).
Proof.
  unfold new_device. destruct (site_has_id site).
  - destruct site as [i | s | s]; cbn [site_id].
    + right. rewrite bind_ret, dict_merge_one. eexists. split; [reflexivity |].
      vm_compute. reflexivity.
    + right. rewrite bind_ret, dict_merge_one. eexists. split; [reflexivity |].
      vm_compute. reflexivity.
    + left. reflexivity.
  - right. eexists. split; [reflexivity | vm_compute; reflexivity].
Qed.

Lemma sync_device_keys self nb_dt nb_tenant devices role site a e K0 seen nb :
  (e = Devices -> shows_keys K0 devices) ->
  ~ In (sa_id a) seen ->
  key_inv e K0 seen nb ->
  key_inv e K0 (sa_id a :: seen)
          (snd (sync_device self nb_dt nb_tenant devices role site a nb))
  /\ (forall devices',
         fst (sync_device self nb_dt nb_tenant devices role site a nb) = Ok devices' ->
         (e = Devices -> shows_keys K0 devices')).
Proof.
  intros HL Hs Hinv. unfold sync_device.
  destruct (List.find (fun item => bool_decide (rec_key item = Some (sa_id a))) devices)
    as [d|] eqn:Hk.
  { split.
    - unfold bind.
      destruct (update_device_state self d a role site nb_tenant nb_dt false nb)
        as [E | (p & E & Hp)];
        destruct (update_device self d a role site nb_tenant nb_dt false nb)
          as [[[] | ex] nb1]; cbn [snd] in *; subst nb1;
        apply inv_weaken; try exact Hinv;
        (apply inv_update_plain; [constructor; [exact Hp | constructor] | exact Hinv]).
    - intros devices' E. unfold bind in E.
      destruct (update_device self d a role site nb_tenant nb_dt false nb)
        as [[[] | ex] nb1]; inversion E; subst. exact HL. }
  assert (Hfresh : e = Devices -> ~ In (Some (sa_id a)) (map snd K0))
    by (intros E; exact (HL E _ Hk)).
  destruct (List.find (fun item => bool_decide (dv_asset_tag item = Some (sa_asset_tag a)))
                      devices) as [d|] eqn:Ht.
  { split.
    - unfold bind.
      destruct (update_device_state self d a role site nb_tenant nb_dt true nb)
        as [E | (p & E & Hp)];
        destruct (update_device self d a role site nb_tenant nb_dt true nb)
          as [[[] | ex] nb1]; cbn [snd] in *; subst nb1;
        try (apply inv_weaken; exact Hinv);
        apply inv_update_stamp; assumption.
    - intros devices' E. unfold bind in E.
      destruct (update_device self d a role site nb_tenant nb_dt true nb)
        as [[[] | ex] nb1]; inversion E; subst. exact HL. }
  unfold lift, subscript, bind.
  destruct (find_by_name_and_tenant devices (sa_name a) nb_tenant) as [collision | ex];
    [| split; [apply inv_weaken; exact Hinv | discriminate]].
  destruct nb_dt as [dt|]; [| split; [apply inv_weaken; exact Hinv | discriminate]].
  cbv beta iota delta [ret].
  match goal with
  | |- context [new_device self ?n a role dt nb_tenant site nb] =>
      destruct (new_device_cases self n a role dt nb_tenant site nb)
        as [E | (p & E & Hp)]; rewrite E
  end; cbv beta iota; [split; [apply inv_weaken; exact Hinv | discriminate] |].
  split.
  - change (key_inv e K0 (sa_id a :: seen) (create_at Devices p nb)).
    apply inv_create_key; assumption.
  - intros devices' E' HeD k Hfind. cbn [fst devices_create] in E'.
    injection E' as <-. rewrite find_snoc in Hfind.
    destruct (List.find (fun item => bool_decide (rec_key item = Some k)) devices) eqn:Hf;
      [discriminate |].
    exact (HL HeD k Hf).
Qed.

Lemma update_at_plain_keys e X ps nb :
  Forall plain ps -> table_keys e (update_at X ps nb) = table_keys e nb.
Proof.
  intros Hps. rewrite update_at_keys. destruct (base.decide (e = X)); [| reflexivity].
  generalize (table_keys e nb). induction Hps as [| p ps Hp _ IH]; intros K; [reflexivity |].
  simpl. rewrite IH. unfold stamp_by. unfold plain in Hp. rewrite Hp.
  destruct (p !! "id") as [[]|]; reflexivity.
Qed.

Lemma find_key_some {A} `{Target A} (l : list A) (k : Z) :
  In (Some k) (map snd (keys_of l)) ->
  exists t, List.find (fun item => bool_decide (rec_key item = Some k)) l = Some t.
Proof.
  intros Hin.
  destruct (List.find (fun item => bool_decide (rec_key item = Some k)) l) as [t|] eqn:Hf;
    [eauto |].
  apply find_key_none in Hf. contradiction.
Qed.

Ltac linked_leaf X :=
  lazymatch goal with
  | |- table_keys ?e (snd (?m ?nb)) = table_keys ?e ?nb =>
      lazymatch m with
      | ret _ => reflexivity
      | raise _ => reflexivity
      | out_of_fuel => reflexivity
      | bind (raise _) _ => reflexivity
      | ?u [?p] =>
          change (table_keys e (update_at X [p] nb) = table_keys e nb);
          apply update_at_plain_keys;
          constructor; [vm_compute; reflexivity | constructor]
      end
  end.

Lemma item_linked_keeps_keys (self : Syncer) (it : Item) (e : Endpoint) (nb : NetBox) :
  In (Some (item_source_id it)) (map snd (item_snapshot_keys it)) ->
  table_keys e (snd (item_run self it nb)) = table_keys e nb.
Proof.
  intros Hin. destruct it; simpl in *; apply find_key_some in Hin; destruct Hin as [t Hk].
  - unfold sync_company. rewrite Hk.
    repeat table_step; cbn [negb]; linked_leaf Tenants.
  - unfold sync_manufacturer. rewrite Hk.
    repeat table_step; cbn [negb]; linked_leaf Manufacturers.
  - unfold sync_model. rewrite Hk.
    destruct (List.find (fun item => String.eqb (mf_name item) _) netbox_manufacturers)
      as [m|]; cbv [attribute]; rewrite ?bind_ret;
      repeat (table_step; rewrite ?bind_ret; cbn [negb andb orb]);
      try has_step; cbv iota; try table_step; linked_leaf DeviceTypes.
  - unfold sync_top_location. rewrite Hk.
    repeat table_step; cbn [negb]; linked_leaf Sites.
  - unfold sync_location.
    destruct (find_site _ _ _ _) as [[s|]|]; [| linked_leaf Locations | linked_leaf Locations].
    rewrite Hk. repeat table_step; cbn [negb orb]; linked_leaf Locations.
Qed.

Lemma device_linked_keeps_keys self nb_dt nb_tenant devices role site a d e nb :
  List.find (fun item => bool_decide (rec_key item = Some (sa_id a))) devices = Some d ->
  table_keys e (snd (sync_device self nb_dt nb_tenant devices role site a nb))
  = table_keys e nb.
Proof.
  intros Hk. unfold sync_device. rewrite Hk. unfold bind.
  destruct (update_device_state self d a role site nb_tenant nb_dt false nb)
    as [E | (p & E & Hp)];
    destruct (update_device self d a role site nb_tenant nb_dt false nb)
      as [[[] | ex] nb1]; cbn [snd] in *; subst nb1; try reflexivity;
    apply update_at_plain_keys; repeat constructor; exact Hp.
Qed.

Lemma sync_asset_keys self ts ls dts st a e K0 seen nb :
  e <> DeviceRoles ->
  (e = Devices -> shows_keys K0 (snd st)) ->
  ~ In (sa_id a) seen ->
  key_inv e K0 seen nb ->
  key_inv e K0 (sa_id a :: seen) (snd (sync_asset self ts ls dts st a nb))
  /\ (forall st', fst (sync_asset self ts ls dts st a nb) = Ok st' ->
                  (e = Devices -> shows_keys K0 (snd st'))).
Proof.
  intros Hne HL Hs Hinv. unfold sync_asset. unfold bind.
  pose proof (asset_site_keys ls a e K0 seen nb Hinv) as H1.
  destruct (asset_site ls a nb) as [[site | ex] nb1]; cbn [snd] in H1;
    [| split; [apply inv_weaken; exact H1 | discriminate]].
  pose proof (role_keys (fst st) a e K0 seen nb1 Hne H1) as H2.
  destruct (get_role_from_category (fst st) a nb1) as [[rr | ex] nb2]; cbn [snd] in H2;
    [| split; [apply inv_weaken; exact H2 | discriminate]].
  match goal with
  | |- context [sync_device self ?dt ?tn (snd st) (snd rr) site a nb2] =>
      destruct (sync_device_keys self dt tn (snd st) (snd rr) site a e K0 seen nb2
                                 HL Hs H2) as [H3 H4];
      destruct (sync_device self dt tn (snd st) (snd rr) site a nb2)
        as [[devices' | ex] nb3]
  end; cbn [snd fst] in *.
  - split; [exact H3 |]. intros st' E. injection E as <-. exact (H4 devices' eq_refl).
  - split; [exact H3 | discriminate].
Qed.

Lemma sync_assets_fold self ts ls dts e K0 :
  e <> DeviceRoles ->
  forall assets st seen nb,
    (e = Devices -> shows_keys K0 (snd st)) ->
    NoDup (map sa_id assets) ->
    (forall x, In x assets -> ~ In (sa_id x) seen) ->
    key_inv e K0 seen nb ->
    exists seen',
      key_inv e K0 seen' (snd (for_fold assets st (sync_asset self ts ls dts) nb)).
Proof.
  intros Hne. induction assets as [| a assets IH]; intros st seen nb HL Hnd Hfresh Hinv.
  - exists seen. exact Hinv.
  - cbn [for_fold]. unfold bind.
    destruct (sync_asset_keys self ts ls dts st a e K0 seen nb Hne HL
                (Hfresh a (or_introl eq_refl)) Hinv) as [H1 H2].
    destruct (sync_asset self ts ls dts st a nb) as [[st' | ex] nb1]; cbn [snd fst] in *;
      [| eauto].
    simpl in Hnd. apply NoDup_cons in Hnd. destruct Hnd as [Hnx Hnd].
    apply (IH st' (sa_id a :: seen) nb1); auto.
    intros y Hy [E | Hin].
    + apply Hnx. rewrite E. apply list_elem_of_In, in_map. exact Hy.
    + exact (Hfresh y (or_intror Hy) Hin).
Qed.

Lemma stage_devices self assets e nb :
  e <> DeviceRoles -> NoDup (map sa_id assets) -> well_keyed e nb ->
  well_keyed e (snd (sync_assets_to_devices self assets nb)).
Proof.
  intros Hne Hnd Hw.
  set (dts := map (join_manufacturer (nb_manufacturers nb)) (nb_device_types nb)).
  assert (E : snd (sync_assets_to_devices self assets nb)
              = snd (for_fold assets (nb_device_roles nb, nb_devices nb)
                              (sync_asset self (nb_tenants nb) (nb_locations nb) dts) nb)).
  { unfold sync_assets_to_devices, devices_all, tenants_all, locations_all,
      device_roles_all, device_types_all, bind. cbv beta iota. fold dts.
    destruct (for_fold _ _ _ nb) as [[st | ex] nb1]; reflexivity. }
  rewrite E. apply (well_keyed_step e nb); [exact Hw |]. intros seen0 _.
  apply (sync_assets_fold self _ _ _ e (table_keys e nb) Hne assets _ [] nb); auto.
  - intros -> k Hf. apply find_key_none in Hf. exact Hf.
  - apply inv_init. exact Hw.
Qed.

Lemma well_keyed_count e nb k :
  well_keyed e nb ->
  (length (List.filter (fun x => bool_decide (snd x = Some k)) (table_keys e nb)) <= 1)%nat.
Proof.
  intros (Hnd & _ & Hu). revert Hnd Hu. generalize (table_keys e nb). intros K.
  induction K as [| [i key] K IH]; intros Hnd Hu; [simpl; lia |].
  simpl in Hnd. apply NoDup_cons in Hnd. destruct Hnd as [Hi Hnd].
  assert (IHK : (length (List.filter (fun x => bool_decide (snd x = Some k)) K) <= 1)%nat).
  { apply IH; [exact Hnd |]. intros k' a b Ha Hb. apply (Hu k'); right; assumption. }
  cbn [List.filter snd]. destruct (bool_decide_reflect (key = Some k)) as [-> | _]; [| exact IHK].
  assert (Hnil : List.filter (fun x => bool_decide (snd x = Some k)) K = []).
  { destruct (List.filter _ K) as [| [j key'] rest] eqn:Ef; [reflexivity |].
    exfalso. assert (Hin : In (j, key') (List.filter (fun x => bool_decide (snd x = Some k)) K))
      by (rewrite Ef; left; reflexivity).
    apply filter_In in Hin. destruct Hin as [Hin Hb]. simpl in Hb.
    apply bool_decide_eq_true_1 in Hb. subst key'.
    assert (i = j) by (apply (Hu k); [left; reflexivity | right; exact Hin]). subst j.
    apply Hi. apply list_elem_of_In. apply in_map_iff. exists (i, Some k). auto. }
  rewrite Hnil. simpl. lia.
Qed.

(** C8, as stated, fails.  A target device carries the linkage key 9
    and the asset tag of the source asset 6.  No device carries the key
    6, so the asset is matched by its tag and the update stamps 6 over
    the 9. *)
Lemma stamped_key_overwritten :
  let self := Sample.syncer false false in
  let stored := Sample.device 50 (Some "PC") (Some "T1") "S1" (Some 9) in
  let nb := Sample.netbox [] [] [] [] [stored] in
  let run :=
    sync_device self (Some (Sample.device_type 40 "XPS" (Some 3)))
                (Some (Sample.tenant 20 "Acme" (Some 1))) [stored]
                (Sample.role 30 "Laptop" None) (SiteDict 10)
                (Sample.asset 6 "PC" "T1" "S1" "Laptop") in
  map dv_key (nb_devices nb) = [Some 9]
  /\ calls_of run nb
     = [Update Devices
          [dict [("id", PInt 50); ("custom_fields", PCustom 6);
                 ("comments", PStr (gen_update_comment self "" (Some "Snipe ID")))]]]
  /\ map dv_key (nb_devices (snd (run nb))) = [Some 6].
Proof. vm_compute. repeat split. Qed.

(** C8, amended.  Take a pass on a source whose companies,
    manufacturers, models, locations and assets have pairwise distinct
    ids, and a kind of target other than device role whose records,
    before the pass, have distinct ids below the id counter and carry
    each linkage key at most once.  After the pass, whether it returns
    or raises, the same holds: at most one record of the kind carries
    any given linkage key.  A source record that is found by its
    linkage key leaves every linkage key as it is; this holds for the
    handler of each kind and for a device.  (A record found by name or
    by asset tag is stamped whatever key it carried.) *)
Theorem linkage_keys_stay_unique (fuel : nat) (self : Syncer) (tenant_desc : string)
    (snipe : Snipe) (e : Endpoint) (nb : NetBox) :
  e <> DeviceRoles ->
  NoDup (map ref_id (get_companies snipe)) ->
  NoDup (map ref_id (get_manufacturers snipe)) ->
  NoDup (map sm_id (get_models snipe)) ->
  NoDup (map sl_id (get_locations snipe)) ->
  NoDup (map sa_id (get_assets snipe)) ->
  well_keyed e nb ->
  let nb' := snd (main fuel self tenant_desc snipe nb) in
  well_keyed e nb'
  /\ (forall k,
        (length (List.filter (fun x => bool_decide (snd x = Some k)) (table_keys e nb')) <= 1)%nat)
  /\ (forall it e' nb1,
        In (Some (item_source_id it)) (map snd (item_snapshot_keys it)) ->
        table_keys e' (snd (item_run self it nb1)) = table_keys e' nb1)
  /\ (forall nb_dt nb_tenant devices role site a d e' nb1,
        List.find (fun item => bool_decide (rec_key item = Some (sa_id a))) devices = Some d ->
        table_keys e' (snd (sync_device self nb_dt nb_tenant devices role site a nb1))
        = table_keys e' nb1).
Proof.
  intros Hne Hc Hm Hmo Hl Ha Hw. cbv zeta.
  assert (H : well_keyed e (snd (main fuel self tenant_desc snipe nb))).
  { unfold main.
    apply snd_bind_keeps; [apply stage_tenants; assumption |]. intros _ nb1 H1.
    apply snd_bind_keeps; [apply stage_manufacturers; assumption |]. intros _ nb2 H2.
    apply snd_bind_keeps; [apply stage_models; assumption |]. intros _ nb3 H3.
    apply snd_bind_keeps; [apply stage_top_locations; assumption |]. intros _ nb4 H4.
    apply snd_bind_keeps; [apply stage_locations; assumption |]. intros _ nb5 H5.
    apply stage_devices; assumption. }
  split; [exact H |]. split; [intros k; apply well_keyed_count; exact H |].
  split.
  - intros it e' nb1. apply item_linked_keeps_keys.
  - intros nb_dt nb_tenant devices role site a d e' nb1.
    apply device_linked_keeps_keys.
Qed.

Lemma linkage_keys_stay_unique_witness :
  (Devices <> DeviceRoles
   /\ NoDup (map sa_id (get_assets Sample.snipe))
   /\ well_keyed Devices empty_netbox)
  /\ well_keyed Devices
       (snd (main 3 (Sample.syncer true true) "Imported from SnipeIT" Sample.snipe
                  empty_netbox)).
Proof.
  assert (H1 : Devices <> DeviceRoles) by discriminate.
  assert (N1 : forall z : Z, NoDup [z])
    by (intros z; apply NoDup_singleton).
  assert (N2 : NoDup (map sl_id (get_locations Sample.snipe))).
  { apply NoDup_cons. split; [| apply NoDup_singleton].
    intros Hin. apply list_elem_of_In in Hin. simpl in Hin.
    destruct Hin as [Hin | []]. discriminate Hin. }
  assert (W : well_keyed Devices empty_netbox).
  { split; [apply NoDup_nil; exact I | split].
    - intros i key Hin. destruct Hin.
    - intros k i j Hin. destruct Hin. }
  split; [repeat split; [exact H1 | apply N1 | apply W..] |].
  exact (proj1 (linkage_keys_stay_unique 3 (Sample.syncer true true) "Imported from SnipeIT"
                  Sample.snipe Devices empty_netbox H1 (N1 _) (N1 _) (N1 _) N2 (N1 _) W)).
Defined.

(** * Further properties of the code *)

(** ** Slugs *)

Lemma chars_filter p s :
  list_ascii_of_string (PyStr.filter p s) = List.filter p (list_ascii_of_string s).
Proof. unfold PyStr.filter. apply list_ascii_of_string_of_list_ascii. Qed.

Lemma chars_lower s :
  list_ascii_of_string (PyStr.lower s) = map PyStr.lower_ascii (list_ascii_of_string s).
Proof. induction s as [| c s IH]; simpl; [reflexivity | f_equal; exact IH]. Qed.

Lemma lower_ascii_not_upper c :
  PyStr.is_ascii c = true -> PyStr.is_upper (PyStr.lower_ascii c) = false.
Proof.
  destruct c as [[] [] [] [] [] [] [] []]; vm_compute; congruence.
Qed.

Lemma Forall_lstrip (P : ascii -> Prop) p s :
  Forall P (list_ascii_of_string s) -> Forall P (list_ascii_of_string (PyStr.lstrip_with p s)).
Proof.
  induction s as [| c s IH]; simpl; intros H; [exact H |].
  destruct (p c); [apply IH; inversion H; assumption | exact H].
Qed.

Lemma Forall_rstrip (P : ascii -> Prop) p s :
  Forall P (list_ascii_of_string s) -> Forall P (list_ascii_of_string (PyStr.rstrip_with p s)).
Proof.
  induction s as [| c s IH]; simpl; intros H; [exact H |].
  inversion H as [| ? ? Hc Hs]; subst. specialize (IH Hs).
  destruct (PyStr.rstrip_with p s) as [| c' r].
  - destruct (p c); simpl; constructor; [exact Hc | constructor].
  - simpl. constructor; [exact Hc | exact IH].
Qed.

Lemma Forall_collapse (P : ascii -> Prop) s b :
  P "-"%char ->
  Forall (fun c => PyStr.is_hyphen c || PyStr.is_space c = false -> P c)
         (list_ascii_of_string s) ->
  Forall P (list_ascii_of_string (PyStr.collapse_runs s b)).
Proof.
  intros Hh. revert b. induction s as [| c s IH]; simpl; intros b H; [constructor |].
  inversion H as [| ? ? Hc Hs]; subst.
  destruct (PyStr.is_hyphen c || PyStr.is_space c) eqn:E.
  - destruct b; simpl; [apply IH; exact Hs | constructor; [exact Hh | apply IH; exact Hs]].
  - simpl. constructor; [apply Hc; reflexivity | apply IH; exact Hs].
Qed.

Lemma slug_char_kept c :
  PyStr.is_ascii c = true ->
  PyStr.is_word (PyStr.lower_ascii c) || PyStr.is_space (PyStr.lower_ascii c)
  || PyStr.is_hyphen (PyStr.lower_ascii c) = true ->
  PyStr.is_hyphen (PyStr.lower_ascii c) || PyStr.is_space (PyStr.lower_ascii c) = false ->
  slug_char (PyStr.lower_ascii c) = true.
Proof.
  intros Ha Hk Hn. unfold slug_char. rewrite (lower_ascii_not_upper c Ha).
  apply orb_false_elim in Hn as [Hh Hs]. rewrite Hh, Hs in *.
  rewrite !orb_false_r in Hk. rewrite Hk. reflexivity.
Qed.

Lemma slugify_alphabet_chars (value : string) :
  Forall (fun c => slug_char c = true) (list_ascii_of_string (slugify value)).
Proof.
  unfold slugify, PyStr.strip_with.
  apply Forall_rstrip, Forall_lstrip, Forall_collapse; [reflexivity |].
  rewrite chars_filter, chars_lower, chars_filter.
  apply Stdlib.Lists.List.Forall_forall. intros c Hin Hn.
  apply filter_In in Hin as [Hin Hk].
  apply in_map_iff in Hin as (c0 & <- & Hin0).
  apply filter_In in Hin0 as [_ Ha].
  apply slug_char_kept; assumption.
Qed.

Lemma is_hyphen_eq c : PyStr.is_hyphen c = true -> c = "-"%char.
Proof.
  unfold PyStr.is_hyphen. intros H. apply Nat.eqb_eq in H.
  rewrite <- (ascii_nat_embedding c), H. reflexivity.
Qed.

Lemma rstrip_head p s c r :
  PyStr.rstrip_with p s = String c r -> exists s', s = String c s'.
Proof.
  destruct s as [| c0 s']; simpl; [discriminate |].
  destruct (PyStr.rstrip_with p s'); [destruct (p c0) |]; intros E; inversion E; eauto.
Qed.

Lemma lstrip_head p s c r : PyStr.lstrip_with p s = String c r -> p c = false.
Proof.
  induction s as [| c0 s IH]; simpl; [discriminate |].
  destruct (p c0) eqn:E; [exact IH |]. intros H. inversion H; subst. exact E.
Qed.

Lemma rstrip_last p s c : last_char (PyStr.rstrip_with p s) = Some c -> p c = false.
Proof.
  unfold last_char. induction s as [| c0 s IH]; simpl; [discriminate |].
  destruct (PyStr.rstrip_with p s) as [| c1 r] eqn:E.
  - destruct (p c0) eqn:Ep; simpl; [discriminate |]. intros H. inversion H; subst. exact Ep.
  - simpl. simpl in IH. exact IH.
Qed.

Lemma strip_first p s c : first_char (PyStr.strip_with p s) = Some c -> p c = false.
Proof.
  unfold first_char, PyStr.strip_with.
  destruct (PyStr.rstrip_with p (PyStr.lstrip_with p s)) as [| c0 r] eqn:E; simpl; [discriminate |].
  intros H. inversion H; subst.
  apply rstrip_head in E as [s' E]. exact (lstrip_head _ _ _ _ E).
Qed.

Lemma no_double_tail c s : no_double_hyphen (String c s) = true -> no_double_hyphen s = true.
Proof.
  simpl. destruct s; [reflexivity |]. intros H. apply andb_prop in H as [_ H]. exact H.
Qed.

Lemma no_double_lstrip p s :
  no_double_hyphen s = true -> no_double_hyphen (PyStr.lstrip_with p s) = true.
Proof.
  induction s as [| c s IH]; [reflexivity |]. intros H. simpl PyStr.lstrip_with.
  destruct (p c); [apply IH, (no_double_tail c), H | exact H].
Qed.

Lemma no_double_rstrip p s :
  no_double_hyphen s = true -> no_double_hyphen (PyStr.rstrip_with p s) = true.
Proof.
  induction s as [| c s IH]; [reflexivity |]. intros H. simpl PyStr.rstrip_with.
  specialize (IH (no_double_tail c s H)).
  destruct (PyStr.rstrip_with p s) as [| c1 r] eqn:E.
  - destruct (p c); reflexivity.
  - apply rstrip_head in E as [s' ->].
    change (negb (PyStr.is_hyphen c && PyStr.is_hyphen c1) && no_double_hyphen (String c1 r) = true).
    rewrite IH, andb_true_r.
    simpl in H. apply andb_prop in H as [H _]. exact H.
Qed.

Lemma collapse_shape s b :
  no_double_hyphen (PyStr.collapse_runs s b) = true
  /\ (b = true ->
      match PyStr.collapse_runs s b with
      | String c _ => PyStr.is_hyphen c = false
      | EmptyString => True
      end).
Proof.
  revert b. induction s as [| c s IH]; intros b; [split; [reflexivity | intros _; exact I] |].
  simpl PyStr.collapse_runs.
  destruct (PyStr.is_hyphen c || PyStr.is_space c) eqn:E.
  - destruct b.
    + apply IH.
    + split; [| discriminate].
      destruct (IH true) as [H1 H2]. specialize (H2 eq_refl).
      destruct (PyStr.collapse_runs s true) as [| c1 r]; [reflexivity |].
      change (negb (PyStr.is_hyphen "-" && PyStr.is_hyphen c1) && no_double_hyphen (String c1 r) = true).
      rewrite H2, H1. reflexivity.
  - apply orb_false_elim in E as [Eh _].
    split; [| intros _; exact Eh].
    destruct (IH false) as [H1 _].
    destruct (PyStr.collapse_runs s false) as [| c1 r]; [reflexivity |].
    change (negb (PyStr.is_hyphen c && PyStr.is_hyphen c1) && no_double_hyphen (String c1 r) = true).
    rewrite Eh, H1. reflexivity.
Qed.

Lemma slugify_no_double value : no_double_hyphen (slugify value) = true.
Proof.
  unfold slugify, PyStr.strip_with.
  apply no_double_rstrip, no_double_lstrip, collapse_shape.
Qed.

Lemma no_double_find s :
  no_double_hyphen s = true -> PyStr.find_nat "--" s = None.
Proof.
  induction s as [| c s IH]; [reflexivity |]. intros H.
  cbn [PyStr.find_nat].
  rewrite (IH (no_double_tail c s H)).
  destruct (String.prefix "--" (String c s)) eqn:E; [| reflexivity].
  exfalso. cbn [String.prefix] in E.
  destruct (Ascii.ascii_dec "-" c) as [<- |]; [| discriminate].
  destruct s as [| c1 r]; cbn [String.prefix] in E; [discriminate |].
  destruct (Ascii.ascii_dec "-" c1) as [<- |]; [| discriminate].
  simpl in H. discriminate.
Qed.

(** X2.  A slug neither begins nor ends with a hyphen or an underscore, and
    has no two hyphens in a row. *)
Theorem slugify_shape (value : string) :
  match first_char (slugify value) with Some c => is_edge c = false | None => True end
  /\ match last_char (slugify value) with Some c => is_edge c = false | None => True end
  /\ PyStr.contains "--" (slugify value) = false.
Proof.
  split; [| split].
  - destruct (first_char (slugify value)) as [c |] eqn:E; [| exact I].
    exact (strip_first _ _ _ E).
  - destruct (last_char (slugify value)) as [c |] eqn:E; [| exact I].
    exact (rstrip_last _ _ _ E).
  - unfold PyStr.contains. rewrite (no_double_find _ (slugify_no_double value)). reflexivity.
Qed.

Lemma filter_id (p : ascii -> bool) s :
  Forall (fun c => p c = true) (list_ascii_of_string s) -> PyStr.filter p s = s.
Proof.
  intros H. unfold PyStr.filter.
  rewrite <- (string_of_list_ascii_of_string s) at 2. f_equal.
  induction H as [| c l Hc _ IH]; [reflexivity |].
  simpl. rewrite Hc, IH. reflexivity.
Qed.

Lemma lower_id s :
  Forall (fun c => PyStr.is_upper c = false) (list_ascii_of_string s) -> PyStr.lower s = s.
Proof.
  induction s as [| c s IH]; [reflexivity |]. simpl. intros H.
  inversion H as [| ? ? Hc Hs]; subst.
  unfold PyStr.lower_ascii. rewrite Hc, (IH Hs). reflexivity.
Qed.

Lemma collapse_id s b :
  Forall (fun c => PyStr.is_space c = false) (list_ascii_of_string s) ->
  no_double_hyphen s = true ->
  (b = true -> match s with String c _ => PyStr.is_hyphen c = false | EmptyString => True end) ->
  PyStr.collapse_runs s b = s.
Proof.
  revert b. induction s as [| c s IH]; intros b Hs Hd Hb; [reflexivity |].
  simpl in Hs. inversion Hs as [| ? ? Hc Hs']; subst.
  cbn [PyStr.collapse_runs]. rewrite Hc, orb_false_r.
  destruct (PyStr.is_hyphen c) eqn:Eh.
  - destruct b; [specialize (Hb eq_refl); congruence |].
    rewrite (is_hyphen_eq c Eh) in *. f_equal.
    apply IH; [exact Hs' | exact (no_double_tail _ _ Hd) |].
    intros _. destruct s as [| c1 r]; [exact I |].
    simpl in Hd. apply andb_prop in Hd as [Hd _].
    destruct (PyStr.is_hyphen c1); [discriminate Hd | reflexivity].
  - f_equal. apply IH; [exact Hs' | exact (no_double_tail _ _ Hd) | discriminate].
Qed.

Lemma lstrip_id p s :
  match s with String c _ => p c = false | EmptyString => True end ->
  PyStr.lstrip_with p s = s.
Proof. destruct s as [| c s]; [reflexivity |]. simpl. intros ->. reflexivity. Qed.

Lemma rstrip_idempotent p s :
  PyStr.rstrip_with p (PyStr.rstrip_with p s) = PyStr.rstrip_with p s.
Proof.
  induction s as [| c s IH]; [reflexivity |]. cbn [PyStr.rstrip_with].
  destruct (PyStr.rstrip_with p s) as [| c1 r] eqn:E.
  - destruct (p c) eqn:Ep; [reflexivity |]. simpl. rewrite Ep. reflexivity.
  - change (PyStr.rstrip_with p (String c (String c1 r)))
      with (match PyStr.rstrip_with p (String c1 r) with
            | EmptyString => if p c then EmptyString else String c EmptyString
            | String a b => String c (String a b)
            end).
    rewrite IH. reflexivity.
Qed.

Lemma strip_idempotent p s :
  PyStr.strip_with p (PyStr.strip_with p s) = PyStr.strip_with p s.
Proof.
  unfold PyStr.strip_with.
  rewrite (lstrip_id p (PyStr.rstrip_with p (PyStr.lstrip_with p s))).
  - apply rstrip_idempotent.
  - destruct (PyStr.rstrip_with p (PyStr.lstrip_with p s)) as [| c r] eqn:E; [exact I |].
    apply rstrip_head in E as [s' E]. exact (lstrip_head _ _ _ _ E).
Qed.

Lemma slug_char_facts c :
  slug_char c = true ->
  PyStr.is_ascii c = true /\ PyStr.is_upper c = false /\ PyStr.is_space c = false
  /\ PyStr.is_word c || PyStr.is_space c || PyStr.is_hyphen c = true.
Proof.
  destruct c as [[] [] [] [] [] [] [] []]; vm_compute; intros H;
    try discriminate H; repeat split.
Qed.

(** X1.  Every character of a slug is a lower-case letter, a digit, an
    underscore or a hyphen; a slug holds no upper-case letter and no
    white space. *)
Theorem slugify_alphabet (value : string) :
  Forall (fun c => slug_char c = true /\ PyStr.is_upper c = false /\ PyStr.is_space c = false)
         (list_ascii_of_string (slugify value)).
Proof.
  eapply Forall_impl; [apply slugify_alphabet_chars |].
  intros c Hc. split; [exact Hc |]. apply slug_char_facts in Hc. tauto.
Qed.

(** X3.  A slug is its own slug. *)
Theorem slugify_idempotent (value : string) : slugify (slugify value) = slugify value.
Proof.
  pose proof (slugify_alphabet_chars value) as Ha.
  pose proof (slugify_no_double value) as Hd.
  assert (F : forall P : ascii -> Prop,
             (forall c, slug_char c = true -> P c) ->
             Forall P (list_ascii_of_string (slugify value))).
  { intros P HP. eapply Forall_impl; [exact Ha | exact HP]. }
  unfold slugify at 1.
  rewrite (filter_id PyStr.is_ascii) by (apply F; intros c Hc; apply slug_char_facts, Hc).
  rewrite lower_id by (apply F; intros c Hc; apply slug_char_facts, Hc).
  rewrite filter_id by (apply F; intros c Hc; apply slug_char_facts, Hc).
  rewrite collapse_id;
    [| apply F; intros c Hc; apply slug_char_facts, Hc | exact Hd | discriminate].
  unfold slugify. apply strip_idempotent.
Qed.

(** ** The fallback site *)

Lemma get_fallback_site_unfold company_name :
  get_fallback_site company_name
  = (fallback_site <- sites_get (fallback_site_name company_name) ;;
     match fallback_site with
     | Some s => ret s
     | None => sites_create default_site_payload
     end).
Proof.
  unfold get_fallback_site, fallback_site_name.
  destruct company_name as [n |]; [| reflexivity].
  cbv zeta.
  destruct (PyStr.contains "akademie" _); [reflexivity |].
  destruct (_ || _); [reflexivity |].
  destruct (PyStr.contains "schauspi" _); [reflexivity |].
  destruct (PyStr.contains "ballett" _); reflexivity.
Qed.

Lemma fallback_found company_name nb s :
  sites_named (fallback_site_name company_name) nb = [s] ->
  get_fallback_site company_name nb = (Ok s, nb).
Proof.
  intros E. rewrite get_fallback_site_unfold.
  unfold bind, sites_get, get_one. unfold sites_named in E. rewrite E. reflexivity.
Qed.

Lemma fallback_created company_name nb :
  sites_named (fallback_site_name company_name) nb = [] ->
  get_fallback_site company_name nb = sites_create default_site_payload nb.
Proof.
  intros E. rewrite get_fallback_site_unfold.
  unfold bind, sites_get, get_one. unfold sites_named in E. rewrite E. reflexivity.
Qed.

Lemma sites_named_create name nb :
  sites_named name (snd (sites_create default_site_payload nb))
  = (sites_named name nb
     ++ if String.eqb DEFAULT_SITE_NAME name
        then [make_record (nb_next_id nb) default_site_payload] else [])%list.
Proof.
  unfold sites_named. simpl. rewrite List.filter_app. f_equal.
Qed.

(** X4.  When the site that the mapping names is missing, the default site
    is created, whether or not a default site exists: with a company
    name that maps to another site than the default one, two calls in a
    row create two sites named [DEFAULT_SITE_NAME], with different
    ids. *)
Theorem fallback_site_created_again (company_name : option string) (nb : NetBox) :
  fallback_site_name company_name <> DEFAULT_SITE_NAME ->
  sites_named (fallback_site_name company_name) nb = [] ->
  let first := get_fallback_site company_name nb in
  let second := get_fallback_site company_name (snd first) in
  exists s1 s2,
    fst first = Ok s1 /\ fst second = Ok s2
    /\ st_name s1 = DEFAULT_SITE_NAME /\ st_name s2 = DEFAULT_SITE_NAME
    /\ st_id s2 = st_id s1 + 1
    /\ calls_of (get_fallback_site company_name) (snd first)
       = [Create Sites default_site_payload]
    /\ sites_named DEFAULT_SITE_NAME (snd second)
       = (sites_named DEFAULT_SITE_NAME nb ++ [s1; s2])%list.
Proof.
  intros Hne Hnone. cbv zeta.
  rewrite (fallback_created _ _ Hnone).
  assert (Hnone' : sites_named (fallback_site_name company_name)
                     (snd (sites_create default_site_payload nb)) = []).
  { rewrite sites_named_create, Hnone.
    destruct (String.eqb_spec DEFAULT_SITE_NAME (fallback_site_name company_name));
      [congruence | reflexivity]. }
  assert (Hcalls : calls_of (get_fallback_site company_name)
                     (snd (sites_create default_site_payload nb))
                   = [Create Sites default_site_payload]).
  { apply calls_of_one. rewrite (fallback_created _ _ Hnone'). reflexivity. }
  rewrite (fallback_created _ _ Hnone').
  eexists _, _. split; [reflexivity |]. split; [reflexivity |].
  split; [reflexivity |]. split; [reflexivity |]. split; [reflexivity |].
  split; [exact Hcalls |].
  rewrite !sites_named_create. simpl. rewrite <- app_assoc. reflexivity.
Qed.

Lemma fallback_site_created_again_witness :
  let name := Some "Oper Frankfurt" in
  (fallback_site_name name <> DEFAULT_SITE_NAME
   /\ sites_named (fallback_site_name name) empty_netbox = [])
  /\ exists s1 s2,
       fst (get_fallback_site name empty_netbox) = Ok s1
       /\ fst (get_fallback_site name (snd (get_fallback_site name empty_netbox))) = Ok s2
       /\ st_name s1 = DEFAULT_SITE_NAME /\ st_name s2 = DEFAULT_SITE_NAME
       /\ st_id s2 = st_id s1 + 1
       /\ calls_of (get_fallback_site name) (snd (get_fallback_site name empty_netbox))
          = [Create Sites default_site_payload]
       /\ sites_named DEFAULT_SITE_NAME
            (snd (get_fallback_site name (snd (get_fallback_site name empty_netbox))))
          = (sites_named DEFAULT_SITE_NAME empty_netbox ++ [s1; s2])%list.
Proof.
  cbv zeta.
  assert (H1 : fallback_site_name (Some "Oper Frankfurt") <> DEFAULT_SITE_NAME)
    by (vm_compute; discriminate).
  assert (H2 : sites_named (fallback_site_name (Some "Oper Frankfurt")) empty_netbox = [])
    by reflexivity.
  split; [split; [exact H1 | exact H2] |].
  exact (fallback_site_created_again (Some "Oper Frankfurt") empty_netbox H1 H2).
Defined.

(** X5.  When the mapping names the default site: a default site that is
    the only one of its name is returned without any write; when there
    is none, it is created, and the next call returns the created site
    without any write. *)
Theorem fallback_site_default_once (company_name : option string) (nb : NetBox) :
  fallback_site_name company_name = DEFAULT_SITE_NAME ->
  (forall s, sites_named DEFAULT_SITE_NAME nb = [s] ->
             get_fallback_site company_name nb = (Ok s, nb))
  /\ (sites_named DEFAULT_SITE_NAME nb = [] ->
      let first := get_fallback_site company_name nb in
      exists s,
        fst first = Ok s
        /\ st_name s = DEFAULT_SITE_NAME
        /\ calls_of (get_fallback_site company_name) nb = [Create Sites default_site_payload]
        /\ get_fallback_site company_name (snd first) = (Ok s, snd first)).
Proof.
  intros Hd. split.
  - intros s E. apply fallback_found. rewrite Hd. exact E.
  - intros E. cbv zeta.
    assert (E' : sites_named (fallback_site_name company_name) nb = [])
      by (rewrite Hd; exact E).
    assert (Hcalls : calls_of (get_fallback_site company_name) nb
                     = [Create Sites default_site_payload]).
    { apply calls_of_one. rewrite (fallback_created _ _ E'). reflexivity. }
    rewrite (fallback_created _ _ E').
    eexists. split; [reflexivity |]. split; [reflexivity |]. split; [exact Hcalls |].
    apply fallback_found. rewrite Hd, sites_named_create, E. reflexivity.
Qed.

Lemma fallback_site_default_once_witness :
  fallback_site_name (Some "Acme") = DEFAULT_SITE_NAME
  /\ (sites_named DEFAULT_SITE_NAME empty_netbox = [] ->
      exists s,
        fst (get_fallback_site (Some "Acme") empty_netbox) = Ok s
        /\ st_name s = DEFAULT_SITE_NAME
        /\ calls_of (get_fallback_site (Some "Acme")) empty_netbox
           = [Create Sites default_site_payload]
        /\ get_fallback_site (Some "Acme") (snd (get_fallback_site (Some "Acme") empty_netbox))
           = (Ok s, snd (get_fallback_site (Some "Acme") empty_netbox))).
Proof.
  split; [reflexivity |].
  exact (proj2 (fallback_site_default_once (Some "Acme") empty_netbox eq_refl)).
Defined.

(** ** The parent walk and its rounds *)

Lemma find_site_next fuel sites lwp p q :
  next_parent sites lwp p = Some q ->
  find_site (S fuel) sites lwp (Some p) = find_site fuel sites lwp (Some q).
Proof.
  unfold next_parent. cbn [find_site]. intros H.
  destruct (List.find (fun item => bool_decide (rec_key item = Some (ref_id p))) sites);
    [discriminate |].
  destruct (List.find (fun item => Z.eqb (sl_id item) (ref_id p)) lwp); [| discriminate].
  rewrite H. reflexivity.
Qed.

Lemma find_site_closed sites lwp (P : Ref -> Prop) :
  closed_walk sites lwp P ->
  forall fuel p, P p -> find_site fuel sites lwp (Some p) = None.
Proof.
  intros Hc. induction fuel as [| fuel IH]; intros p Hp; [reflexivity |].
  destruct (Hc p Hp) as (q & Hq & HPq).
  rewrite (find_site_next _ _ _ _ _ Hq). apply IH, HPq.
Qed.

(** X6.  On a cyclic parent chain none of whose locations is linked to a
    site, the walk of [__sync_location] does not end: whatever number
    of rounds it is given, it has found neither a site nor the end of
    the chain, and nothing is written. *)
Theorem parent_cycle_never_ends (self : Syncer) (netbox_sites : list Site)
    (netbox_locations : list Location) (lwp : list SnipeLocation) (P : Ref -> Prop)
    (location : SnipeLocation) (p : Ref) (nb : NetBox) :
  closed_walk netbox_sites lwp P ->
  sl_parent location = Some p -> P p ->
  forall fuel,
    find_site fuel netbox_sites lwp (sl_parent location) = None
    /\ sync_location fuel self netbox_sites netbox_locations lwp location nb
       = (Raise OutOfFuel, nb).
Proof.
  intros Hc Hp HP fuel.
  assert (F : find_site fuel netbox_sites lwp (sl_parent location) = None).
  { rewrite Hp. exact (find_site_closed _ _ _ Hc fuel p HP). }
  split; [exact F |]. unfold sync_location. rewrite F. reflexivity.
Qed.

Lemma parent_cycle_never_ends_witness :
  let P := fun p : Ref => ref_id p = 5 \/ ref_id p = 6 in
  let a := {| sl_id := 5; sl_name := "A"; sl_parent := Some {| ref_id := 6; ref_name := "B" |} |} in
  closed_walk [] two_cycle P
  /\ forall fuel,
       find_site fuel [] two_cycle (sl_parent a) = None
       /\ sync_location fuel (Sample.syncer true true) [] [] two_cycle a empty_netbox
          = (Raise OutOfFuel, empty_netbox).
Proof.
  cbv zeta.
  assert (C : closed_walk [] two_cycle (fun p : Ref => ref_id p = 5 \/ ref_id p = 6)).
  { intros [i n] [H | H]; simpl in H; subst i.
    - exists {| ref_id := 6; ref_name := "B" |}. split; [reflexivity | right; reflexivity].
    - exists {| ref_id := 5; ref_name := "A" |}. split; [reflexivity | left; reflexivity]. }
  split; [exact C |].
  exact (parent_cycle_never_ends (Sample.syncer true true) [] [] two_cycle _
           {| sl_id := 5; sl_name := "A";
              sl_parent := Some {| ref_id := 6; ref_name := "B" |} |}
           {| ref_id := 6; ref_name := "B" |} empty_netbox C eq_refl (or_intror eq_refl)).
Defined.

Lemma nth_parent_shift sites lwp k p :
  nth_parent sites lwp (S k) p
  = match next_parent sites lwp p with
    | Some q => nth_parent sites lwp k q
    | None => None
    end.
Proof.
  induction k as [| k IH].
  - simpl. destruct (next_parent sites lwp p); reflexivity.
  - change (nth_parent sites lwp (S (S k)) p)
      with (match nth_parent sites lwp (S k) p with
            | Some q => next_parent sites lwp q
            | None => None
            end).
    rewrite IH. destruct (next_parent sites lwp p); reflexivity.
Qed.

Lemma find_site_none_next fuel sites lwp p :
  find_site (S (S fuel)) sites lwp (Some p) = None ->
  exists q, next_parent sites lwp p = Some q
            /\ find_site (S fuel) sites lwp (Some q) = None.
Proof.
  unfold next_parent.
  change (find_site (S (S fuel)) sites lwp (Some p))
    with (match List.find (fun item => bool_decide (rec_key item = Some (ref_id p))) sites with
          | Some s => Some (Some s)
          | None =>
              find_site (S fuel) sites lwp
                match List.find (fun item => Z.eqb (sl_id item) (ref_id p)) lwp with
                | Some item => sl_parent item
                | None => None
                end
          end).
  destruct (List.find (fun item => bool_decide (rec_key item = Some (ref_id p))) sites);
    [discriminate |].
  destruct (List.find (fun item => Z.eqb (sl_id item) (ref_id p)) lwp) as [item |];
    [| discriminate].
  destruct (sl_parent item) as [q |]; [| discriminate].
  intros H. exists q. split; [reflexivity | exact H].
Qed.

Lemma find_site_none_chain sites lwp k p :
  find_site (S k) sites lwp (Some p) = None ->
  forall i, (i <= k)%nat -> is_Some (nth_parent sites lwp i p).
Proof.
  revert p. induction k as [| k IH]; intros p H i Hi.
  - replace i with 0%nat by lia. eexists; reflexivity.
  - destruct (find_site_none_next _ _ _ _ H) as (q & Hq & Hn).
    destruct i as [| i]; [eexists; reflexivity |].
    rewrite nth_parent_shift, Hq. apply IH; [exact Hn | lia].
Qed.

Lemma next_parent_id sites lwp p q :
  next_parent sites lwp p = Some q -> In (ref_id p) (map sl_id lwp).
Proof.
  unfold next_parent.
  destruct (List.find (fun item => bool_decide (rec_key item = Some (ref_id p))) sites);
    [discriminate |].
  destruct (List.find (fun item => Z.eqb (sl_id item) (ref_id p)) lwp) as [item |] eqn:E;
    [| discriminate].
  intros _. apply find_some in E as [Hin Heq]. apply Z.eqb_eq in Heq.
  rewrite <- Heq. apply in_map, Hin.
Qed.

Lemma next_parent_by_id sites lwp p p' :
  ref_id p = ref_id p' -> next_parent sites lwp p = next_parent sites lwp p'.
Proof. unfold next_parent. intros ->. reflexivity. Qed.

Lemma find_site_more fuel k sites lwp parent r :
  find_site fuel sites lwp parent = Some r ->
  find_site (fuel + k) sites lwp parent = Some r.
Proof.
  revert parent. induction fuel as [| fuel IH]; intros parent; [discriminate |].
  change (S fuel + k)%nat with (S (fuel + k)). cbn [find_site].
  destruct parent as [p |]; [| exact (fun H => H)].
  destruct (List.find (fun item => bool_decide (rec_key item = Some (ref_id p))) sites);
    [exact (fun H => H) |].
  apply IH.
Qed.

Lemma find_site_never sites lwp p :
  find_site (length lwp + 2) sites lwp (Some p) = None ->
  forall fuel, find_site fuel sites lwp (Some p) = None.
Proof.
  intros H.
  replace (length lwp + 2)%nat with (S (S (length lwp))) in H by lia.
  pose proof (find_site_none_chain _ _ _ _ H) as Hch.
  set (n := length lwp) in *.
  set (ids := map (fun i => match nth_parent sites lwp i p with
                            | Some q => ref_id q
                            | None => 0
                            end) (seq 0 (S n))).
  assert (Hsub : ids ⊆ map sl_id lwp).
  { intros x Hx. apply list_elem_of_In in Hx. apply list_elem_of_In.
    apply in_map_iff in Hx as (i & <- & Hi). apply in_seq in Hi.
    destruct (Hch i ltac:(lia)) as [q Hq]. rewrite Hq.
    destruct (Hch (S i) ltac:(lia)) as [q' Hq'].
    change (nth_parent sites lwp (S i) p)
      with (match nth_parent sites lwp i p with
            | Some q => next_parent sites lwp q
            | None => None
            end) in Hq'.
    rewrite Hq in Hq'. exact (next_parent_id _ _ _ _ Hq'). }
  assert (Hlen : (length (map sl_id lwp) < length ids)%nat).
  { unfold ids. rewrite !length_map, length_seq. fold n. lia. }
  destruct (list_pigeonhole ids (map sl_id lwp) Hsub Hlen) as (i1 & i2 & x & Hlt & H1 & H2).
  assert (Hi2 : (i2 < S n)%nat).
  { apply lookup_lt_Some in H2. unfold ids in H2. rewrite length_map, length_seq in H2.
    exact H2. }
  assert (Hid : forall i, (i < S n)%nat -> ids !! i = Some x ->
                exists q, nth_parent sites lwp i p = Some q /\ ref_id q = x).
  { intros i Hi Hl. unfold ids in Hl. rewrite list_lookup_fmap in Hl.
    rewrite lookup_seq_lt in Hl by lia. simpl in Hl.
    destruct (Hch i ltac:(lia)) as [q Hq]. rewrite Hq in Hl.
    exists q. split; [exact Hq | congruence]. }
  destruct (Hid i1 ltac:(lia) H1) as (q1 & Hq1 & Hx1).
  destruct (Hid i2 Hi2 H2) as (q2 & Hq2 & Hx2).
  intros fuel.
  apply (find_site_closed sites lwp
           (fun q => exists k, (k <= i2)%nat /\ nth_parent sites lwp k p = Some q));
    cbv beta.
  - intros q (k & Hk & Hq).
    destruct (decide (k = i2)) as [-> | Hne].
    + assert (q = q2) by congruence. subst q.
      destruct (Hch (S i1) ltac:(lia)) as [q' Hq'].
      exists q'. split.
      * rewrite (next_parent_by_id sites lwp q2 q1) by congruence.
        change (nth_parent sites lwp (S i1) p)
          with (match nth_parent sites lwp i1 p with
                | Some q => next_parent sites lwp q
                | None => None
                end) in Hq'.
        rewrite Hq1 in Hq'. exact Hq'.
      * exists (S i1). split; [lia | exact Hq'].
    + destruct (Hch (S k) ltac:(lia)) as [q' Hq'].
      exists q'. split.
      * change (nth_parent sites lwp (S k) p)
          with (match nth_parent sites lwp k p with
                | Some q => next_parent sites lwp q
                | None => None
                end) in Hq'.
        rewrite Hq in Hq'. exact Hq'.
      * exists (S k). split; [lia | exact Hq'].
  - exists 0%nat. split; [lia | reflexivity].
Qed.

Lemma find_site_enough sites lwp parent fuel :
  (length lwp + 2 <= fuel)%nat ->
  find_site fuel sites lwp parent = find_site (length lwp + 2) sites lwp parent.
Proof.
  intros Hle.
  destruct (find_site (length lwp + 2) sites lwp parent) as [r |] eqn:E.
  - replace fuel with ((length lwp + 2) + (fuel - (length lwp + 2)))%nat by lia.
    apply find_site_more, E.
  - destruct parent as [p |]; [apply find_site_never, E |].
    replace (length lwp + 2)%nat with (S (S (length lwp))) in E by lia. discriminate.
Qed.

Lemma for_each_ext {A} (l : list A) (f g : A -> M unit) nb :
  (forall x nb, f x nb = g x nb) -> for_each l f nb = for_each l g nb.
Proof.
  intros H. revert nb. induction l as [| x l IH]; intros nb; [reflexivity |].
  cbn [for_each]. unfold bind. rewrite H.
  destruct (g x nb) as [[[] | e] nb']; [apply IH | reflexivity].
Qed.

Lemma sync_location_rounds fuel fuel' self sites locs lwp location nb :
  find_site fuel sites lwp (sl_parent location) = find_site fuel' sites lwp (sl_parent location) ->
  sync_location fuel self sites locs lwp location nb
  = sync_location fuel' self sites locs lwp location nb.
Proof. unfold sync_location. intros ->. reflexivity. Qed.

Lemma bind_ext {A B} (m : M A) (k k' : A -> M B) nb :
  (forall a nb', k a nb' = k' a nb') -> bind m k nb = bind m k' nb.
Proof. intros H. unfold bind. destruct (m nb) as [[a | e] nb']; [apply H | reflexivity]. Qed.

Lemma bind_ext_l {A B} (m m' : M A) (k : A -> M B) nb :
  m nb = m' nb -> bind m k nb = bind m' k nb.
Proof. intros H. unfold bind. rewrite H. reflexivity. Qed.

Lemma sync_locations_rounds fuel self locations nb :
  (length locations + 2 <= fuel)%nat ->
  sync_locations fuel self locations nb
  = sync_locations (length locations + 2) self locations nb.
Proof.
  intros Hle. unfold sync_locations.
  set (lwp := List.filter (fun s => negb (bool_decide (sl_parent s = None))) locations).
  assert (Hlen : (length lwp <= length locations)%nat) by apply List.filter_length_le.
  apply bind_ext. intros nl nb1. apply bind_ext. intros ns nb2.
  apply bind_ext. intros subs nb3. apply bind_ext_l, for_each_ext.
  intros x nb'. apply sync_location_rounds.
  rewrite (find_site_enough _ _ _ fuel) by lia.
  rewrite (find_site_enough _ _ _ (length locations + 2)) by lia.
  reflexivity.
Qed.

(** X7.  The number of rounds that decide the walk of [__sync_location].
    With as many rounds as the source has locations, and two more, the
    walk, the location stage and the whole pass give what they give
    with any larger number of rounds: a walk that has not ended by then
    never ends. *)
Theorem walk_rounds_enough (self : Syncer) (tenant_desc : string) (snipe : Snipe)
    (netbox_sites : list Site) (parent : option Ref) (fuel : nat) (nb : NetBox) :
  let locations := get_locations snipe in
  let lwp := List.filter (fun s => negb (bool_decide (sl_parent s = None))) locations in
  let enough := (length locations + 2)%nat in
  (enough <= fuel)%nat ->
  find_site fuel netbox_sites lwp parent = find_site enough netbox_sites lwp parent
  /\ (find_site enough netbox_sites lwp parent = None ->
      forall rounds, find_site rounds netbox_sites lwp parent = None)
  /\ sync_locations fuel self locations nb = sync_locations enough self locations nb
  /\ main fuel self tenant_desc snipe nb = main enough self tenant_desc snipe nb.
Proof.
  cbv zeta. intros Hle.
  set (locations := get_locations snipe) in *.
  set (lwp := List.filter (fun s => negb (bool_decide (sl_parent s = None))) locations).
  assert (Hlen : (length lwp <= length locations)%nat) by apply List.filter_length_le.
  split; [| split; [| split]].
  - rewrite (find_site_enough _ _ _ fuel) by lia.
    rewrite (find_site_enough _ _ _ (length locations + 2)) by lia. reflexivity.
  - intros E rounds.
    destruct parent as [p |].
    + apply find_site_never. rewrite <- (find_site_enough _ _ _ (length locations + 2)) by lia.
      exact E.
    + replace (length locations + 2)%nat with (S (S (length locations))) in E by lia.
      discriminate.
  - apply sync_locations_rounds, Hle.
  - unfold main.
    do 4 (apply bind_ext; intros [] ?).
    apply bind_ext_l, sync_locations_rounds, Hle.
Qed.

Lemma walk_rounds_enough_witness :
  (length (get_locations Sample.snipe) + 2 <= 10)%nat
  /\ main 10 (Sample.syncer true true) "Imported from SnipeIT" Sample.snipe empty_netbox
     = main (length (get_locations Sample.snipe) + 2) (Sample.syncer true true)
            "Imported from SnipeIT" Sample.snipe empty_netbox.
Proof.
  assert (H : (length (get_locations Sample.snipe) + 2 <= 10)%nat) by (simpl; lia).
  split; [exact H |].
  exact (proj2 (proj2 (proj2
           (walk_rounds_enough (Sample.syncer true true) "Imported from SnipeIT" Sample.snipe
              [] None 10 empty_netbox H)))).
Defined.

(** ** The writes of a pass *)

Lemma reach_trans ok nb1 nb2 nb3 : reach ok nb1 nb2 -> reach ok nb2 nb3 -> reach ok nb1 nb3.
Proof.
  intros H12 H23. induction H23 as [| X p nb H IH Hok | X ps nb H IH Hok].
  - exact H12.
  - apply reach_create; assumption.
  - apply reach_update; assumption.
Qed.

Lemma reach_mono (ok ok' : Call -> Prop) nb nb' :
  (forall c, ok c -> ok' c) -> reach ok nb nb' -> reach ok' nb nb'.
Proof.
  intros Hm H. induction H as [| X p nb1 H IH Hok | X ps nb1 H IH Hok].
  - apply reach_here.
  - apply reach_create; auto.
  - apply reach_update; auto.
Qed.

Lemma create_at_calls X p nb : nb_calls (create_at X p nb) = (nb_calls nb ++ [Create X p])%list.
Proof. destruct X; reflexivity. Qed.

Lemma update_at_calls X ps nb :
  nb_calls (update_at X ps nb) = (nb_calls nb ++ [Update X ps])%list.
Proof. destruct X; reflexivity. Qed.

Lemma reach_calls ok nb nb' :
  reach ok nb nb' -> exists cs, nb_calls nb' = (nb_calls nb ++ cs)%list /\ Forall ok cs.
Proof.
  intros H. induction H as [| X p nb1 H (cs & E & F) Hok | X ps nb1 H (cs & E & F) Hok].
  - exists []. split; [symmetry; apply app_nil_r | constructor].
  - exists (cs ++ [Create X p])%list. split.
    + rewrite create_at_calls, E, app_assoc. reflexivity.
    + apply Forall_app. split; [exact F | repeat constructor; exact Hok].
  - exists (cs ++ [Update X ps])%list. split.
    + rewrite update_at_calls, E, app_assoc. reflexivity.
    + apply Forall_app. split; [exact F | repeat constructor; exact Hok].
Qed.

Lemma reaches_calls {A} ok (m : M A) nb : reaches ok m -> Forall ok (calls_of m nb).
Proof.
  intros H. destruct (reach_calls _ _ _ (H nb)) as (cs & E & F).
  unfold calls_of. rewrite E, drop_app_length. exact F.
Qed.

Lemma reaches_ret {A} ok (a : A) : reaches ok (ret a).
Proof. intros nb. apply reach_here. Qed.

Lemma reaches_raise {A} ok e : reaches ok (@raise A e).
Proof. intros nb. apply reach_here. Qed.

Lemma reaches_lift {A} ok (r : Result A) : reaches ok (lift r).
Proof. intros nb. apply reach_here. Qed.

Lemma reaches_same {A} ok (m : M A) : (forall nb, snd (m nb) = nb) -> reaches ok m.
Proof. intros H nb. rewrite H. apply reach_here. Qed.

Lemma reaches_bind {A B} ok (m : M A) (k : A -> M B) :
  reaches ok m -> (forall a, reaches ok (k a)) -> reaches ok (bind m k).
Proof.
  intros Hm Hk nb. unfold bind. specialize (Hm nb).
  destruct (m nb) as [[a | e] nb1]; simpl in Hm.
  - eapply reach_trans; [exact Hm | apply Hk].
  - exact Hm.
Qed.

Lemma reaches_for_each {A} ok (l : list A) (body : A -> M unit) :
  (forall x, reaches ok (body x)) -> reaches ok (for_each l body).
Proof.
  intros H. induction l as [| x l IH]; [apply reaches_ret |].
  apply reaches_bind; [apply H | intros _; exact IH].
Qed.

Lemma reaches_for_fold {A S} ok (l : list A) (body : S -> A -> M S) :
  (forall s x, reaches ok (body s x)) -> forall s, reaches ok (for_fold l s body).
Proof.
  intros H. induction l as [| x l IH]; intros s; [apply reaches_ret |].
  apply reaches_bind; [apply H | intros s'; apply IH].
Qed.

Lemma reaches_create ok X p (m : M unit) :
  (forall nb, snd (m nb) = create_at X p nb) -> ok (Create X p) -> reaches ok m.
Proof. intros E H nb. rewrite E. apply reach_create; [apply reach_here | exact H]. Qed.

Lemma reaches_update ok X ps (m : M unit) :
  (forall nb, snd (m nb) = update_at X ps nb) -> ok (Update X ps) -> reaches ok m.
Proof. intros E H nb. rewrite E. apply reach_update; [apply reach_here | exact H]. Qed.

Lemma reaches_get_one {A} ok (f : A -> bool) (table : NetBox -> list A) :
  reaches ok (fun nb => get_one f (table nb) nb).
Proof.
  apply reaches_same. intros nb. unfold get_one.
  destruct (List.filter f (table nb)) as [| x [| y l]]; reflexivity.
Qed.

Ltac reach_create X :=
  match goal with
  | H : handler_ok ?ok _ X |- reaches ?ok (bind _ _) =>
      apply reaches_bind;
      [ intros nb; apply (reach_create ok nb X); [apply reach_here | apply (proj1 H)]
      | intros ?; apply reaches_ret ]
  end.

Ltac reach_update X :=
  match goal with
  | H : handler_ok ?ok _ X |- reaches ?ok _ =>
      intros nb; apply (reach_update ok nb X); [apply reach_here |];
      apply (proj2 H); repeat constructor;
      repeat match goal with
        | |- context [if ?b then _ else _] => destruct b
        end;
      vm_compute; assumption
  end.

Ltac reach_case :=
  match goal with
  | |- reaches _ (match ?x with _ => _ end) => destruct x eqn:?
  end.

Lemma reaches_sync_company ok self desc l c :
  handler_ok ok self Tenants -> reaches ok (sync_company self desc l c).
Proof.
  intros Hok. unfold sync_company. repeat reach_case;
    first [apply reaches_ret | reach_create Tenants | reach_update Tenants].
Qed.

Lemma reaches_sync_manufacturer ok self l c :
  handler_ok ok self Manufacturers -> reaches ok (sync_manufacturer self l c).
Proof.
  intros Hok. unfold sync_manufacturer. repeat reach_case;
    first [apply reaches_ret | reach_create Manufacturers | reach_update Manufacturers].
Qed.

Lemma reaches_sync_top_location ok self l c :
  handler_ok ok self Sites -> reaches ok (sync_top_location self l c).
Proof.
  intros Hok. unfold sync_top_location. repeat reach_case;
    first [apply reaches_ret | reach_create Sites | reach_update Sites].
Qed.

Lemma reaches_sync_location ok fuel self sites locs lwp c :
  handler_ok ok self Locations -> reaches ok (sync_location fuel self sites locs lwp c).
Proof.
  intros Hok. unfold sync_location, out_of_fuel. repeat reach_case;
    first [apply reaches_ret | apply reaches_raise
          | reach_create Locations | reach_update Locations].
Qed.

Lemma reaches_attribute {A} ok (x : option A) : reaches ok (attribute x).
Proof. destruct x; [apply reaches_ret | apply reaches_raise]. Qed.

Lemma reaches_subscript {A} ok (x : option A) : reaches ok (subscript x).
Proof. destruct x; [apply reaches_ret | apply reaches_raise]. Qed.

Lemma reaches_sync_model ok self dts ms model :
  handler_ok ok self DeviceTypes -> reaches ok (sync_model self dts ms model).
Proof.
  intros Hok. unfold sync_model.
  destruct (List.find (fun item => bool_decide (rec_key item = Some (sm_id model))) dts)
    as [present |].
  - cbv zeta. apply reaches_bind; [apply reaches_attribute | intros manuf].
    destruct (dict_has "id" _); [| apply reaches_ret].
    destruct (allow_updates self) eqn:Hu; [| apply reaches_ret].
    reach_update DeviceTypes.
  - destruct (List.find _ dts) as [present |].
    + destruct (allow_linking self) eqn:Hl; [| apply reaches_ret].
      cbv zeta. reach_update DeviceTypes.
    + cbv zeta. apply reaches_bind; [apply reaches_attribute | intros manuf].
      reach_create DeviceTypes.
Qed.

Lemma reaches_companies ok self desc l :
  handler_ok ok self Tenants -> reaches ok (sync_companies_to_tenants self desc l).
Proof.
  intros Hok. unfold sync_companies_to_tenants.
  apply reaches_bind; [apply reaches_same; reflexivity | intros ts].
  apply reaches_for_each. intros c. apply reaches_sync_company, Hok.
Qed.

Lemma reaches_manufacturers ok self l :
  handler_ok ok self Manufacturers -> reaches ok (sync_manufacturers self l).
Proof.
  intros Hok. unfold sync_manufacturers.
  apply reaches_bind; [apply reaches_same; reflexivity | intros ts].
  apply reaches_for_each. intros c. apply reaches_sync_manufacturer, Hok.
Qed.

Lemma reaches_models ok self l :
  handler_ok ok self DeviceTypes -> reaches ok (sync_models_to_device_types self l).
Proof.
  intros Hok. unfold sync_models_to_device_types.
  apply reaches_bind; [apply reaches_same; reflexivity | intros ts].
  apply reaches_bind; [apply reaches_same; reflexivity | intros ms].
  apply reaches_for_each. intros c. apply reaches_sync_model, Hok.
Qed.

Lemma reaches_top_locations ok self l :
  handler_ok ok self Sites -> reaches ok (sync_top_locations_to_sites self l).
Proof.
  intros Hok. unfold sync_top_locations_to_sites.
  apply reaches_bind; [apply reaches_same; reflexivity | intros ts].
  apply reaches_for_each. intros c. apply reaches_sync_top_location, Hok.
Qed.

Lemma permitted_handler self X : handler_ok (permitted self) self X.
Proof.
  split; [intros p; exact I |].
  intros ps Hp. right. right. exact Hp.
Qed.

Lemma on_handler self X : handler_ok (fun c => endpoint_of c = X) self X.
Proof. split; intros; reflexivity. Qed.

Lemma fixup_updates_licensed self locs subs :
  forall updates nb u,
    Forall (licensed self) updates ->
    fst (for_fold subs updates (sync_location_relationship self locs) nb) = Ok u ->
    Forall (licensed self) u.
Proof.
  induction subs as [| sl subs IH]; intros updates nb u Hu E.
  - simpl in E. injection E as <-. exact Hu.
  - cbn [for_fold] in E. unfold bind at 1 in E.
    destruct (sync_location_relationship self locs updates sl nb) as [[u1 | e] nb1] eqn:E1;
      [| discriminate E].
    apply (IH u1 nb1 u); [| exact E].
    unfold sync_location_relationship, assert_some, subscript in E1.
    destruct (List.find _ locs) as [loc |]; [| discriminate E1].
    destruct (sl_parent sl) as [parent |]; [| discriminate E1].
    rewrite !bind_ret in E1.
    destruct (List.find _ locs) as [ploc |]; [| discriminate E1].
    rewrite !bind_ret in E1.
    destruct (lc_parent loc) as [pid |]; [| discriminate E1].
    rewrite !bind_ret in E1.
    destruct (negb _); [| injection E1 as <- _; exact Hu].
    destruct (allow_updates self) eqn:Ha; [| injection E1 as <- _; exact Hu].
    injection E1 as <- _. apply Forall_app. split; [exact Hu |].
    repeat constructor. vm_compute. exact Ha.
Qed.

Lemma reaches_relationships ok self subs :
  handler_ok ok self Locations -> reaches ok (sync_location_relationships self subs).
Proof.
  intros Hok nb. unfold sync_location_relationships, bind, locations_all.
  pose proof (fixup_fold_state self (nb_locations nb) subs [] nb) as Hs.
  pose proof (fixup_updates_licensed self (nb_locations nb) subs [] nb) as Hl.
  destruct (for_fold subs [] _ nb) as [[u | e] nb1]; simpl in Hs; subst nb1.
  - apply (reach_update _ nb Locations); [apply reach_here |].
    apply (proj2 Hok). apply (Hl u); [constructor | reflexivity].
  - apply reach_here.
Qed.

Lemma reaches_locations ok fuel self l :
  handler_ok ok self Locations -> reaches ok (sync_locations fuel self l).
Proof.
  intros Hok. unfold sync_locations.
  apply reaches_bind; [apply reaches_same; reflexivity | intros ls].
  apply reaches_bind; [apply reaches_same; reflexivity | intros ss].
  cbv zeta. apply reaches_bind.
  - apply reaches_for_fold. intros acc x.
    apply reaches_bind; [apply reaches_lift | intros b; apply reaches_ret].
  - intros subs. apply reaches_bind.
    + apply reaches_for_each. intros c. apply reaches_sync_location, Hok.
    + intros _. apply reaches_relationships, Hok.
Qed.

Lemma reaches_fallback_site self cn : reaches (permitted self) (get_fallback_site cn).
Proof.
  intros nb. destruct (get_fallback_site_state cn nb) as [-> | (p & -> & _)].
  - apply reach_here.
  - apply reach_create; [apply reach_here | exact I].
Qed.

Lemma reaches_asset_site self locs a : reaches (permitted self) (asset_site locs a).
Proof.
  unfold asset_site. destruct (asset_location locs a); [apply reaches_ret |].
  destruct (sa_company a); [| apply reaches_ret].
  apply reaches_bind; [apply reaches_fallback_site | intros s; apply reaches_ret].
Qed.

Lemma reaches_role self roles a : reaches (permitted self) (get_role_from_category roles a).
Proof.
  unfold get_role_from_category. cbv zeta.
  destruct (get_customfield_from_dict_list roles _); [apply reaches_ret |].
  destruct (List.find _ roles) as [role |].
  - apply reaches_bind; [| intros _; apply reaches_ret].
    intros nb. apply (reach_update _ nb DeviceRoles); [apply reach_here |].
    right. left. reflexivity.
  - apply reaches_bind; [| intros r; apply reaches_ret].
    intros nb. apply (reach_create _ nb DeviceRoles); [apply reach_here | exact I].
Qed.

Lemma reaches_update_device self d a role site nb_tenant nb_dt flag :
  reaches (permitted self) (update_device self d a role site nb_tenant nb_dt flag).
Proof.
  intros nb.
  destruct (update_device_state self d a role site nb_tenant nb_dt flag nb)
    as [-> | (p & -> & _)].
  - apply reach_here.
  - apply reach_update; [apply reach_here | left; reflexivity].
Qed.

Lemma reaches_new_device self name a role dt nb_tenant site :
  reaches (permitted self) (new_device self name a role dt nb_tenant site).
Proof.
  apply reaches_same. intros nb.
  destruct (new_device_cases self name a role dt nb_tenant site nb) as [-> | (p & -> & _)];
    reflexivity.
Qed.

Lemma reaches_sync_device self nb_dt nb_tenant devices role site a :
  reaches (permitted self) (sync_device self nb_dt nb_tenant devices role site a).
Proof.
  unfold sync_device.
  destruct (List.find _ devices).
  { apply reaches_bind; [apply reaches_update_device | intros _; apply reaches_ret]. }
  destruct (List.find _ devices).
  { apply reaches_bind; [apply reaches_update_device | intros _; apply reaches_ret]. }
  apply reaches_bind; [apply reaches_lift | intros collision].
  cbv zeta. apply reaches_bind; [apply reaches_subscript | intros dt].
  apply reaches_bind; [apply reaches_new_device | intros p].
  apply reaches_bind; [| intros dev; apply reaches_ret].
  intros nb. apply (reach_create _ nb Devices); [apply reach_here | exact I].
Qed.

Lemma reaches_sync_asset self ts ls dts st a :
  reaches (permitted self) (sync_asset self ts ls dts st a).
Proof.
  unfold sync_asset. cbv zeta.
  apply reaches_bind; [apply reaches_asset_site | intros site].
  apply reaches_bind; [apply reaches_role | intros rr].
  apply reaches_bind; [apply reaches_sync_device | intros ds; apply reaches_ret].
Qed.

Lemma reaches_assets self l : reaches (permitted self) (sync_assets_to_devices self l).
Proof.
  unfold sync_assets_to_devices.
  do 5 (apply reaches_bind; [apply reaches_same; reflexivity | intros ?]).
  apply reaches_bind; [| intros ?; apply reaches_ret].
  apply reaches_for_fold. intros st x. apply reaches_sync_asset.
Qed.

Lemma reaches_main fuel self tenant_desc snipe :
  reaches (permitted self) (main fuel self tenant_desc snipe).
Proof.
  unfold main.
  apply reaches_bind; [apply reaches_companies, permitted_handler | intros _].
  apply reaches_bind; [apply reaches_manufacturers, permitted_handler | intros _].
  apply reaches_bind; [apply reaches_models, permitted_handler | intros _].
  apply reaches_bind; [apply reaches_top_locations, permitted_handler | intros _].
  apply reaches_bind; [apply reaches_locations, permitted_handler | intros _].
  apply reaches_assets.
Qed.

(** X8.  Every write of a pass is permitted by the flags: an update of a
    tenant, a manufacturer, a device type, a site or a location that
    stamps the linkage key is made only when linking is allowed, and
    any other update of these kinds only when updates are allowed.
    With both flags off the only updates are those of devices and
    device roles, and empty batches. *)
Theorem pass_writes_permitted (fuel : nat) (self : Syncer) (tenant_desc : string)
    (snipe : Snipe) (nb : NetBox) :
  Forall (permitted self) (calls_of (main fuel self tenant_desc snipe) nb)
  /\ (allow_updates self = false -> allow_linking self = false ->
      Forall harmless (calls_of (main fuel self tenant_desc snipe) nb)).
Proof.
  pose proof (reaches_calls _ _ nb (reaches_main fuel self tenant_desc snipe)) as H.
  split; [exact H |].
  intros Hu Hl. eapply Forall_impl; [exact H |].
  intros [X p | X ps]; [exact (fun H => H) |].
  intros [-> | [-> | Hps]]; [left; reflexivity | right; left; reflexivity |].
  right. right. destruct ps as [| p ps]; [reflexivity |].
  inversion Hps as [| ? ? Hp _]; subst. unfold licensed in Hp.
  destruct (p !! "custom_fields"); congruence.
Qed.

Lemma pass_writes_permitted_witness :
  let self := Sample.syncer false false in
  (allow_updates self = false /\ allow_linking self = false)
  /\ Forall harmless (calls_of (main 4 self (desc self) Sample.snipe) empty_netbox).
Proof.
  cbv zeta. split; [split; reflexivity |].
  exact (proj2 (pass_writes_permitted 4 (Sample.syncer false false)
                  (desc (Sample.syncer false false)) Sample.snipe empty_netbox)
               eq_refl eq_refl).
Defined.

Lemma map_fst_stamp_by p K : map fst (stamp_by p K) = map fst K.
Proof.
  unfold stamp_by. destruct (p !! "id") as [[| i | | | |] |]; try reflexivity.
  destruct (p !! "custom_fields") as [[| | | | | k] |]; try reflexivity.
  apply map_fst_stamp.
Qed.

Lemma map_fst_stamps ps : forall K, map fst (fold_left (fun K p => stamp_by p K) ps K) = map fst K.
Proof.
  induction ps as [| p ps IH]; intros K; [reflexivity |].
  simpl. rewrite IH. apply map_fst_stamp_by.
Qed.

Lemma reach_ids ok nb nb' e :
  reach ok nb nb' -> table_ids e nb `prefix_of` table_ids e nb'.
Proof.
  intros H. induction H as [| X p nb1 H IH _ | X ps nb1 H IH _].
  - reflexivity.
  - etransitivity; [exact IH |]. unfold table_ids. rewrite create_at_keys.
    destruct (decide (e = X)); [| reflexivity].
    rewrite map_app. apply prefix_app_r. reflexivity.
  - etransitivity; [exact IH |]. unfold table_ids. rewrite update_at_keys.
    destruct (decide (e = X)); [| reflexivity].
    rewrite map_fst_stamps. reflexivity.
Qed.

Lemma reach_next ok nb nb' : reach ok nb nb' -> nb_next_id nb <= nb_next_id nb'.
Proof.
  intros H. induction H as [| X p nb1 H IH _ | X ps nb1 H IH _].
  - lia.
  - rewrite create_at_next. lia.
  - rewrite update_at_next. lia.
Qed.

Lemma reach_extended nb nb' : reach harmless nb nb' -> extended nb nb'.
Proof.
  intros H. induction H as [| X p nb1 H IH _ | X ps nb1 H IH Hok].
  - repeat split; reflexivity.
  - destruct IH as (H1 & H2 & H3 & H4 & H5).
    destruct X; repeat split; simpl;
      first [ assumption
            | etransitivity; [eassumption | apply prefix_app_r; reflexivity] ].
  - destruct IH as (H1 & H2 & H3 & H4 & H5).
    destruct Hok as [-> | [-> | ->]]; [repeat split; assumption.. |].
    destruct X; repeat split; assumption.
Qed.

(** X10.  With both flags off, a pass leaves every tenant, manufacturer,
    device type, site and location of the target as it is: each of the
    five tables is the table of before with the new records after
    it. *)
Theorem flags_off_keep_records (fuel : nat) (self : Syncer) (tenant_desc : string)
    (snipe : Snipe) (nb : NetBox) :
  allow_updates self = false -> allow_linking self = false ->
  extended nb (snd (main fuel self tenant_desc snipe nb)).
Proof.
  intros Hu Hl. apply reach_extended.
  eapply reach_mono; [| apply reaches_main].
  intros [X p | X ps]; [exact (fun H => H) |].
  intros [-> | [-> | Hps]]; [left; reflexivity | right; left; reflexivity |].
  right. right. destruct ps as [| p ps]; [reflexivity |].
  inversion Hps as [| ? ? Hp _]; subst. unfold licensed in Hp.
  destruct (p !! "custom_fields"); congruence.
Qed.

Lemma flags_off_keep_records_witness :
  let self := Sample.syncer false false in
  let nb := Sample.netbox [Sample.tenant 20 "Acme" None] [Sample.site 1 "HQ" None] [] [] [] in
  (allow_updates self = false /\ allow_linking self = false)
  /\ extended nb (snd (main 4 self (desc self) Sample.snipe nb)).
Proof.
  cbv zeta. split; [split; reflexivity |].
  exact (flags_off_keep_records 4 (Sample.syncer false false)
           (desc (Sample.syncer false false)) Sample.snipe
           (Sample.netbox [Sample.tenant 20 "Acme" None] [Sample.site 1 "HQ" None] [] [] [])
           eq_refl eq_refl).
Defined.

(** ** Devices that cannot be updated *)

Lemma matched_key_raises self nb_dt nb_tenant devices role site a d nb :
  List.find (fun item => bool_decide (rec_key item = Some (sa_id a))) devices = Some d ->
  dv_site d = None \/ site_id_of site = None \/ dv_tenant d = None
  \/ nb_tenant = None \/ nb_dt = None ->
  sync_device self nb_dt nb_tenant devices role site a nb = (Raise TypeError, nb).
Proof.
  intros Hk Hr. unfold sync_device. rewrite Hk. unfold bind.
  rewrite update_device_raises by exact Hr. reflexivity.
Qed.

Lemma matched_tag_raises self nb_dt nb_tenant devices role site a d nb :
  List.find (fun item => bool_decide (rec_key item = Some (sa_id a))) devices = None ->
  List.find (fun item => bool_decide (dv_asset_tag item = Some (sa_asset_tag a))) devices
  = Some d ->
  dv_site d = None \/ site_id_of site = None \/ dv_tenant d = None
  \/ nb_tenant = None \/ nb_dt = None ->
  sync_device self nb_dt nb_tenant devices role site a nb = (Raise TypeError, nb).
Proof.
  intros Hk Ht Hr. unfold sync_device. rewrite Hk, Ht. unfold bind.
  rewrite update_device_raises by exact Hr. reflexivity.
Qed.

(** X11.  An asset that matches a device by linkage key or by asset tag
    cannot be reconciled, and nothing is written, when the device has
    no site or no tenant, when the site handed on is the bare name of
    the default site, or when the tenant or the device type of the
    asset is not resolved: [__update_device] raises [TypeError] on the
    first of these that it subscripts. *)
Theorem matched_device_raises (self : Syncer) (nb_device_type : option DeviceType)
    (nb_tenant : option Tenant) (netbox_devices : list Device) (nb_role : DeviceRole)
    (nb_site : SiteArg) (snipe_asset : SnipeAsset) (d : Device) (nb : NetBox) :
  let by_key :=
    List.find (fun item => bool_decide (rec_key item = Some (sa_id snipe_asset)))
              netbox_devices in
  let by_tag :=
    List.find (fun item => bool_decide (dv_asset_tag item = Some (sa_asset_tag snipe_asset)))
              netbox_devices in
  by_key = Some d \/ (by_key = None /\ by_tag = Some d) ->
  dv_site d = None \/ site_id_of nb_site = None \/ dv_tenant d = None
  \/ nb_tenant = None \/ nb_device_type = None ->
  sync_device self nb_device_type nb_tenant netbox_devices nb_role nb_site snipe_asset nb
  = (Raise TypeError, nb).
Proof.
  cbv zeta. intros [Hk | [Hk Ht]] Hr.
  - exact (matched_key_raises _ _ _ _ _ _ _ _ _ Hk Hr).
  - exact (matched_tag_raises _ _ _ _ _ _ _ _ _ Hk Ht Hr).
Qed.

Lemma matched_device_raises_witness :
  let stored := Sample.device 50 (Some "PC") (Some "T1") "S1" (Some 6) in
  sync_device (Sample.syncer true true) (Some (Sample.device_type 40 "XPS" (Some 3)))
              (Some (Sample.tenant 20 "Acme" (Some 1))) [stored]
              (Sample.role 30 "Laptop" None) (SiteStr DEFAULT_SITE_NAME)
              (Sample.asset 6 "PC" "T1" "S1" "Laptop") empty_netbox
  = (Raise TypeError, empty_netbox).
Proof.
  cbv zeta.
  exact (matched_device_raises (Sample.syncer true true)
           (Some (Sample.device_type 40 "XPS" (Some 3)))
           (Some (Sample.tenant 20 "Acme" (Some 1)))
           [Sample.device 50 (Some "PC") (Some "T1") "S1" (Some 6)]
           (Sample.role 30 "Laptop" None) (SiteStr DEFAULT_SITE_NAME)
           (Sample.asset 6 "PC" "T1" "S1" "Laptop")
           (Sample.device 50 (Some "PC") (Some "T1") "S1" (Some 6)) empty_netbox
           (or_introl eq_refl) (or_intror (or_introl eq_refl))).
Defined.

Lemma role_run roles a nb :
  exists rr nb1,
    get_role_from_category roles a nb = (Ok rr, nb1)
    /\ nb_devices nb1 = nb_devices nb
    /\ nb_locations nb1 = nb_locations nb.
Proof.
  unfold get_role_from_category. cbv zeta.
  destruct (get_customfield_from_dict_list roles _) as [r |].
  - eexists _, _. split; [reflexivity | split; reflexivity].
  - destruct (List.find _ roles) as [r |].
    + eexists _, _. split; [reflexivity | split; reflexivity].
    + eexists _, _. split; [reflexivity | split; reflexivity].
Qed.

Lemma stage_one_asset self a nb :
  sync_assets_to_devices self [a] nb
  = (st <- sync_asset self (nb_tenants nb) (nb_locations nb)
                      (map (join_manufacturer (nb_manufacturers nb)) (nb_device_types nb))
                      (nb_device_roles nb, nb_devices nb) a ;;
     ret tt) nb.
Proof.
  unfold sync_assets_to_devices. cbn [for_fold].
  unfold bind, devices_all, tenants_all, locations_all, device_roles_all, device_types_all.
  destruct (sync_asset _ _ _ _ _ a nb) as [[st | e] nb1]; reflexivity.
Qed.

Lemma sync_asset_loose self ts locs dts st a nb :
  sa_company a = None ->
  asset_location locs a = None ->
  sync_asset self ts locs dts st a nb
  = (rr <- get_role_from_category (fst st) a ;;
     netbox_devices <- sync_device self (get_customfield_from_dict_list dts (sa_model a)) None
                                   (snd st) (snd rr) (SiteStr DEFAULT_SITE_NAME) a ;;
     ret (fst rr, netbox_devices)) nb.
Proof.
  intros Hc Hl. unfold sync_asset, asset_site. rewrite Hc, Hl. reflexivity.
Qed.

Lemma stage_loose self a nb rr nbr :
  sa_company a = None ->
  asset_location (nb_locations nb) a = None ->
  get_role_from_category (nb_device_roles nb) a nb = (Ok rr, nbr) ->
  sync_assets_to_devices self [a] nb
  = match sync_device self
            (get_customfield_from_dict_list
               (map (join_manufacturer (nb_manufacturers nb)) (nb_device_types nb))
               (sa_model a))
            None (nb_devices nb) (snd rr) (SiteStr DEFAULT_SITE_NAME) a nbr with
    | (Ok _, nb2) => (Ok tt, nb2)
    | (Raise e, nb2) => (Raise e, nb2)
    end.
Proof.
  intros Hc Hl Er. rewrite stage_one_asset. unfold bind.
  rewrite (sync_asset_loose self _ _ _ _ a nb Hc Hl). unfold bind.
  cbn [fst snd]. rewrite Er. cbn [fst snd].
  destruct (sync_device _ _ _ _ _ _ _ nbr) as [[ds | e] nb2]; reflexivity.
Qed.

(** X12.  An asset with no company and no linked location is reconciled
    once only.  When the device stage returns for it, it has created a
    device without a site; the device stage of the next pass finds that
    device by linkage key and raises [TypeError]. *)
Theorem loose_asset_second_pass_raises (self : Syncer) (a : SnipeAsset) (nb : NetBox) :
  sa_company a = None ->
  asset_location (nb_locations nb) a = None ->
  fst (sync_assets_to_devices self [a] nb) = Ok tt ->
  let nb' := snd (sync_assets_to_devices self [a] nb) in
  (exists dev, nb_devices nb' = (nb_devices nb ++ [dev])%list
               /\ dv_key dev = Some (sa_id a) /\ dv_site dev = None)
  /\ fst (sync_assets_to_devices self [a] nb') = Raise TypeError.
Proof.
  intros Hc Hl H1. cbv zeta.
  assert (Hps : passed_site (SiteStr DEFAULT_SITE_NAME)) by reflexivity.
  destruct (role_run (nb_device_roles nb) a nb) as (rr & nbr & Er & Ed & Eloc).
  rewrite (stage_loose self a nb rr nbr Hc Hl Er) in H1 |- *.
  set (dts := map (join_manufacturer (nb_manufacturers nb)) (nb_device_types nb)) in *.
  destruct (List.find (fun item => bool_decide (rec_key item = Some (sa_id a)))
                      (nb_devices nb)) as [d |] eqn:Ek.
  { rewrite (matched_key_raises self _ None (nb_devices nb) (snd rr) _ a d nbr Ek) in H1
      by (right; right; right; left; reflexivity).
    discriminate H1. }
  destruct (List.find (fun item => bool_decide (dv_asset_tag item = Some (sa_asset_tag a)))
                      (nb_devices nb)) as [d |] eqn:Et.
  { rewrite (matched_tag_raises self _ None (nb_devices nb) (snd rr) _ a d nbr Ek Et) in H1
      by (right; right; right; left; reflexivity).
    discriminate H1. }
  pose proof (sync_device_create_path self
                (get_customfield_from_dict_list dts (sa_model a)) None (nb_devices nb)
                (snd rr) (SiteStr DEFAULT_SITE_NAME) a nbr Hps Ek Et) as Hcp.
  destruct (find_by_name_and_tenant (nb_devices nb) (sa_name a) None) as [collision | e];
    [| rewrite Hcp in H1; discriminate H1].
  destruct (get_customfield_from_dict_list dts (sa_model a)) as [dt |] eqn:Edt;
    [| rewrite Hcp in H1; discriminate H1].
  destruct Hcp as (p & Hrun & _ & _ & _ & _ & _ & _ & _ & Hkey & Hnosite).
  cbv zeta in Hrun, Hkey, Hnosite. rewrite Hrun. cbn [snd].
  set (dev := make_record (nb_next_id nbr) p : Device) in *.
  set (nb' := with_devices (nb_devices nbr ++ [dev]) 1 (Create Devices p) nbr).
  split.
  { exists dev. split; [simpl; rewrite Ed; reflexivity |].
    split; [exact Hkey | exact Hnosite]. }
  destruct (role_run (nb_device_roles nb') a nb') as (rr2 & nbr2 & Er2 & _ & _).
  rewrite (stage_loose self a nb' rr2 nbr2 Hc) ; [| simpl; rewrite Eloc; exact Hl | exact Er2].
  rewrite (matched_key_raises self _ None (nb_devices nb') (snd rr2) _ a dev nbr2).
  - reflexivity.
  - change (nb_devices nb') with (nb_devices nbr ++ [dev])%list.
    rewrite Ed, find_snoc, Ek.
    change (rec_key dev) with (dv_key dev). rewrite Hkey.
    rewrite bool_decide_true by reflexivity. reflexivity.
  - left. exact Hnosite.
Qed.

Lemma loose_asset_second_pass_raises_witness :
  let self := Sample.syncer true true in
  let a := Sample.loose_asset in
  let nb := snd (sync_models_to_device_types self (get_models Sample.snipe)
                   (snd (sync_manufacturers self (get_manufacturers Sample.snipe)
                           empty_netbox))) in
  (sa_company a = None /\ asset_location (nb_locations nb) a = None
   /\ fst (sync_assets_to_devices self [a] nb) = Ok tt)
  /\ fst (sync_assets_to_devices self [a] (snd (sync_assets_to_devices self [a] nb)))
     = Raise TypeError.
Proof.
  cbv zeta.
  assert (H1 : sa_company Sample.loose_asset = None) by reflexivity.
  set (nb := snd (sync_models_to_device_types (Sample.syncer true true)
                    (get_models Sample.snipe)
                    (snd (sync_manufacturers (Sample.syncer true true)
                            (get_manufacturers Sample.snipe) empty_netbox)))).
  assert (H2 : asset_location (nb_locations nb) Sample.loose_asset = None) by reflexivity.
  assert (H3 : fst (sync_assets_to_devices (Sample.syncer true true) [Sample.loose_asset] nb)
               = Ok tt) by (vm_compute; reflexivity).
  split; [split; [exact H1 | split; [exact H2 | exact H3]] |].
  exact (proj2 (loose_asset_second_pass_raises (Sample.syncer true true) Sample.loose_asset
                  nb H1 H2 H3)).
Defined.

(** ** A created device on the next pass *)

Lemma sync_device_creates_on_site self dt tenant devices role sid a nb :
  List.find (fun item => bool_decide (rec_key item = Some (sa_id a))) devices = None ->
  List.find (fun item => bool_decide (dv_asset_tag item = Some (sa_asset_tag a))) devices
  = None ->
  let name :=
    created_name a (List.find (same_name_and_tenant (sa_name a) tenant) devices) in
  exists p,
    let dev : Device := make_record (nb_next_id nb) p in
    sync_device self (Some dt) (Some tenant) devices role (SiteDict sid) a nb
    = (Ok (devices ++ [dev])%list,
       with_devices (nb_devices nb ++ [dev]) 1 (Create Devices p) nb)
    /\ dv_name dev = Some name
    /\ dv_asset_tag dev = Some (sa_asset_tag a)
    /\ dv_serial dev = sa_serial a
    /\ dv_site dev = Some sid
    /\ dv_device_role dev = rl_id role
    /\ dv_tenant dev = Some (tn_id tenant)
    /\ dv_device_type dev = dt_id dt
    /\ dv_key dev = Some (sa_id a).
Proof.
  intros Hk Ht. cbv zeta. unfold sync_device. rewrite Hk, Ht.
  rewrite find_by_name_and_tenant_some.
  unfold created_name.
  set (name := match List.find (same_name_and_tenant (sa_name a) tenant) devices with
               | Some _ => sa_name a ++ " " ++ sa_asset_tag a
               | None => sa_name a
               end).
  eexists. cbv zeta.
  split; [unfold bind, lift, subscript, new_device, site_has_id, site_id, ret, devices_create;
          cbv beta iota zeta; fold name; reflexivity |].
  repeat split; vm_compute; reflexivity.
Qed.

Lemma strip_tag_keeps name tag :
  PyStr.rfind name tag <= 1 -> strip_tag (Some name) tag = Some name.
Proof.
  intros H. unfold strip_tag.
  destruct (Z.ltb_spec 1 (PyStr.rfind name tag)); [lia | reflexivity].
Qed.

Lemma device_changes_none d a role sid tenant dt :
  dv_asset_tag d = Some (sa_asset_tag a) ->
  dv_serial d = sa_serial a ->
  dv_device_role d = rl_id role ->
  dv_device_type d = dt_id dt ->
  device_changes d a role sid tenant dt sid (tn_id tenant) false
  = dict [("id", PInt (dv_id d))].
Proof.
  intros H1 H2 H3 H4. unfold device_changes.
  rewrite H1, H2, H3, H4, !Z.eqb_refl, String.eqb_refl.
  rewrite bool_decide_true by reflexivity. reflexivity.
Qed.

(** X13.  A device that [__sync_device] has created for an asset on a site
    is left alone when the asset comes again: it is found by its
    linkage key, no field differs and no call is made.  The asset has a
    name and a tag; when its name was free, the tag does not occur in
    the name from the third character on. *)
Theorem created_device_is_left_alone (self : Syncer) (dt : DeviceType) (tenant : Tenant)
    (netbox_devices : list Device) (nb_role : DeviceRole) (sid : Z) (a : SnipeAsset)
    (nb : NetBox) :
  List.find (fun item => bool_decide (rec_key item = Some (sa_id a))) netbox_devices = None ->
  List.find (fun item => bool_decide (dv_asset_tag item = Some (sa_asset_tag a)))
            netbox_devices = None ->
  sa_name a <> "" -> sa_asset_tag a <> "" ->
  (List.find (same_name_and_tenant (sa_name a) tenant) netbox_devices = None ->
   PyStr.rfind (sa_name a) (sa_asset_tag a) <= 1) ->
  let run devices :=
    sync_device self (Some dt) (Some tenant) devices nb_role (SiteDict sid) a in
  let first := run netbox_devices nb in
  exists dev,
    fst first = Ok (netbox_devices ++ [dev])%list
    /\ nb_devices (snd first) = (nb_devices nb ++ [dev])%list
    /\ run (netbox_devices ++ [dev])%list (snd first)
       = (Ok (netbox_devices ++ [dev])%list, snd first).
Proof.
  intros Hk Ht Hname Htag Hfree. cbv zeta.
  destruct (sync_device_creates_on_site self dt tenant netbox_devices nb_role sid a nb Hk Ht)
    as (p & Hrun & Hn & Hat & Hse & Hsi & Hro & Hte & Hty & Hkey).
  cbv zeta in Hrun, Hn, Hat, Hse, Hsi, Hro, Hte, Hty, Hkey.
  set (dev := make_record (nb_next_id nb) p : Device) in *.
  exists dev. rewrite Hrun. cbn [fst snd].
  split; [reflexivity |]. split; [reflexivity |].
  set (nb1 := with_devices (nb_devices nb ++ [dev]) 1 (Create Devices p) nb).
  unfold sync_device. rewrite find_snoc, Hk.
  change (rec_key dev) with (dv_key dev). rewrite Hkey.
  rewrite bool_decide_true by reflexivity.
  rewrite (update_device_steps self dev a nb_role (SiteDict sid) sid tenant dt false sid
             (tn_id tenant) Hsi eq_refl Hte).
  rewrite (device_changes_none dev a nb_role sid tenant dt Hat Hse Hro Hty).
  assert (Hold : strip_tag (dv_name dev) (sa_asset_tag a) = Some (sa_name a)).
  { rewrite Hn. unfold created_name.
    destruct (List.find (same_name_and_tenant (sa_name a) tenant) netbox_devices).
    - apply strip_tag_suffix; assumption.
    - apply strip_tag_keeps, Hfree. reflexivity. }
  assert (Hlen : Nat.ltb 0 (String.length (sa_name a)) = true).
  { destruct (sa_name a); [congruence | reflexivity]. }
  unfold name_change. rewrite Hold, Hlen.
  rewrite bool_decide_true by reflexivity.
  reflexivity.
Qed.

Lemma created_device_is_left_alone_witness :
  let a := Sample.asset 6 "PC" "T1" "S1" "Laptop" in
  let run devices :=
    sync_device (Sample.syncer true true) (Some (Sample.device_type 40 "XPS" (Some 3)))
                (Some (Sample.tenant 20 "Acme" (Some 1))) devices
                (Sample.role 30 "Laptop" None) (SiteDict 10) a in
  (sa_name a <> "" /\ sa_asset_tag a <> "" /\ PyStr.rfind (sa_name a) (sa_asset_tag a) <= 1)
  /\ exists dev,
       fst (run [] empty_netbox) = Ok [dev]
       /\ nb_devices (snd (run [] empty_netbox)) = [dev]
       /\ run [dev] (snd (run [] empty_netbox)) = (Ok [dev], snd (run [] empty_netbox)).
Proof.
  cbv zeta.
  assert (H1 : sa_name (Sample.asset 6 "PC" "T1" "S1" "Laptop") <> "") by discriminate.
  assert (H2 : sa_asset_tag (Sample.asset 6 "PC" "T1" "S1" "Laptop") <> "") by discriminate.
  assert (H3 : PyStr.rfind (sa_name (Sample.asset 6 "PC" "T1" "S1" "Laptop"))
                           (sa_asset_tag (Sample.asset 6 "PC" "T1" "S1" "Laptop")) <= 1)
    by (vm_compute; discriminate).
  split; [split; [exact H1 | split; [exact H2 | exact H3]] |].
  exact (created_device_is_left_alone (Sample.syncer true true)
           (Sample.device_type 40 "XPS" (Some 3)) (Sample.tenant 20 "Acme" (Some 1)) []
           (Sample.role 30 "Laptop" None) 10 (Sample.asset 6 "PC" "T1" "S1" "Laptop")
           empty_netbox eq_refl eq_refl H1 H2 (fun _ => H3)).
Defined.

(** ** Nested locations *)

Lemma sub_locations_fold sites lwp :
  Forall (fun sl => sl_parent sl <> None) lwp ->
  forall acc nb,
    for_fold lwp acc
      (fun acc snipe_location =>
         b <- lift (parent_is_no_site sites snipe_location) ;;
         ret (if b then (acc ++ [snipe_location])%list else acc)) nb
    = (Ok (acc ++ List.filter
                    (fun sl => match parent_is_no_site sites sl with
                               | Ok b => b
                               | Raise _ => false
                               end) lwp)%list, nb).
Proof.
  induction 1 as [| sl lwp Hsl _ IH]; intros acc nb.
  - simpl. rewrite app_nil_r. reflexivity.
  - cbn [for_fold List.filter]. unfold bind at 1. unfold bind at 1. unfold lift, ret.
    unfold parent_is_no_site at 1 3.
    destruct (sl_parent sl) as [p |]; [| congruence].
    rewrite IH.
    destruct (bool_decide _); [rewrite <- app_assoc |]; reflexivity.
Qed.

Lemma flat_update_one p (l : list Location) :
  p !! "parent" = None ->
  Forall (fun l => lc_parent l = None) l ->
  Forall (fun l => lc_parent l = None) (update_one p l).
Proof.
  intros Hp H. unfold update_one. apply Forall_map.
  eapply Forall_impl; [exact H |]. intros r Hr. simpl.
  destruct (decide _); [| exact Hr].
  simpl. unfold p_oint. rewrite Hp. exact Hr.
Qed.

Lemma sync_location_flat fuel self sites locs lwp sl nb :
  flat_locations nb -> flat_locations (snd (sync_location fuel self sites locs lwp sl nb)).
Proof.
  intros H. unfold sync_location, out_of_fuel.
  destruct (find_site fuel sites lwp (sl_parent sl)) as [[site |] |]; [| exact H | exact H].
  destruct (List.find _ locs) as [present |].
  - destruct (_ || _); [| exact H].
    destruct (allow_updates self); [| exact H].
    unfold flat_locations. simpl. apply flat_update_one; [reflexivity | exact H].
  - destruct (List.find _ locs) as [present |].
    + destruct (allow_linking self); [| exact H].
      unfold flat_locations. simpl. apply flat_update_one; [reflexivity | exact H].
    + unfold flat_locations. simpl. apply Forall_app. split; [exact H |].
      repeat constructor.
Qed.

Lemma sync_location_raises fuel self sites locs lwp sl nb e :
  fst (sync_location fuel self sites locs lwp sl nb) = Raise e -> e = OutOfFuel.
Proof.
  unfold sync_location, out_of_fuel.
  destruct (find_site fuel sites lwp (sl_parent sl)) as [[site |] |];
    [| discriminate | intros H; injection H as <-; reflexivity].
  destruct (List.find _ locs) as [present |].
  - destruct (_ || _); [| discriminate]. destruct (allow_updates self); discriminate.
  - destruct (List.find _ locs) as [present |]; [| discriminate].
    destruct (allow_linking self); discriminate.
Qed.

Lemma for_each_flat fuel self sites locs lwp l : forall nb,
  flat_locations nb ->
  flat_locations (snd (for_each l (sync_location fuel self sites locs lwp) nb))
  /\ forall e, fst (for_each l (sync_location fuel self sites locs lwp) nb) = Raise e ->
               e = OutOfFuel.
Proof.
  induction l as [| sl l IH]; intros nb H; [split; [exact H | discriminate] |].
  cbn [for_each]. unfold bind.
  pose proof (sync_location_flat fuel self sites locs lwp sl nb H) as H1.
  pose proof (sync_location_raises fuel self sites locs lwp sl nb) as H2.
  destruct (sync_location fuel self sites locs lwp sl nb) as [[[] | e] nb1];
    cbn [fst snd] in H1, H2.
  - apply IH, H1.
  - split; [exact H1 |]. intros e' E. injection E as <-. apply H2. reflexivity.
Qed.

Lemma relationship_flat_raises self locs updates sl nb :
  Forall (fun l => lc_parent l = None) locs ->
  exists e, sync_location_relationship self locs updates sl nb = (Raise e, nb)
            /\ (e = TypeError \/ e = AssertionError).
Proof.
  intros H. unfold sync_location_relationship, assert_some, subscript.
  destruct (List.find (fun item => bool_decide (rec_key item = Some (sl_id sl))) locs)
    as [loc |] eqn:E; [| eexists; split; [reflexivity | tauto]].
  rewrite bind_ret.
  destruct (sl_parent sl) as [parent |]; [| eexists; split; [reflexivity | tauto]].
  rewrite bind_ret.
  destruct (List.find (fun item => bool_decide (rec_key item = Some (ref_id parent))) locs)
    as [ploc |]; [| eexists; split; [reflexivity | tauto]].
  rewrite bind_ret.
  apply find_some in E as [Hin _].
  rewrite Stdlib.Lists.List.Forall_forall in H. rewrite (H loc Hin).
  eexists; split; [reflexivity | tauto].
Qed.

Lemma relationships_flat_raise self s0 rest nb :
  flat_locations nb ->
  exists e, sync_location_relationships self (s0 :: rest) nb = (Raise e, nb)
            /\ (e = TypeError \/ e = AssertionError).
Proof.
  intros Hf.
  destruct (relationship_flat_raises self (nb_locations nb) [] s0 nb Hf) as (e & E & He).
  exists e. split; [| exact He].
  unfold sync_location_relationships, bind, locations_all. cbn [for_fold].
  unfold bind. rewrite E. reflexivity.
Qed.

Lemma nested_locations_fail_run fuel self locations sl nb :
  flat_locations nb ->
  In sl locations -> nested_location nb sl ->
  exists e nb',
    sync_locations fuel self locations nb = (Raise e, nb')
    /\ (e = TypeError \/ e = AssertionError \/ e = OutOfFuel)
    /\ flat_locations nb'.
Proof.
  intros Hflat Hin (p & Hp & Hsite).
  unfold sync_locations.
  set (lwp := List.filter (fun s => negb (bool_decide (sl_parent s = None))) locations).
  assert (Hlwp : Forall (fun sl => sl_parent sl <> None) lwp).
  { apply Stdlib.Lists.List.Forall_forall. intros x Hx. apply filter_In in Hx as [_ Hx].
    destruct (sl_parent x); [discriminate | discriminate Hx]. }
  unfold bind at 1. unfold locations_all. unfold bind at 1. unfold sites_all.
  unfold bind at 1. rewrite (sub_locations_fold (nb_sites nb) lwp Hlwp [] nb).
  cbn [app].
  set (subs := List.filter _ lwp).
  assert (Hsub : In sl subs).
  { apply filter_In. split.
    - apply filter_In. split; [exact Hin |]. rewrite Hp. reflexivity.
    - unfold parent_is_no_site. rewrite Hp, Hsite. reflexivity. }
  unfold bind at 1.
  destruct (for_each_flat fuel self (nb_sites nb) (nb_locations nb) lwp lwp nb Hflat)
    as [Hf Hr].
  destruct (for_each lwp _ nb) as [[[] | e] nb1] eqn:Efe; cbn [fst snd] in Hf, Hr.
  - destruct subs as [| s0 rest]; [destruct Hsub |].
    destruct (relationships_flat_raise self s0 rest nb1 Hf) as (e & -> & He).
    exists e, nb1. split; [reflexivity |]. split; [tauto | exact Hf].
  - exists e, nb1. split; [reflexivity |]. split; [| exact Hf].
    right. right. apply Hr. reflexivity.
Qed.

(** X14.  The engine cannot build a tree of locations on its own.  On a
    target none of whose locations has a parent pointer, the location
    stage raises whenever the source has a location below a location
    that is no site: the second pass reads the id of the parent of a
    target location that has none.  The locations of the first pass
    stay written. *)
Theorem nested_locations_fail (fuel : nat) (self : Syncer) (locations : list SnipeLocation)
    (sl : SnipeLocation) (nb : NetBox) :
  flat_locations nb ->
  In sl locations -> nested_location nb sl ->
  exists e,
    fst (sync_locations fuel self locations nb) = Raise e
    /\ (e = TypeError \/ e = AssertionError \/ e = OutOfFuel)
    /\ flat_locations (snd (sync_locations fuel self locations nb)).
Proof.
  intros Hflat Hin Hn.
  destruct (nested_locations_fail_run fuel self locations sl nb Hflat Hin Hn)
    as (e & nb' & -> & He & Hf).
  exists e. split; [reflexivity | split; assumption].
Qed.

Lemma nested_locations_fail_witness :
  let nb := snd (sync_top_locations_to_sites (Sample.syncer true true)
                   [Sample.hq; Sample.floor; Sample.room] empty_netbox) in
  (flat_locations nb /\ nested_location nb Sample.room)
  /\ exists e,
       fst (sync_locations 5 (Sample.syncer true true)
                           [Sample.hq; Sample.floor; Sample.room] nb) = Raise e
       /\ (e = TypeError \/ e = AssertionError \/ e = OutOfFuel)
       /\ flat_locations
            (snd (sync_locations 5 (Sample.syncer true true)
                                 [Sample.hq; Sample.floor; Sample.room] nb)).
Proof.
  cbv zeta.
  set (nb := snd (sync_top_locations_to_sites (Sample.syncer true true)
                    [Sample.hq; Sample.floor; Sample.room] empty_netbox)).
  assert (H1 : flat_locations nb) by constructor.
  assert (H2 : nested_location nb Sample.room).
  { exists (Sample.ref 5 "Floor"). split; reflexivity. }
  split; [split; [exact H1 | exact H2] |].
  exact (nested_locations_fail 5 (Sample.syncer true true)
           [Sample.hq; Sample.floor; Sample.room] Sample.room nb H1
           (or_intror (or_intror (or_introl eq_refl))) H2).
Defined.

Lemma reach_on_frame X nb nb' :
  reach (fun c => endpoint_of c = X) nb nb' ->
  (X <> Sites -> nb_sites nb' = nb_sites nb)
  /\ (X <> Locations -> nb_locations nb' = nb_locations nb)
  /\ (X <> Devices -> nb_devices nb' = nb_devices nb).
Proof.
  intros H. induction H as [| Y p nb1 H IH Hok | Y ps nb1 H IH Hok].
  - repeat split.
  - simpl in Hok. subst Y. destruct IH as (H1 & H2 & H3).
    destruct X; repeat split; intros Hne; try (exfalso; apply Hne; reflexivity); simpl;
      first [apply H1 | apply H2 | apply H3]; discriminate.
  - simpl in Hok. subst Y. destruct IH as (H1 & H2 & H3).
    destruct X; repeat split; intros Hne; try (exfalso; apply Hne; reflexivity); simpl;
      first [apply H1 | apply H2 | apply H3]; discriminate.
Qed.

Lemma top_location_no_key self sites loc k nb :
  sl_id loc <> k ->
  Forall (fun s => st_key s <> Some k) (nb_sites nb) ->
  Forall (fun s => st_key s <> Some k) (nb_sites (snd (sync_top_location self sites loc nb))).
Proof.
  intros Hne H.
  assert (Hup : forall p : Payload,
             p !! "custom_fields" = None \/ p !! "custom_fields" = Some (PCustom (sl_id loc)) ->
             Forall (fun s => st_key s <> Some k) (update_one p (nb_sites nb))).
  { intros p Hp. unfold update_one. apply Forall_map.
    eapply Forall_impl; [exact H |]. intros s Hs. simpl.
    destruct (decide _); [| exact Hs]. simpl. unfold p_key.
    destruct Hp as [-> | ->]; [exact Hs | congruence]. }
  unfold sync_top_location.
  destruct (List.find _ sites) as [present |].
  - destruct (negb _); [| exact H]. destruct (allow_updates self); [| exact H].
    apply Hup. left. reflexivity.
  - destruct (List.find _ sites) as [present |].
    + destruct (allow_linking self); [| exact H]. apply Hup. right. reflexivity.
    + simpl. apply Forall_app. split; [exact H |].
      repeat constructor. intros E. vm_compute in E. apply Hne. injection E as E. exact E.
Qed.

Lemma top_locations_no_key self locations k nb :
  (forall top, In top locations -> sl_parent top = None -> sl_id top <> k) ->
  Forall (fun s => st_key s <> Some k) (nb_sites nb) ->
  Forall (fun s => st_key s <> Some k)
         (nb_sites (snd (sync_top_locations_to_sites self locations nb))).
Proof.
  intros Htop H. unfold sync_top_locations_to_sites, bind, sites_all.
  set (tops := List.filter (fun s => bool_decide (sl_parent s = None)) locations).
  assert (Ht : forall top, In top tops -> sl_id top <> k).
  { intros top Hin. apply filter_In in Hin as [Hin Hp].
    apply Htop; [exact Hin |]. apply bool_decide_eq_true in Hp. exact Hp. }
  clearbody tops. generalize (nb_sites nb) at 1. intros sites.
  revert nb H. induction tops as [| top tops IH]; intros nb H; [exact H |].
  cbn [for_each]. unfold bind.
  pose proof (top_location_no_key self sites top k nb (Ht top (or_introl eq_refl)) H) as H1.
  destruct (sync_top_location self sites top nb) as [[[] | e] nb1]; simpl in H1.
  - apply IH; [intros x Hx; apply Ht; right; exact Hx | exact H1].
  - exact H1.
Qed.

Lemma no_key_find (sites : list Site) k :
  Forall (fun s => st_key s <> Some k) sites ->
  List.find (fun item => bool_decide (rec_key item = Some k)) sites = None.
Proof.
  intros H. induction H as [| s l Hs _ IH]; [reflexivity |].
  simpl. rewrite bool_decide_false by exact Hs. exact IH.
Qed.

(** X15.  A pass on a source with nested locations fails.  The target has
    no location with a parent pointer; the source has a location below
    a location that is neither a top location nor linked to a site of
    the target.  Then the pass raises, in the location stage at the
    latest, and the device stage is not reached: no device is
    written. *)
Theorem nested_source_fails (fuel : nat) (self : Syncer) (tenant_desc : string)
    (snipe : Snipe) (sl : SnipeLocation) (p : Ref) (nb : NetBox) :
  flat_locations nb ->
  In sl (get_locations snipe) -> sl_parent sl = Some p ->
  (forall top, In top (get_locations snipe) -> sl_parent top = None ->
               sl_id top <> ref_id p) ->
  Forall (fun s => st_key s <> Some (ref_id p)) (nb_sites nb) ->
  exists e,
    fst (main fuel self tenant_desc snipe nb) = Raise e
    /\ nb_devices (snd (main fuel self tenant_desc snipe nb)) = nb_devices nb.
Proof.
  intros Hflat Hin Hp Htop Hkey.
  cut (exists e nb', main fuel self tenant_desc snipe nb = (Raise e, nb')
                     /\ nb_devices nb' = nb_devices nb).
  { intros (e & nb' & -> & Hd). exists e. split; [reflexivity | exact Hd]. }
  unfold main.
  pose proof (reaches_companies _ self tenant_desc (get_companies snipe)
                (on_handler self Tenants) nb) as R1.
  apply reach_on_frame in R1 as (S1 & L1 & D1).
  unfold bind at 1.
  destruct (sync_companies_to_tenants self tenant_desc (get_companies snipe) nb)
    as [[[] | e] nb1]; cbn [snd] in S1, L1, D1;
    [| exists e, nb1; split; [reflexivity | apply D1; discriminate]].
  pose proof (reaches_manufacturers _ self (get_manufacturers snipe)
                (on_handler self Manufacturers) nb1) as R2.
  apply reach_on_frame in R2 as (S2 & L2 & D2).
  unfold bind at 1.
  destruct (sync_manufacturers self (get_manufacturers snipe) nb1)
    as [[[] | e] nb2]; cbn [snd] in S2, L2, D2;
    [| exists e, nb2; split; [reflexivity | rewrite D2, D1; [reflexivity | discriminate..]]].
  pose proof (reaches_models _ self (get_models snipe) (on_handler self DeviceTypes) nb2) as R3.
  apply reach_on_frame in R3 as (S3 & L3 & D3).
  unfold bind at 1.
  destruct (sync_models_to_device_types self (get_models snipe) nb2)
    as [[[] | e] nb3]; cbn [snd] in S3, L3, D3;
    [| exists e, nb3; split;
       [reflexivity | rewrite D3, D2, D1; [reflexivity | discriminate..]]].
  assert (Hkey3 : Forall (fun s => st_key s <> Some (ref_id p)) (nb_sites nb3)).
  { rewrite S3, S2, S1; [exact Hkey | discriminate..]. }
  pose proof (reaches_top_locations _ self (get_locations snipe) (on_handler self Sites) nb3)
    as R4.
  apply reach_on_frame in R4 as (_ & L4 & D4).
  pose proof (top_locations_no_key self (get_locations snipe) (ref_id p) nb3 Htop Hkey3)
    as Hkey4.
  unfold bind at 1.
  destruct (sync_top_locations_to_sites self (get_locations snipe) nb3)
    as [[[] | e] nb4]; cbn [snd] in L4, D4, Hkey4;
    [| exists e, nb4; split;
       [reflexivity | rewrite D4, D3, D2, D1; [reflexivity | discriminate..]]].
  assert (Hflat4 : flat_locations nb4).
  { unfold flat_locations. rewrite L4, L3, L2, L1; [exact Hflat | discriminate..]. }
  assert (Hnested : nested_location nb4 sl).
  { exists p. split; [exact Hp | apply no_key_find, Hkey4]. }
  pose proof (reaches_locations _ fuel self (get_locations snipe)
                (on_handler self Locations) nb4) as R5.
  apply reach_on_frame in R5 as (_ & _ & D5).
  destruct (nested_locations_fail_run fuel self (get_locations snipe) sl nb4 Hflat4 Hin Hnested)
    as (e & nb5 & E5 & _ & _).
  unfold bind at 1. rewrite E5 in D5 |- *. cbn [snd] in D5.
  exists e, nb5. split; [reflexivity |].
  rewrite D5, D4, D3, D2, D1; [reflexivity | discriminate..].
Qed.

Lemma nested_source_fails_witness :
  let snipe := {| get_companies := [Sample.acme]; get_manufacturers := [Sample.dell];
                  get_models := []; get_locations := [Sample.hq; Sample.floor; Sample.room];
                  get_assets := [Sample.asset 6 "PC" "T1" "S1" "Laptop"] |} in
  (flat_locations empty_netbox
   /\ sl_parent Sample.room = Some (Sample.ref 5 "Floor")
   /\ Forall (fun s => st_key s <> Some 5) (nb_sites empty_netbox))
  /\ exists e,
       fst (main 5 (Sample.syncer true true) "Imported from SnipeIT" snipe empty_netbox)
       = Raise e
       /\ nb_devices (snd (main 5 (Sample.syncer true true) "Imported from SnipeIT" snipe
                                empty_netbox))
          = nb_devices empty_netbox.
Proof.
  cbv zeta.
  assert (H1 : flat_locations empty_netbox) by constructor.
  assert (H2 : Forall (fun s => st_key s <> Some 5) (nb_sites empty_netbox)) by constructor.
  split; [split; [exact H1 | split; [reflexivity | exact H2]] |].
  refine (nested_source_fails 5 (Sample.syncer true true) "Imported from SnipeIT"
            {| get_companies := [Sample.acme]; get_manufacturers := [Sample.dell];
               get_models := []; get_locations := [Sample.hq; Sample.floor; Sample.room];
               get_assets := [Sample.asset 6 "PC" "T1" "S1" "Laptop"] |}
            Sample.room (Sample.ref 5 "Floor") empty_netbox H1
            (or_intror (or_intror (or_introl eq_refl))) eq_refl _ H2).
  intros top [<- | [<- | [<- | []]]] Hp; simpl in *; [lia | discriminate | discriminate].
Defined.

(** ** The client of the source system *)

Lemma ceil_div_bounds a b :
  0 < b -> (SnipeClient.ceil_div a b - 1) * b < a <= SnipeClient.ceil_div a b * b.
Proof.
  intros Hb. unfold SnipeClient.ceil_div.
  pose proof (Z.div_mod (- a) b ltac:(lia)) as Hdm.
  pose proof (Z.mod_pos_bound (- a) b Hb) as Hm.
  nia.
Qed.

Lemma py_range_from_one n :
  SnipeClient.py_range 1 n = map (fun k => Z.of_nat (S k)) (seq 0 (Z.to_nat (n - 1))).
Proof.
  unfold SnipeClient.py_range. apply map_ext. intros k. lia.
Qed.

Lemma map_seq_S {B} (f : nat -> B) n :
  f 0%nat :: map (fun k => f (S k)) (seq 0 n) = map f (seq 0 (S n)).
Proof.
  cbn [seq map]. f_equal. rewrite <- seq_shift, map_map. reflexivity.
Qed.

Lemma paged_items_pages {A} (session : SnipeClient.Session A) pagesize :
  0 < pagesize ->
  let n :=
    Z.to_nat (Z.max 1 (SnipeClient.ceil_div (SnipeClient.total (session pagesize 0))
                                            pagesize)) in
  SnipeClient.get_paged_items session pagesize
  = Some (map (fun k => session pagesize (Z.of_nat k * pagesize)) (seq 0 n)).
Proof.
  intros Hp. cbv zeta. unfold SnipeClient.get_paged_items.
  destruct (Z.eqb_spec pagesize 0) as [-> | _]; [lia |].
  f_equal. rewrite py_range_from_one, map_map.
  set (c := SnipeClient.ceil_div (SnipeClient.total (session pagesize 0)) pagesize).
  replace (Z.to_nat (Z.max 1 c)) with (S (Z.to_nat (c - 1))) by lia.
  rewrite <- (map_seq_S (fun k => session pagesize (Z.of_nat k * pagesize))).
  reflexivity.
Qed.

(** X16.  The requests of [__get_paged_items] for a positive page size: one
    request per page, at the offsets 0, pagesize, 2 pagesize, ..., as
    many as the total of the first answer needs and one at least.  The
    last offset is below that total and the next would not be. *)
Theorem paged_items_requests {A : Type} (session : SnipeClient.Session A) (pagesize : Z) :
  0 < pagesize ->
  let count := SnipeClient.total (session pagesize 0) in
  exists n,
    SnipeClient.get_paged_items session pagesize
    = Some (map (fun k => session pagesize (Z.of_nat k * pagesize)) (seq 0 n))
    /\ (1 <= n)%nat
    /\ (0 <= count ->
        (Z.of_nat n - 1) * pagesize < Z.max count 1 <= Z.of_nat n * pagesize).
Proof.
  intros Hp. cbv zeta.
  exists (Z.to_nat (Z.max 1 (SnipeClient.ceil_div (SnipeClient.total (session pagesize 0))
                                                 pagesize))).
  split; [apply paged_items_pages, Hp |]. split; [lia |].
  intros Hc.
  pose proof (ceil_div_bounds (SnipeClient.total (session pagesize 0)) pagesize Hp) as Hb.
  set (c := SnipeClient.ceil_div (SnipeClient.total (session pagesize 0)) pagesize) in *.
  destruct (Z.max_spec 1 c) as [[H1 ->] | [H1 ->]];
    destruct (Z.max_spec (SnipeClient.total (session pagesize 0)) 1)
      as [[H2 ->] | [H2 ->]]; nia.
Qed.

Lemma paged_items_requests_witness :
  let session : SnipeClient.Session Z :=
    fun limit offset => {| SnipeClient.total := 450; SnipeClient.rows := [offset] |} in
  0 < 200
  /\ exists n,
       SnipeClient.get_paged_items session 200
       = Some (map (fun k => session 200 (Z.of_nat k * 200)) (seq 0 n))
       /\ (1 <= n)%nat
       /\ (0 <= SnipeClient.total (session 200 0) ->
           (Z.of_nat n - 1) * 200 < Z.max (SnipeClient.total (session 200 0)) 1
           <= Z.of_nat n * 200).
Proof.
  cbv zeta. assert (H : 0 < 200) by lia. split; [exact H |].
  exact (paged_items_requests
           (fun limit offset => {| SnipeClient.total := 450; SnipeClient.rows := [offset] |})
           200 H).
Defined.

Lemma slices_concat {A} (items : list A) (ps n : nat) :
  concat (map (fun k => take ps (drop (k * ps) items)) (seq 0 n)) = take (n * ps) items.
Proof.
  induction n as [| n IH]; [reflexivity |].
  rewrite seq_S, map_app, concat_app, IH. simpl. rewrite app_nil_r.
  rewrite take_take_drop. f_equal. lia.
Qed.

(** X17.  Paging loses and repeats nothing: from a source that serves a
    fixed list in slices, the rows of the pages, one after the other,
    are that list. *)
Theorem paged_items_reassemble {A : Type} (items : list A) (session : SnipeClient.Session A)
    (pagesize : Z) :
  0 < pagesize -> serves items session ->
  exists pages,
    SnipeClient.get_paged_items session pagesize = Some pages
    /\ SnipeClient.all_rows pages = items.
Proof.
  intros Hp Hs.
  pose proof (paged_items_pages session pagesize Hp) as E. cbv zeta in E.
  eexists. split; [exact E |].
  rewrite (Hs pagesize 0) by lia. cbn [SnipeClient.total].
  set (n := Z.to_nat (Z.max 1 (SnipeClient.ceil_div (Z.of_nat (length items)) pagesize))).
  unfold SnipeClient.all_rows. rewrite map_map.
  rewrite (map_ext _ (fun k => take (Z.to_nat pagesize) (drop (k * Z.to_nat pagesize) items))).
  - rewrite slices_concat. apply take_ge.
    pose proof (ceil_div_bounds (Z.of_nat (length items)) pagesize Hp) as Hb.
    unfold n. nia.
  - intros k. rewrite Hs by lia. cbn [SnipeClient.rows]. do 2 f_equal. lia.
Qed.

Lemma paged_items_reassemble_witness :
  let items := [1; 2; 3; 4; 5] in
  let session : SnipeClient.Session Z :=
    fun limit offset =>
      {| SnipeClient.total := Z.of_nat (length items);
         SnipeClient.rows := take (Z.to_nat limit) (drop (Z.to_nat offset) items) |} in
  (0 < 2 /\ serves items session)
  /\ exists pages,
       SnipeClient.get_paged_items session 2 = Some pages
       /\ SnipeClient.all_rows pages = items.
Proof.
  cbv zeta. assert (H : 0 < 2) by lia.
  assert (S : serves [1; 2; 3; 4; 5]
                (fun limit offset =>
                   {| SnipeClient.total := Z.of_nat (length [1; 2; 3; 4; 5]);
                      SnipeClient.rows :=
                        take (Z.to_nat limit) (drop (Z.to_nat offset) [1; 2; 3; 4; 5]) |})).
  { intros limit offset _ _. reflexivity. }
  split; [split; [exact H | exact S] |].
  exact (paged_items_reassemble [1; 2; 3; 4; 5] _ 2 H S).
Defined.

(** *** Rows without duplicates, in order *)

Lemma append_new_spec {A} `{EqDecision A} (xs : list A) (x : A) :
  NoDup xs ->
  NoDup (SnipeClient.append_new xs x)
  /\ (forall y, y ∈ SnipeClient.append_new xs x <-> y ∈ xs \/ y = x)
  /\ xs `prefix_of` SnipeClient.append_new xs x.
Proof.
  intros Hnd. unfold SnipeClient.append_new.
  destruct (bool_decide_reflect (x ∈ xs)) as [Hin | Hnin].
  - split; [exact Hnd |]. split; [| reflexivity].
    intros y. split; [tauto |]. intros [H | ->]; assumption.
  - split; [| split].
    + apply NoDup_app. split; [exact Hnd |]. split; [| apply NoDup_singleton].
      intros y Hy Hy'. apply list_elem_of_singleton in Hy'. subst y. contradiction.
    + intros y. rewrite elem_of_app, list_elem_of_singleton. tauto.
    + apply prefix_app_r. reflexivity.
Qed.

(** The loop that keeps the rows that pass [keep] and are new. *)
Lemma collect_spec {A} `{EqDecision A} (keep : A -> bool) (l : list A) :
  forall acc,
    NoDup acc ->
    let r := fold_left (fun acc x => if keep x then SnipeClient.append_new acc x else acc)
                       l acc in
    NoDup r
    /\ (forall y, y ∈ r <-> y ∈ acc \/ (y ∈ l /\ keep y = true))
    /\ acc `prefix_of` r.
Proof.
  induction l as [| x l IH]; intros acc Hnd; cbv zeta.
  - simpl. split; [exact Hnd |]. split; [| reflexivity].
    intros y. rewrite elem_of_nil. tauto.
  - cbn [fold_left].
    destruct (keep x) eqn:Ek.
    + destruct (append_new_spec acc x Hnd) as (H1 & H2 & H3).
      destruct (IH _ H1) as (I1 & I2 & I3). cbv zeta in I1, I2, I3.
      split; [exact I1 |]. split; [| etransitivity; eassumption].
      intros y. rewrite I2, H2, elem_of_cons. split.
      * intros [[H | ->] | [H K]]; [tauto | right; split; [left; reflexivity | exact Ek] | tauto].
      * intros [H | [[-> | H] K]]; tauto.
    + destruct (IH _ Hnd) as (I1 & I2 & I3). cbv zeta in I1, I2, I3.
      split; [exact I1 |]. split; [| exact I3].
      intros y. rewrite I2, elem_of_cons. split.
      * intros [H | [H K]]; tauto.
      * intros [H | [[-> | H] K]]; [tauto | congruence | tauto].
Qed.

Lemma insert_sorted_perm {A K} (key : A -> K) (leb : K -> K -> bool) x l :
  SnipeClient.insert_sorted key leb x l ≡ₚ x :: l.
Proof.
  induction l as [| y l IH]; [reflexivity |]. simpl.
  destruct (leb (key x) (key y)); [reflexivity |].
  rewrite IH. apply Permutation_swap.
Qed.

Lemma sorted_perm {A K} (key : A -> K) (leb : K -> K -> bool) l :
  SnipeClient.sorted key leb l ≡ₚ l.
Proof.
  induction l as [| x l IH]; [reflexivity |].
  unfold SnipeClient.sorted in *. simpl. rewrite insert_sorted_perm, IH. reflexivity.
Qed.

Lemma ascending_cons {A K} (key : A -> K) (leb : K -> K -> bool) x l :
  ascending key leb (x :: l)
  <-> (match l with [] => True | y :: _ => leb (key x) (key y) = true end)
      /\ ascending key leb l.
Proof.
  unfold ascending. split.
  - intros H. split.
    + destruct l as [| y l]; [exact I |]. apply (H 0%nat); reflexivity.
    + intros i a b Ha Hb. apply (H (S i)); assumption.
  - intros [H1 H2] i a b Ha Hb. destruct i as [| i].
    + simpl in Ha. injection Ha as <-. destruct l as [| y l]; [discriminate |].
      simpl in Hb. injection Hb as <-. exact H1.
    + apply (H2 i); assumption.
Qed.

Lemma insert_sorted_ascending {A K} (key : A -> K) (leb : K -> K -> bool) x l :
  (forall a b, leb a b = false -> leb b a = true) ->
  ascending key leb l -> ascending key leb (SnipeClient.insert_sorted key leb x l).
Proof.
  intros Htot. induction l as [| y l IH]; intros H.
  - simpl. apply ascending_cons. split; [exact I | exact H].
  - simpl. destruct (leb (key x) (key y)) eqn:E.
    + apply ascending_cons. split; [exact E | exact H].
    + apply ascending_cons in H as [H1 H2]. apply ascending_cons. split; [| apply IH, H2].
      destruct l as [| z l]; simpl.
      * apply Htot, E.
      * destruct (leb (key x) (key z)); [apply Htot, E | exact H1].
Qed.

Lemma sorted_ascending {A K} (key : A -> K) (leb : K -> K -> bool) l :
  (forall a b, leb a b = false -> leb b a = true) ->
  ascending key leb (SnipeClient.sorted key leb l).
Proof.
  intros Htot. induction l as [| x l IH].
  - intros i x y H. discriminate H.
  - unfold SnipeClient.sorted in *. simpl. apply insert_sorted_ascending; assumption.
Qed.

Lemma string_leb_total a b : String.leb a b = false -> String.leb b a = true.
Proof. intros H. destruct (String.leb_total a b) as [E | E]; congruence. Qed.

Lemma z_leb_total a b : Z.leb a b = false -> Z.leb b a = true.
Proof. intros H. apply Z.leb_le. apply Z.leb_gt in H. lia. Qed.

(** X18.  [get_locations] returns every location of the pages once, in the
    order of their names. *)
Theorem get_locations_sorted_unique {A : Type} `{EqDecision A} (name : A -> string)
    (session : SnipeClient.Session A) :
  exists pages locations,
    SnipeClient.get_paged_items session 200 = Some pages
    /\ SnipeClient.get_locations name session = Some locations
    /\ NoDup locations
    /\ ascending name String.leb locations
    /\ forall x, x ∈ locations <-> x ∈ SnipeClient.all_rows pages.
Proof.
  destruct (SnipeClient.get_paged_items session 200) as [pages |] eqn:E;
    [| unfold SnipeClient.get_paged_items in E; discriminate E].
  exists pages. eexists. split; [reflexivity |].
  unfold SnipeClient.get_locations. rewrite E. split; [reflexivity |].
  destruct (collect_spec (fun _ => true) (SnipeClient.all_rows pages) [] NoDup_nil_2)
    as (H1 & H2 & _).
  cbv zeta in H1, H2. split; [| split].
  - rewrite sorted_perm. exact H1.
  - apply sorted_ascending, string_leb_total.
  - intros x. rewrite sorted_perm.
    change (fold_left SnipeClient.append_new (SnipeClient.all_rows pages) [])
      with (fold_left (fun acc x => if (fun _ : A => true) x
                                    then SnipeClient.append_new acc x else acc)
                      (SnipeClient.all_rows pages) []).
    rewrite H2, elem_of_nil. tauto.
Qed.

(** X19.  [get_assets_with_mac] returns once each asset of the pages one of
    whose custom fields has the format mac, whatever the case of the
    letters, and no other. *)
Theorem get_assets_with_mac_filtered {A : Type} `{EqDecision A}
    (custom_fields : A -> list string) (session : SnipeClient.Session A) :
  exists pages assets,
    SnipeClient.get_paged_items session 200 = Some pages
    /\ SnipeClient.get_assets_with_mac custom_fields session = Some assets
    /\ NoDup assets
    /\ forall x,
         x ∈ assets
         <-> x ∈ SnipeClient.all_rows pages
             /\ exists format, In format (custom_fields x) /\ PyStr.lower format = "mac".
Proof.
  destruct (SnipeClient.get_paged_items session 200) as [pages |] eqn:E;
    [| unfold SnipeClient.get_paged_items in E; discriminate E].
  exists pages. eexists. split; [reflexivity |].
  unfold SnipeClient.get_assets_with_mac. rewrite E. split; [reflexivity |].
  destruct (collect_spec (fun x => SnipeClient.custom_fields_has_mac_type (custom_fields x))
              (SnipeClient.all_rows pages) [] NoDup_nil_2) as (H1 & H2 & _).
  cbv zeta in H1, H2. split; [exact H1 |].
  intros x. rewrite H2, elem_of_nil. unfold SnipeClient.custom_fields_has_mac_type.
  rewrite existsb_exists. split.
  - intros [[] | [Hin (f & Hf & Heq)]]. split; [exact Hin |].
    exists f. split; [exact Hf | apply String.eqb_eq, Heq].
  - intros [Hin (f & Hf & Heq)]. right. split; [exact Hin |].
    exists f. split; [exact Hf | apply String.eqb_eq, Heq].
Qed.

Lemma fieldsets_with_mac_filter (response : list SnipeClient.Fieldset) :
  SnipeClient.get_fieldsets_with_mac response
  = map SnipeClient.fs_id
        (List.filter
           (fun fieldset =>
              existsb (fun format => String.eqb (PyStr.lower (PyStr.str_of format)) "mac")
                      (SnipeClient.fs_formats fieldset))
           response).
Proof.
  unfold SnipeClient.get_fieldsets_with_mac.
  set (has_mac := fun fieldset =>
         existsb (fun format => String.eqb (PyStr.lower (PyStr.str_of format)) "mac")
                 (SnipeClient.fs_formats fieldset)).
  assert (G : forall acc,
             fold_left (fun acc fieldset =>
                          if has_mac fieldset
                          then (acc ++ [SnipeClient.fs_id fieldset])%list else acc)
                       response acc
             = (acc ++ map SnipeClient.fs_id (List.filter has_mac response))%list).
  { induction response as [| fs l IH]; intros acc; simpl.
    - rewrite app_nil_r. reflexivity.
    - rewrite IH. destruct (has_mac fs); simpl; [rewrite <- app_assoc |]; reflexivity. }
  exact (G []).
Qed.

Lemma models_fold_split {Model Manuf : Type} `{EqDecision Model} `{EqDecision Manuf}
    (fieldset : Model -> option Z) (manufacturer : Model -> Manuf) (fieldsets : list Z)
    (l : list Model) :
  let ok m := match fieldset m with
              | Some id => bool_decide (id ∈ fieldsets)
              | None => false
              end in
  forall mfs ms,
    fold_left
      (fun '(manufacturers, models) model =>
         match fieldset model with
         | Some id =>
             if bool_decide (id ∈ fieldsets)
             then (SnipeClient.append_new manufacturers (manufacturer model),
                   SnipeClient.append_new models model)
             else (manufacturers, models)
         | None => (manufacturers, models)
         end) l (mfs, ms)
    = (fold_left (fun acc x => if (fun _ : Manuf => true) x
                               then SnipeClient.append_new acc x else acc)
                 (map manufacturer (List.filter ok l)) mfs,
       fold_left (fun acc x => if ok x then SnipeClient.append_new acc x else acc) l ms).
Proof.
  cbv zeta. induction l as [| m l IH]; intros mfs ms; [reflexivity |].
  cbn [fold_left List.filter].
  destruct (fieldset m) as [id |]; [| apply IH].
  destruct (bool_decide (id ∈ fieldsets)); [| apply IH].
  cbn [map fold_left]. apply IH.
Qed.

(** X20.  [get_models_and_manufacturers_with_mac] returns once each model of
    the pages whose fieldset has a field of format mac, and once each
    manufacturer of such a model: every model returned has its
    manufacturer in the list of manufacturers, and every manufacturer
    returned is that of a model returned.  Both lists are in the order
    of their ids. *)
Theorem models_and_manufacturers_agree {Model Manuf : Type} `{EqDecision Model}
    `{EqDecision Manuf} (fieldset : Model -> option Z) (manufacturer : Model -> Manuf)
    (model_id : Model -> Z) (manuf_id : Manuf -> Z)
    (fieldsets_response : list SnipeClient.Fieldset) (session : SnipeClient.Session Model) :
  exists pages manufacturers models,
    SnipeClient.get_paged_items session 100 = Some pages
    /\ SnipeClient.get_models_and_manufacturers_with_mac
         fieldset manufacturer model_id manuf_id fieldsets_response session
       = Some (manufacturers, models)
    /\ NoDup models /\ NoDup manufacturers
    /\ ascending model_id Z.leb models /\ ascending manuf_id Z.leb manufacturers
    /\ (forall m,
          m ∈ models
          <-> m ∈ SnipeClient.all_rows pages
              /\ exists fs format,
                   In fs fieldsets_response
                   /\ fieldset m = Some (SnipeClient.fs_id fs)
                   /\ In format (SnipeClient.fs_formats fs)
                   /\ PyStr.lower (PyStr.str_of format) = "mac")
    /\ (forall mf, mf ∈ manufacturers <-> exists m, m ∈ models /\ manufacturer m = mf).
Proof.
  destruct (SnipeClient.get_paged_items session 100) as [pages |] eqn:E;
    [| unfold SnipeClient.get_paged_items in E; discriminate E].
  exists pages.
  unfold SnipeClient.get_models_and_manufacturers_with_mac. rewrite E.
  set (fieldsets := SnipeClient.get_fieldsets_with_mac fieldsets_response).
  pose proof (models_fold_split fieldset manufacturer fieldsets (SnipeClient.all_rows pages)
                [] []) as Hs.
  cbv zeta in Hs. rewrite Hs. clear Hs.
  set (ok := fun m => match fieldset m with
                      | Some id => bool_decide (id ∈ fieldsets)
                      | None => false
                      end).
  destruct (collect_spec ok (SnipeClient.all_rows pages) [] NoDup_nil_2) as (M1 & M2 & _).
  destruct (collect_spec (fun _ : Manuf => true)
              (map manufacturer (List.filter ok (SnipeClient.all_rows pages))) []
              NoDup_nil_2) as (F1 & F2 & _).
  cbv zeta in M1, M2, F1, F2.
  exists (SnipeClient.sorted manuf_id Z.leb
            (fold_left (fun acc x => if (fun _ : Manuf => true) x
                                     then SnipeClient.append_new acc x else acc)
                       (map manufacturer (List.filter ok (SnipeClient.all_rows pages))) [])),
         (SnipeClient.sorted model_id Z.leb
            (fold_left (fun acc x => if ok x then SnipeClient.append_new acc x else acc)
                       (SnipeClient.all_rows pages) [])).
  split; [reflexivity |]. split; [reflexivity |].
  assert (Hok : forall m,
             ok m = true
             <-> exists fs format,
                   In fs fieldsets_response
                   /\ fieldset m = Some (SnipeClient.fs_id fs)
                   /\ In format (SnipeClient.fs_formats fs)
                   /\ PyStr.lower (PyStr.str_of format) = "mac").
  { intros m. unfold ok, fieldsets. rewrite fieldsets_with_mac_filter.
    destruct (fieldset m) as [id |].
    - rewrite bool_decide_eq_true, list_elem_of_In, in_map_iff. split.
      + intros (fs & <- & Hin). apply filter_In in Hin as [Hin Hmac].
        apply existsb_exists in Hmac as (f & Hf & Heq).
        exists fs, f. repeat split; [exact Hin | exact Hf | apply String.eqb_eq, Heq].
      + intros (fs & f & Hin & Hfs & Hf & Heq). injection Hfs as ->.
        exists fs. split; [reflexivity |]. apply filter_In. split; [exact Hin |].
        apply existsb_exists. exists f. split; [exact Hf | apply String.eqb_eq, Heq].
    - split; [discriminate |]. intros (fs & f & _ & Hfs & _). discriminate Hfs. }
  assert (Hm : forall m,
             m ∈ SnipeClient.sorted model_id Z.leb
                   (fold_left (fun acc x => if ok x then SnipeClient.append_new acc x else acc)
                              (SnipeClient.all_rows pages) [])
             <-> m ∈ SnipeClient.all_rows pages /\ ok m = true).
  { intros m. rewrite sorted_perm, M2, elem_of_nil. tauto. }
  split; [rewrite sorted_perm; exact M1 |].
  split; [rewrite sorted_perm; exact F1 |].
  split; [apply sorted_ascending, z_leb_total |].
  split; [apply sorted_ascending, z_leb_total |].
  split.
  - intros m. rewrite Hm, Hok. reflexivity.
  - intros mf. rewrite sorted_perm, F2, elem_of_nil. split.
    + intros [[] | [Hin _]]. apply list_elem_of_In, in_map_iff in Hin as (m & <- & Hin).
      apply filter_In in Hin as [Hin Ho]. exists m. split; [| reflexivity].
      apply Hm. split; [apply list_elem_of_In, Hin | exact Ho].
    + intros (m & Hin & <-). right. split; [| reflexivity].
      apply Hm in Hin as [Hin Ho]. apply list_elem_of_In, in_map_iff.
      exists m. split; [reflexivity |]. apply filter_In.
      split; [apply list_elem_of_In, Hin | exact Ho].
Qed.

Lemma last_char_str_single url c : SnipeClient.last_char_str url = Some c -> String.length c = 1%nat.
Proof.
  unfold SnipeClient.last_char_str.
  destruct (last (list_ascii_of_string url)); [| discriminate].
  intros H. injection H as <-. reflexivity.
Qed.

Lemma last_char_str_none url : SnipeClient.last_char_str url = None -> url = "".
Proof.
  unfold SnipeClient.last_char_str.
  destruct (last (list_ascii_of_string url)) eqn:E; [discriminate |]. intros _.
  apply last_None in E. destruct url; [reflexivity | discriminate E].
Qed.

(** X21.  The base url of the source API is the given url followed by
    [/api/v1/]: the last character of the url is compared with a text
    of three characters, so a slash at the end of the url is never
    removed.  The empty url raises [IndexError]. *)
Theorem base_url_appends (url : string) :
  SnipeClient.base_url url
  = if String.eqb url "" then None else Some (url ++ "/api/v1/").
Proof.
  unfold SnipeClient.base_url.
  destruct (SnipeClient.last_char_str url) as [c |] eqn:E.
  - destruct (String.eqb_spec url "") as [-> | _]; [discriminate E |].
    apply last_char_str_single in E.
    destruct (String.eqb_spec c " / ") as [-> | _]; [discriminate E | reflexivity].
  - rewrite (last_char_str_none url E). reflexivity.
Qed.

(** ** The custom field of the linkage key *)

Lemma cufi_no_id lock : cufi lock !! "id" = None.
Proof. destruct lock; reflexivity. Qed.

Lemma cufi_name lock (old : CfPayload) :
  (cufi lock ∪ old) !! "name" = Some (CfStr KEY_CUSTOM_FIELD).
Proof. apply lookup_union_Some_l. destruct lock; reflexivity. Qed.

Lemma cufi_twice lock (old : CfPayload) : cufi lock ∪ (cufi lock ∪ old) = cufi lock ∪ old.
Proof. rewrite (assoc_L (∪)). rewrite (idemp_L (∪)). reflexivity. Qed.

Lemma cf_update_named lock (l : list (Z * CfPayload)) (f : Z * CfPayload) :
  NoDup (map fst l) ->
  List.filter (fun f => bool_decide (snd f !! "name" = Some (CfStr KEY_CUSTOM_FIELD))) l = [f] ->
  let l' := cf_update_one (<["id" := CfInt (fst f)]> (cufi lock)) l in
  List.filter (fun f => bool_decide (snd f !! "name" = Some (CfStr KEY_CUSTOM_FIELD))) l'
  = [(fst f, cufi lock ∪ snd f)]
  /\ map fst l' = map fst l
  /\ cf_update_one (<["id" := CfInt (fst f)]> (cufi lock)) l' = l'
  /\ (cufi lock ∪ snd f = snd f -> l' = l).
Proof.
  cbv zeta. unfold cf_update_one.
  rewrite (delete_insert_id (cufi lock) "id") by apply cufi_no_id.
  rewrite lookup_insert_eq.
  set (g := fun f0 : Z * CfPayload =>
              if decide (Some (CfInt (fst f)) = Some (CfInt (fst f0)))
              then (fst f0, cufi lock ∪ snd f0) else f0).
  assert (Hother : forall l0 : list (Z * CfPayload), fst f ∉ map fst l0 -> map g l0 = l0).
  { intros l0 Hn. induction l0 as [| x l0 IH0]; [reflexivity |].
    cbn [map]. unfold g at 1.
    destruct (decide (Some (CfInt (fst f)) = Some (CfInt (fst x)))) as [Heq | _].
    - exfalso. apply Hn. injection Heq as ->. left.
    - f_equal. apply IH0. intros Hin. apply Hn. right. exact Hin. }
  assert (Hg : g f = (fst f, cufi lock ∪ snd f)).
  { unfold g. rewrite decide_True by reflexivity. reflexivity. }
  induction l as [| r l IH]; intros Hnd Hf; [discriminate Hf |].
  change (map fst (r :: l)) with (fst r :: map fst l) in Hnd.
  apply NoDup_cons in Hnd as [Hr Hnd].
  cbn [List.filter] in Hf.
  destruct (bool_decide (snd r !! "name" = Some (CfStr KEY_CUSTOM_FIELD))) eqn:Er.
  - injection Hf as Hrf Hnil. subst r.
    cbn [map]. rewrite Hg, (Hother l Hr). cbn [List.filter fst snd].
    rewrite bool_decide_true by apply cufi_name. rewrite Hnil.
    split; [reflexivity |]. split; [reflexivity |]. split.
    + cbn [map]. rewrite (Hother l Hr). f_equal.
      unfold g. cbn [fst snd]. rewrite decide_True by reflexivity.
      rewrite cufi_twice. reflexivity.
    + intros ->. destruct f; reflexivity.
  - assert (Hin : f ∈ l).
    { apply list_elem_of_In.
      apply (filter_In (fun f => bool_decide (snd f !! "name" = Some (CfStr KEY_CUSTOM_FIELD)))
                       f l).
      rewrite Hf. left. reflexivity. }
    assert (Hne : fst r <> fst f).
    { intros E. apply Hr. rewrite E. apply list_elem_of_fmap_2. exact Hin. }
    assert (Hgr : g r = r).
    { unfold g. rewrite decide_False by congruence. reflexivity. }
    destruct (IH Hnd Hf) as (I1 & I2 & I3 & I4).
    cbn [map]. rewrite Hgr.
    cbn [List.filter]. rewrite Er.
    split; [exact I1 |]. split; [cbn [map]; rewrite I2; reflexivity |]. split.
    + cbn [map]. rewrite Hgr. f_equal. exact I3.
    + intros E. f_equal. apply I4, E.
Qed.

(** X22.  [ensure_netbox_custom_field] settles the custom field of the
    linkage key.  On a target whose custom fields have distinct ids
    below the id counter and at most one of which has the name
    [KEY_CUSTOM_FIELD], the call returns; afterwards exactly one field
    has that name, with the type integer and the visibility that [lock]
    asks for; a field that was there keeps its id and no field is
    added; and a second call leaves the fields as the first left them.
    With two fields of that name the lookup raises and nothing is
    written. *)
Theorem custom_field_ensured (lock : bool) (ex : CustomFields) :
  NoDup (map fst (cf_fields ex)) ->
  Forall (fun f => fst f < cf_next_id ex) (cf_fields ex) ->
  let run := ensure_netbox_custom_field lock in
  let visibility := CfStr (if lock then "read-only" else "read-write") in
  ((length (cf_named KEY_CUSTOM_FIELD ex) <= 1)%nat ->
   fst (run ex) = Ok tt
   /\ (exists f,
         cf_named KEY_CUSTOM_FIELD (snd (run ex)) = [f]
         /\ snd f !! "ui_visibility" = Some visibility
         /\ snd f !! "type" = Some (CfStr "integer")
         /\ (forall g, cf_named KEY_CUSTOM_FIELD ex = [g] ->
                       fst f = fst g
                       /\ map fst (cf_fields (snd (run ex))) = map fst (cf_fields ex)))
   /\ fst (run (snd (run ex))) = Ok tt
   /\ cf_fields (snd (run (snd (run ex)))) = cf_fields (snd (run ex)))
  /\ ((2 <= length (cf_named KEY_CUSTOM_FIELD ex))%nat -> run ex = (Raise ValueError, ex)).
Proof.
  intros Hnd Hlt. cbv zeta. unfold ensure_netbox_custom_field, custom_fields_get.
  assert (Hvis : forall old : CfPayload,
             (cufi lock ∪ old) !! "ui_visibility"
             = Some (CfStr (if lock then "read-only" else "read-write"))
             /\ (cufi lock ∪ old) !! "type" = Some (CfStr "integer")).
  { intros old. split; apply lookup_union_Some_l; destruct lock; reflexivity. }
  destruct (cf_named KEY_CUSTOM_FIELD ex) as [| f [| f2 rest]] eqn:En.
  - split; [| simpl; lia]. intros _. split; [reflexivity |].
    set (ex1 := custom_fields_create (cufi lock) ex).
    assert (En' : cf_named KEY_CUSTOM_FIELD ex1 = [(cf_next_id ex, cufi lock)]).
    { unfold cf_named in *. unfold ex1. cbn [cf_fields custom_fields_create].
      rewrite List.filter_app, En. cbn [List.filter snd].
      rewrite bool_decide_true by (destruct lock; reflexivity). reflexivity. }
    assert (Hnd' : NoDup (map fst (cf_fields ex1))).
    { unfold ex1. cbn [cf_fields custom_fields_create]. rewrite map_app.
      apply NoDup_app. split; [exact Hnd |]. split; [| apply NoDup_singleton].
      intros i Hi Hi'. apply list_elem_of_singleton in Hi'. subst i.
      apply list_elem_of_In, in_map_iff in Hi as (x & Hx & Hin).
      rewrite Stdlib.Lists.List.Forall_forall in Hlt. specialize (Hlt x Hin).
      cbn [fst] in Hx. lia. }
    cbn [snd]. fold ex1. rewrite En'. split.
    { exists (cf_next_id ex, cufi lock). split; [reflexivity |].
      split; [destruct lock; reflexivity |]. split; [destruct lock; reflexivity |].
      intros g Hg. discriminate Hg. }
    split; [reflexivity |].
    destruct (cf_update_named lock (cf_fields ex1) (cf_next_id ex, cufi lock) Hnd' En')
      as (_ & _ & _ & U4).
    cbv zeta in U4. cbn [snd fst custom_fields_update cf_fields fold_left] in U4 |- *.
    apply U4. apply (idemp_L (∪)).
  - split; [| simpl; lia]. intros _. split; [reflexivity |].
    destruct (cf_update_named lock (cf_fields ex) f Hnd En) as (U1 & U2 & U3 & _).
    cbv zeta in U1, U2, U3.
    set (ex1 := custom_fields_update [<["id" := CfInt (fst f)]> (cufi lock)] ex).
    assert (En' : cf_named KEY_CUSTOM_FIELD ex1 = [(fst f, cufi lock ∪ snd f)]) by exact U1.
    cbn [snd fst]. fold ex1. rewrite En'. split.
    { exists (fst f, cufi lock ∪ snd f). split; [reflexivity |].
      split; [apply Hvis |]. split; [apply Hvis |].
      intros g Hg. injection Hg as <-. split; [reflexivity | exact U2]. }
    split; [reflexivity |]. exact U3.
  - split; [simpl; lia |]. intros _. reflexivity.
Qed.

Lemma custom_field_ensured_witness :
  let ex := {| cf_fields := [(7, {[ "name" := CfStr "other" ]})]; cf_next_id := 8;
               cf_calls := [] |} in
  (NoDup (map fst (cf_fields ex)) /\ Forall (fun f => fst f < cf_next_id ex) (cf_fields ex)
   /\ (length (cf_named KEY_CUSTOM_FIELD ex) <= 1)%nat)
  /\ fst (ensure_netbox_custom_field false ex) = Ok tt
  /\ cf_fields (snd (ensure_netbox_custom_field false
                       (snd (ensure_netbox_custom_field false ex))))
     = cf_fields (snd (ensure_netbox_custom_field false ex)).
Proof.
  cbv zeta.
  set (ex := {| cf_fields := [(7, {[ "name" := CfStr "other" ]})]; cf_next_id := 8;
                cf_calls := [] |}).
  assert (H1 : NoDup (map fst (cf_fields ex))) by apply NoDup_singleton.
  assert (H2 : Forall (fun f => fst f < cf_next_id ex) (cf_fields ex))
    by (repeat constructor).
  assert (H3 : (length (cf_named KEY_CUSTOM_FIELD ex) <= 1)%nat) by (vm_compute; lia).
  split; [split; [exact H1 | split; [exact H2 | exact H3]] |].
  destruct (proj1 (custom_field_ensured false ex H1 H2) H3) as (R1 & _ & _ & R4).
  split; [exact R1 | exact R4].
Defined.

(** ** A device that conflicts with itself *)

Lemma rfind_nat_le sub s n : PyStr.rfind_nat sub s = Some n -> (n <= String.length s)%nat.
Proof.
  revert n. induction s as [| c s IH]; intros n; cbn [PyStr.rfind_nat String.length].
  - destruct (String.prefix sub ""); intros H; inversion H; subst; lia.
  - destruct (PyStr.rfind_nat sub s) as [m |].
    + intros H. inversion H; subst. specialize (IH m eq_refl). lia.
    + destruct (String.prefix sub (String c s)); intros H; inversion H; subst; lia.
Qed.

Lemma substring_length_le k s : (String.length (String.substring 0 k s) <= k)%nat.
Proof.
  revert s. induction k as [| k IH]; intros s; destruct s as [| c s]; simpl; try lia.
  specialize (IH s). lia.
Qed.

Lemma strip_tag_cuts name tag :
  1 < PyStr.rfind name tag -> strip_tag (Some name) tag <> Some name.
Proof.
  intros H. unfold strip_tag.
  destruct (Z.ltb_spec 1 (PyStr.rfind name tag)); [| lia].
  unfold PyStr.rfind in *.
  destruct (PyStr.rfind_nat tag name) as [n |] eqn:E; [| lia].
  apply rfind_nat_le in E. unfold PyStr.slice_to. intros Heq. injection Heq as Heq.
  pose proof (substring_length_le (Z.to_nat (Z.of_nat n - 1)) name) as Hl.
  rewrite Heq in Hl. lia.
Qed.

(** X23.  A device conflicts with itself.  The asset has its tag in its name,
    from the third character on, and its device was created under that
    name, which no other device of the site and the tenant carries.
    When the asset comes again, the name with the tag cut off differs
    from the name of the asset, the lookup of a device of that name
    finds the device itself, and the device is renamed: the tag is
    appended to its name. *)
Theorem created_device_renames_itself (self : Syncer) (dt : DeviceType) (tenant : Tenant)
    (netbox_devices : list Device) (nb_role : DeviceRole) (sid : Z) (a : SnipeAsset)
    (nb : NetBox) :
  List.find (fun item => bool_decide (rec_key item = Some (sa_id a))) netbox_devices = None ->
  List.find (fun item => bool_decide (dv_asset_tag item = Some (sa_asset_tag a)))
            netbox_devices = None ->
  List.find (same_name_and_tenant (sa_name a) tenant) netbox_devices = None ->
  List.filter (fun d => bool_decide (dv_name d = Some (sa_name a))
                        && bool_decide (dv_site d = Some sid)
                        && bool_decide (dv_tenant d = Some (tn_id tenant)))
              (nb_devices nb) = [] ->
  1 < PyStr.rfind (sa_name a) (sa_asset_tag a) ->
  let run devices :=
    sync_device self (Some dt) (Some tenant) devices nb_role (SiteDict sid) a in
  let first := run netbox_devices nb in
  exists dev,
    fst first = Ok (netbox_devices ++ [dev])%list
    /\ dv_name dev = Some (sa_name a)
    /\ calls_of (run (netbox_devices ++ [dev])%list) (snd first)
       = [Update Devices
            [dict [("id", PInt (dv_id dev));
                   ("name", PStr (sa_name a ++ " " ++ sa_asset_tag a));
                   ("comments",
                    PStr (gen_update_comment self (dv_comments dev) (Some "Values")))]]].
Proof.
  intros Hk Ht Hfree Hnone Hcut. cbv zeta.
  destruct (sync_device_creates_on_site self dt tenant netbox_devices nb_role sid a nb Hk Ht)
    as (p & Hrun & Hn & Hat & Hse & Hsi & Hro & Hte & Hty & Hkey).
  cbv zeta in Hrun, Hn, Hat, Hse, Hsi, Hro, Hte, Hty, Hkey.
  rewrite Hfree in Hn. unfold created_name in Hn.
  set (dev := make_record (nb_next_id nb) p : Device) in *.
  exists dev. rewrite Hrun. cbn [fst snd].
  split; [reflexivity |]. split; [exact Hn |].
  set (nb1 := with_devices (nb_devices nb ++ [dev]) 1 (Create Devices p) nb).
  unfold sync_device. rewrite find_snoc, Hk.
  change (rec_key dev) with (dv_key dev). rewrite Hkey.
  rewrite bool_decide_true by reflexivity.
  rewrite calls_of_then_ret.
  rewrite (update_device_steps self dev a nb_role (SiteDict sid) sid tenant dt false sid
             (tn_id tenant) Hsi eq_refl Hte).
  rewrite (device_changes_none dev a nb_role sid tenant dt Hat Hse Hro Hty).
  assert (Hlen : Nat.ltb 0 (String.length (sa_name a)) = true).
  { destruct (sa_name a); [| reflexivity].
    unfold PyStr.rfind in Hcut. cbn [PyStr.rfind_nat] in Hcut.
    destruct (String.prefix (sa_asset_tag a) ""); lia. }
  assert (Hget : devices_get (sa_name a) sid (tn_id tenant) nb1 = (Ok (Some dev), nb1)).
  { unfold devices_get, get_one.
    change (nb_devices nb1) with (nb_devices nb ++ [dev])%list.
    rewrite List.filter_app, Hnone. cbn [List.filter app].
    rewrite Hn, Hsi, Hte, !bool_decide_true by reflexivity. reflexivity. }
  assert (Hname : name_change dev a sid tenant (dict [("id", PInt (dv_id dev))]) nb1
                  = (Ok (<["name" := PStr (sa_name a ++ " " ++ sa_asset_tag a)]>
                           (dict [("id", PInt (dv_id dev))])), nb1)).
  { unfold name_change. rewrite Hn, Hlen.
    rewrite bool_decide_false by (apply strip_tag_cuts, Hcut).
    cbn [negb]. unfold bind at 1. unfold bind at 1. rewrite Hget.
    unfold ret. rewrite dict_merge_one. reflexivity. }
  apply calls_of_one. unfold bind. rewrite Hname. rewrite send_update_run.
  reflexivity.
Qed.

Lemma created_device_renames_itself_witness :
  let a := Sample.asset 6 "PC-T1" "T1" "S1" "Laptop" in
  let run devices :=
    sync_device (Sample.syncer true true) (Some (Sample.device_type 40 "XPS" (Some 3)))
                (Some (Sample.tenant 20 "Acme" (Some 1))) devices
                (Sample.role 30 "Laptop" None) (SiteDict 10) a in
  1 < PyStr.rfind (sa_name a) (sa_asset_tag a)
  /\ exists dev,
       fst (run [] empty_netbox) = Ok [dev]
       /\ dv_name dev = Some "PC-T1"
       /\ calls_of (run [dev]) (snd (run [] empty_netbox))
          = [Update Devices
               [dict [("id", PInt (dv_id dev)); ("name", PStr "PC-T1 T1");
                      ("comments",
                       PStr (gen_update_comment (Sample.syncer true true) (dv_comments dev)
                                                (Some "Values")))]]].
Proof.
  cbv zeta.
  assert (H : 1 < PyStr.rfind (sa_name (Sample.asset 6 "PC-T1" "T1" "S1" "Laptop"))
                              (sa_asset_tag (Sample.asset 6 "PC-T1" "T1" "S1" "Laptop")))
    by (vm_compute; reflexivity).
  split; [exact H |].
  exact (created_device_renames_itself (Sample.syncer true true)
           (Sample.device_type 40 "XPS" (Some 3)) (Sample.tenant 20 "Acme" (Some 1)) []
           (Sample.role 30 "Laptop" None) 10 (Sample.asset 6 "PC-T1" "T1" "S1" "Laptop")
           empty_netbox eq_refl eq_refl eq_refl eq_refl H).
Defined.

(** ** Handling a record again *)

Section Refind.

Context {A : Type} `{Target A}.
Hypothesis law_key : forall q r, rec_key (rec_apply q r) = p_key q (rec_key r).
Hypothesis law_id : forall q r, rec_id (rec_apply q r) = rec_id r.

Lemma refind_plain (p : Payload) (l : list A) (k : Z) (t : A) :
  p !! "custom_fields" = None ->
  p !! "id" = Some (PInt (rec_id t)) ->
  List.find (fun item => bool_decide (rec_key item = Some k)) l = Some t ->
  List.find (fun item => bool_decide (rec_key item = Some k)) (update_one p l)
  = Some (rec_apply p t).
Proof.
  intros Hp Hid. unfold update_one.
  induction l as [| r l IH]; [discriminate |]. cbn [List.find map].
  assert (Hk : forall x, rec_key (if decide (p !! "id" = Some (PInt (rec_id x)))
                                  then rec_apply p x else x) = rec_key x).
  { intros x. destruct (decide _); [| reflexivity].
    rewrite law_key. unfold p_key. rewrite Hp. reflexivity. }
  rewrite Hk.
  destruct (bool_decide (rec_key r = Some k)).
  - intros E. injection E as ->. rewrite decide_True by exact Hid. reflexivity.
  - exact IH.
Qed.

Lemma refind_stamp (p : Payload) (l : list A) (k : Z) (t : A) :
  p !! "custom_fields" = Some (PCustom k) ->
  p !! "id" = Some (PInt (rec_id t)) ->
  NoDup (map rec_id l) -> In t l ->
  List.find (fun item => bool_decide (rec_key item = Some k)) l = None ->
  List.find (fun item => bool_decide (rec_key item = Some k)) (update_one p l)
  = Some (rec_apply p t).
Proof.
  intros Hp Hid. unfold update_one.
  induction l as [| r l IH]; intros Hnd Hin Hnone; [destruct Hin |].
  change (map rec_id (r :: l)) with (rec_id r :: map rec_id l) in Hnd.
  apply NoDup_cons in Hnd as [Hr Hnd].
  cbn [List.find] in Hnone.
  destruct (bool_decide (rec_key r = Some k)) eqn:Ek; [discriminate Hnone |].
  cbn [map List.find].
  destruct Hin as [-> | Hin].
  - rewrite decide_True by exact Hid.
    rewrite law_key. unfold p_key. rewrite Hp.
    rewrite bool_decide_true by reflexivity. reflexivity.
  - assert (Hne : rec_id r <> rec_id t).
    { intros E. apply Hr. rewrite E. apply list_elem_of_In, in_map, Hin. }
    rewrite decide_False by (rewrite Hid; congruence).
    rewrite Ek. apply IH; assumption.
Qed.

End Refind.

Lemma tenant_law_key (q : Payload) (r : Tenant) :
  rec_key (rec_apply q r) = p_key q (rec_key r).
Proof. reflexivity. Qed.

Lemma manufacturer_law_key (q : Payload) (r : Manufacturer) :
  rec_key (rec_apply q r) = p_key q (rec_key r).
Proof. reflexivity. Qed.

Lemma site_law_key (q : Payload) (r : Site) :
  rec_key (rec_apply q r) = p_key q (rec_key r).
Proof. reflexivity. Qed.

Lemma location_law_key (q : Payload) (r : Location) :
  rec_key (rec_apply q r) = p_key q (rec_key r).
Proof. reflexivity. Qed.

Ltac rerun_close :=
  apply calls_of_none; reflexivity.

Ltac refind_updated law t Ek :=
  match goal with
  | |- context [List.find _ (update_one ?p ?l)] =>
      rewrite (refind_plain law p l _ t eq_refl eq_refl Ek)
  end.

Ltac refind_stamped law t Hnd Hin Ek :=
  match goal with
  | |- context [List.find _ (update_one ?p ?l)] =>
      rewrite (refind_stamp law p l _ t eq_refl eq_refl Hnd Hin Ek)
  end.

Lemma company_rerun self desc c nb :
  NoDup (map tn_id (nb_tenants nb)) ->
  let nb1 := snd (sync_company self desc (nb_tenants nb) c nb) in
  calls_of (sync_company self desc (nb_tenants nb1) c) nb1 = [].
Proof.
  intros Hnd. cbv zeta. unfold sync_company at 2.
  destruct (List.find (fun item => bool_decide (rec_key item = Some (ref_id c)))
                      (nb_tenants nb)) as [t |] eqn:Ek.
  - destruct (String.eqb_spec (tn_name t) (ref_name c)) as [En | En]; cbn [negb].
    + cbn [snd ret]. unfold sync_company. rewrite Ek, En, String.eqb_refl. rerun_close.
    + destruct (allow_updates self) eqn:Hu.
      * cbn [snd tenants_update]. unfold sync_company.
        change (nb_tenants (with_tenants _ _ _ nb)) with
          (update_all [dict [("id", PInt (tn_id t)); ("name", PStr (ref_name c));
                             ("slug", PStr (slugify (ref_name c)));
                             ("description", PStr (PyStr.replace desc "Imported" "Updated"))]]
                      (nb_tenants nb)).
        cbn [update_all fold_left].
        refind_updated tenant_law_key t Ek.
        replace (tn_name (rec_apply _ t)) with (ref_name c) by reflexivity.
        rewrite String.eqb_refl. rerun_close.
      * cbn [snd ret]. unfold sync_company. rewrite Ek.
        destruct (String.eqb_spec (tn_name t) (ref_name c)); [contradiction |].
        cbn [negb]. rewrite Hu. rerun_close.
  - destruct (List.find (fun item => String.eqb (tn_name item) (ref_name c)) (nb_tenants nb))
      as [t |] eqn:En.
    + destruct (allow_linking self) eqn:Hl.
      * cbn [snd tenants_update]. unfold sync_company.
        change (nb_tenants (with_tenants _ _ _ nb)) with
          (update_all [dict [("id", PInt (tn_id t));
                             ("description", PStr (PyStr.replace desc "Imported" "Updated"));
                             ("custom_fields", PCustom (ref_id c))]]
                      (nb_tenants nb)).
        cbn [update_all fold_left].
        apply find_some in En as [Hin En]. apply String.eqb_eq in En.
        refind_stamped tenant_law_key t Hnd Hin Ek.
        replace (tn_name (rec_apply _ t)) with (tn_name t) by reflexivity.
        rewrite En, String.eqb_refl. rerun_close.
      * cbn [snd ret]. unfold sync_company. rewrite Ek, En, Hl. rerun_close.
    + unfold bind, tenants_create. cbn [snd ret]. unfold sync_company.
      change (nb_tenants (with_tenants _ _ _ nb)) with
        (nb_tenants nb
         ++ [make_record (nb_next_id nb)
               (dict [("name", PStr (ref_name c)); ("slug", PStr (slugify (ref_name c)));
                      ("description", PStr desc);
                      ("custom_fields", PCustom (ref_id c))])])%list.
      rewrite find_snoc, Ek.
      replace (bool_decide (rec_key (make_record _ _ : Tenant) = Some (ref_id c))) with true
        by (symmetry; apply bool_decide_eq_true; reflexivity).
      replace (tn_name (make_record _ _)) with (ref_name c) by reflexivity.
      rewrite String.eqb_refl. rerun_close.
Qed.

Lemma manufacturer_rerun self c nb :
  NoDup (map mf_id (nb_manufacturers nb)) ->
  let nb1 := snd (sync_manufacturer self (nb_manufacturers nb) c nb) in
  calls_of (sync_manufacturer self (nb_manufacturers nb1) c) nb1 = [].
Proof.
  intros Hnd. cbv zeta. unfold sync_manufacturer at 2.
  destruct (List.find (fun item => bool_decide (rec_key item = Some (ref_id c)))
                      (nb_manufacturers nb)) as [t |] eqn:Ek.
  - destruct (String.eqb_spec (mf_name t) (ref_name c)) as [En | En]; cbn [negb].
    + cbn [snd ret]. unfold sync_manufacturer. rewrite Ek, En, String.eqb_refl. rerun_close.
    + destruct (allow_updates self) eqn:Hu.
      * cbn [snd manufacturers_update]. unfold sync_manufacturer.
        change (nb_manufacturers (with_manufacturers ?l _ _ nb)) with l.
        cbn [update_all fold_left].
        refind_updated manufacturer_law_key t Ek.
        replace (mf_name (rec_apply _ t)) with (ref_name c) by reflexivity.
        rewrite String.eqb_refl. rerun_close.
      * cbn [snd ret]. unfold sync_manufacturer. rewrite Ek.
        destruct (String.eqb_spec (mf_name t) (ref_name c)); [contradiction |].
        cbn [negb]. rewrite Hu. rerun_close.
  - destruct (List.find (fun item => String.eqb (mf_name item) (ref_name c))
                        (nb_manufacturers nb)) as [t |] eqn:En.
    + destruct (allow_linking self) eqn:Hl.
      * cbn [snd manufacturers_update]. unfold sync_manufacturer.
        change (nb_manufacturers (with_manufacturers ?l _ _ nb)) with l.
        cbn [update_all fold_left].
        apply find_some in En as [Hin En]. apply String.eqb_eq in En.
        refind_stamped manufacturer_law_key t Hnd Hin Ek.
        replace (mf_name (rec_apply _ t)) with (mf_name t) by reflexivity.
        rewrite En, String.eqb_refl. rerun_close.
      * cbn [snd ret]. unfold sync_manufacturer. rewrite Ek, En, Hl. rerun_close.
    + unfold bind, manufacturers_create. cbn [snd ret]. unfold sync_manufacturer.
      change (nb_manufacturers (with_manufacturers ?l _ _ nb)) with l.
      rewrite find_snoc, Ek.
      replace (bool_decide (rec_key (make_record _ _ : Manufacturer) = Some (ref_id c)))
        with true by (symmetry; apply bool_decide_eq_true; reflexivity).
      replace (mf_name (make_record _ _)) with (ref_name c) by reflexivity.
      rewrite String.eqb_refl. rerun_close.
Qed.

Lemma top_location_rerun self c nb :
  NoDup (map st_id (nb_sites nb)) ->
  let nb1 := snd (sync_top_location self (nb_sites nb) c nb) in
  calls_of (sync_top_location self (nb_sites nb1) c) nb1 = [].
Proof.
  intros Hnd. cbv zeta. unfold sync_top_location at 2.
  destruct (List.find (fun item => bool_decide (rec_key item = Some (sl_id c)))
                      (nb_sites nb)) as [t |] eqn:Ek.
  - destruct (String.eqb_spec (st_name t) (sl_name c)) as [En | En]; cbn [negb].
    + cbn [snd ret]. unfold sync_top_location. rewrite Ek, En, String.eqb_refl. rerun_close.
    + destruct (allow_updates self) eqn:Hu.
      * cbn [snd sites_update]. unfold sync_top_location.
        change (nb_sites (with_sites ?l _ _ nb)) with l.
        cbn [update_all fold_left].
        refind_updated site_law_key t Ek.
        replace (st_name (rec_apply _ t)) with (sl_name c) by reflexivity.
        rewrite String.eqb_refl. rerun_close.
      * cbn [snd ret]. unfold sync_top_location. rewrite Ek.
        destruct (String.eqb_spec (st_name t) (sl_name c)); [contradiction |].
        cbn [negb]. rewrite Hu. rerun_close.
  - destruct (List.find (fun item => String.eqb (st_name item) (sl_name c))
                        (nb_sites nb)) as [t |] eqn:En.
    + destruct (allow_linking self) eqn:Hl.
      * cbn [snd sites_update]. unfold sync_top_location.
        change (nb_sites (with_sites ?l _ _ nb)) with l.
        cbn [update_all fold_left].
        apply find_some in En as [Hin En]. apply String.eqb_eq in En.
        refind_stamped site_law_key t Hnd Hin Ek.
        replace (st_name (rec_apply _ t)) with (st_name t) by reflexivity.
        rewrite En, String.eqb_refl. rerun_close.
      * cbn [snd ret]. unfold sync_top_location. rewrite Ek, En, Hl. rerun_close.
    + unfold bind, sites_create. cbn [snd ret]. unfold sync_top_location.
      change (nb_sites (with_sites ?l _ _ nb)) with l.
      rewrite find_snoc, Ek.
      replace (bool_decide (rec_key (make_record _ _ : Site) = Some (sl_id c)))
        with true by (symmetry; apply bool_decide_eq_true; reflexivity).
      replace (st_name (make_record _ _)) with (sl_name c) by reflexivity.
      rewrite String.eqb_refl. rerun_close.
Qed.

Lemma location_rerun fuel self sites lwp site c nb :
  find_site fuel sites lwp (sl_parent c) = Some (Some site) ->
  NoDup (map lc_id (nb_locations nb)) ->
  let nb1 := snd (sync_location fuel self sites (nb_locations nb) lwp c nb) in
  calls_of (sync_location fuel self sites (nb_locations nb1) lwp c) nb1 = [].
Proof.
  intros Hsite Hnd. cbv zeta. unfold sync_location at 2. rewrite Hsite.
  destruct (List.find (fun item => bool_decide (rec_key item = Some (sl_id c)))
                      (nb_locations nb)) as [t |] eqn:Ek.
  - destruct (negb (String.eqb (lc_name t) (sl_name c))
              || negb (Z.eqb (lc_site t) (st_id site))) eqn:Ed.
    + destruct (allow_updates self) eqn:Hu.
      * cbn [snd locations_update]. unfold sync_location. rewrite Hsite.
        change (nb_locations (with_locations ?l _ _ nb)) with l.
        cbn [update_all fold_left].
        refind_updated location_law_key t Ek.
        replace (lc_name (rec_apply _ t)) with (sl_name c) by reflexivity.
        replace (lc_site (rec_apply _ t)) with (st_id site) by reflexivity.
        rewrite String.eqb_refl, Z.eqb_refl. rerun_close.
      * cbn [snd ret]. unfold sync_location. rewrite Hsite, Ek, Ed, Hu. rerun_close.
    + cbn [snd ret]. unfold sync_location. rewrite Hsite, Ek, Ed. rerun_close.
  - destruct (List.find (fun item => String.eqb (lc_name item) (sl_name c)
                                     && Z.eqb (lc_site item) (st_id site))
                        (nb_locations nb)) as [t |] eqn:En.
    + destruct (allow_linking self) eqn:Hl.
      * cbn [snd locations_update]. unfold sync_location. rewrite Hsite.
        change (nb_locations (with_locations ?l _ _ nb)) with l.
        cbn [update_all fold_left].
        apply find_some in En as [Hin En]. apply andb_prop in En as [En Es].
        apply String.eqb_eq in En. apply Z.eqb_eq in Es.
        refind_stamped location_law_key t Hnd Hin Ek.
        replace (lc_name (rec_apply _ t)) with (lc_name t) by reflexivity.
        replace (lc_site (rec_apply _ t)) with (lc_site t) by reflexivity.
        rewrite En, Es, String.eqb_refl, Z.eqb_refl. rerun_close.
      * cbn [snd ret]. unfold sync_location. rewrite Hsite, Ek, En, Hl. rerun_close.
    + unfold bind, locations_create. cbn [snd ret]. unfold sync_location. rewrite Hsite.
      change (nb_locations (with_locations ?l _ _ nb)) with l.
      rewrite find_snoc, Ek.
      replace (bool_decide (rec_key (make_record _ _ : Location) = Some (sl_id c)))
        with true by (symmetry; apply bool_decide_eq_true; reflexivity).
      replace (lc_name (make_record _ _)) with (sl_name c) by reflexivity.
      replace (lc_site (make_record _ _)) with (st_id site) by reflexivity.
      rewrite String.eqb_refl, Z.eqb_refl. rerun_close.
Qed.

(** X24.  Handling a source record again changes nothing.  For a company, a
    manufacturer, a top location and a location whose walk ends at a
    site: when the handler has run on the table of the target, whose
    ids are distinct, and runs again on the table read afresh, it makes
    no call, whatever the flags and whatever the first run did
    (create, link, update or skip). *)
Theorem handled_again_no_call (self : Syncer) (it : Item) (nb : NetBox) :
  is_model it = false ->
  item_resolved it ->
  it = item_refresh it nb ->
  NoDup (table_ids (item_endpoint it) nb) ->
  let nb1 := snd (item_run self it nb) in
  calls_of (item_run self (item_refresh it nb1)) nb1 = [].
Proof.
  intros Hm Hres Hfresh Hnd. cbv zeta.
  assert (Hids : forall A `{Target A} (l : list A), map fst (keys_of l) = map rec_id l).
  { intros A HA l. unfold keys_of. rewrite map_map. reflexivity. }
  destruct it as [desc l c | l c | dts ms manuf model | l c | fuel sites l lwp site c];
    [| | discriminate Hm | |];
    unfold table_ids, item_endpoint, table_keys in Hnd; rewrite Hids in Hnd;
    simpl in Hfresh; injection Hfresh as ->; simpl.
  - apply company_rerun, Hnd.
  - apply manufacturer_rerun, Hnd.
  - apply top_location_rerun, Hnd.
  - apply (location_rerun fuel self sites lwp site c nb Hres Hnd).
Qed.

Lemma handled_again_no_call_witness :
  let self := Sample.syncer true true in
  let nb := Sample.netbox [Sample.tenant 20 "Acme" None] [] [] [] [] in
  let it := ItemCompany "Imported from SnipeIT" (nb_tenants nb) Sample.acme in
  (is_model it = false /\ item_resolved it /\ it = item_refresh it nb
   /\ NoDup (table_ids (item_endpoint it) nb))
  /\ calls_of (item_run self it) nb
     = [Update Tenants [dict [("id", PInt 20);
                              ("description", PStr "Updated from SnipeIT");
                              ("custom_fields", PCustom 1)]]]
  /\ calls_of (item_run self (item_refresh it (snd (item_run self it nb))))
              (snd (item_run self it nb)) = [].
Proof.
  cbv zeta.
  set (nb := Sample.netbox [Sample.tenant 20 "Acme" None] [] [] [] []).
  set (it := ItemCompany "Imported from SnipeIT" (nb_tenants nb) Sample.acme).
  assert (H1 : is_model it = false) by reflexivity.
  assert (H2 : item_resolved it) by exact I.
  assert (H3 : it = item_refresh it nb) by reflexivity.
  assert (H4 : NoDup (table_ids (item_endpoint it) nb)) by apply NoDup_singleton.
  split; [split; [exact H1 | split; [exact H2 | split; [exact H3 | exact H4]]] |].
  split; [vm_compute; reflexivity |].
  exact (handled_again_no_call (Sample.syncer true true) it nb H1 H2 H3 H4).
Defined.

(** ** A first import *)

Lemma company_on_empty self desc c nb :
  exists r : Tenant,
    sync_company self desc [] c nb
    = (Ok tt, with_tenants (nb_tenants nb ++ [r]) 1
                (Create Tenants
                   (dict [("name", PStr (ref_name c)); ("slug", PStr (slugify (ref_name c)));
                          ("description", PStr desc);
                          ("custom_fields", PCustom (ref_id c))])) nb)
    /\ tn_name r = ref_name c /\ tn_key r = Some (ref_id c).
Proof. eexists. split; [reflexivity |]. split; reflexivity. Qed.

Lemma manufacturer_on_empty self c nb :
  exists r : Manufacturer,
    sync_manufacturer self [] c nb
    = (Ok tt, with_manufacturers (nb_manufacturers nb ++ [r]) 1
                (Create Manufacturers
                   (dict [("name", PStr (ref_name c)); ("slug", PStr (slugify (ref_name c)));
                          ("description", PStr (desc self));
                          ("custom_fields", PCustom (ref_id c))])) nb)
    /\ mf_name r = ref_name c /\ mf_key r = Some (ref_id c).
Proof. eexists. split; [reflexivity |]. split; reflexivity. Qed.

Lemma top_location_on_empty self c nb :
  exists r : Site,
    sync_top_location self [] c nb
    = (Ok tt, with_sites (nb_sites nb ++ [r]) 1
                (Create Sites
                   (dict [("name", PStr (sl_name c)); ("slug", PStr (slugify (sl_name c)));
                          ("description", PStr (desc self)); ("status", PStr "active");
                          ("custom_fields", PCustom (sl_id c))])) nb)
    /\ st_name r = sl_name c /\ st_key r = Some (sl_id c).
Proof. eexists. split; [reflexivity |]. split; reflexivity. Qed.

Lemma companies_on_empty self desc cs : forall nb,
  fst (for_each cs (sync_company self desc []) nb) = Ok tt
  /\ map (fun t => (tn_name t, tn_key t))
         (nb_tenants (snd (for_each cs (sync_company self desc []) nb)))
     = (map (fun t => (tn_name t, tn_key t)) (nb_tenants nb)
        ++ map (fun c => (ref_name c, Some (ref_id c))) cs)%list.
Proof.
  induction cs as [| c cs IH]; intros nb.
  - split; [reflexivity |]. simpl. rewrite app_nil_r. reflexivity.
  - cbn [for_each]. unfold bind.
    destruct (company_on_empty self desc c nb) as (r & -> & Hn & Hk).
    match goal with
    | |- context [for_each cs _ ?s] => destruct (IH s) as [I1 I2]
    end.
    split; [exact I1 |]. rewrite I2.
    cbn [nb_tenants with_tenants map]. rewrite map_app, <- app_assoc.
    cbn [map app]. rewrite Hn, Hk. reflexivity.
Qed.

Lemma manufacturers_on_empty self cs : forall nb,
  fst (for_each cs (sync_manufacturer self []) nb) = Ok tt
  /\ map (fun t => (mf_name t, mf_key t))
         (nb_manufacturers (snd (for_each cs (sync_manufacturer self []) nb)))
     = (map (fun t => (mf_name t, mf_key t)) (nb_manufacturers nb)
        ++ map (fun c => (ref_name c, Some (ref_id c))) cs)%list.
Proof.
  induction cs as [| c cs IH]; intros nb.
  - split; [reflexivity |]. simpl. rewrite app_nil_r. reflexivity.
  - cbn [for_each]. unfold bind.
    destruct (manufacturer_on_empty self c nb) as (r & -> & Hn & Hk).
    match goal with
    | |- context [for_each cs _ ?s] => destruct (IH s) as [I1 I2]
    end.
    split; [exact I1 |]. rewrite I2.
    cbn [nb_manufacturers with_manufacturers map]. rewrite map_app, <- app_assoc.
    cbn [map app]. rewrite Hn, Hk. reflexivity.
Qed.

Lemma top_locations_on_empty self cs : forall nb,
  fst (for_each cs (sync_top_location self []) nb) = Ok tt
  /\ map (fun t => (st_name t, st_key t))
         (nb_sites (snd (for_each cs (sync_top_location self []) nb)))
     = (map (fun t => (st_name t, st_key t)) (nb_sites nb)
        ++ map (fun c => (sl_name c, Some (sl_id c))) cs)%list.
Proof.
  induction cs as [| c cs IH]; intros nb.
  - split; [reflexivity |]. simpl. rewrite app_nil_r. reflexivity.
  - cbn [for_each]. unfold bind.
    destruct (top_location_on_empty self c nb) as (r & -> & Hn & Hk).
    match goal with
    | |- context [for_each cs _ ?s] => destruct (IH s) as [I1 I2]
    end.
    split; [exact I1 |]. rewrite I2.
    cbn [nb_sites with_sites map]. rewrite map_app, <- app_assoc.
    cbn [map app]. rewrite Hn, Hk. reflexivity.
Qed.

(** X25.  A first import mirrors the source list, repeats included.  On an
    empty table the stage of the tenants, of the manufacturers and of
    the sites returns and creates one record for each source record, in
    the order of the source, with the name and the id of the source
    record: the snapshot of a stage is not refreshed by the creates of
    the stage, so a source record that comes twice is created twice. *)
Theorem first_import_mirrors_source (self : Syncer) (desc : string) (companies : list Ref)
    (manufacturers : list Ref) (locations : list SnipeLocation) (nb : NetBox) :
  (nb_tenants nb = [] ->
   let run := sync_companies_to_tenants self desc companies nb in
   fst run = Ok tt
   /\ map (fun t => (tn_name t, tn_key t)) (nb_tenants (snd run))
      = map (fun c => (ref_name c, Some (ref_id c))) companies)
  /\ (nb_manufacturers nb = [] ->
      let run := sync_manufacturers self manufacturers nb in
      fst run = Ok tt
      /\ map (fun t => (mf_name t, mf_key t)) (nb_manufacturers (snd run))
         = map (fun c => (ref_name c, Some (ref_id c))) manufacturers)
  /\ (nb_sites nb = [] ->
      let run := sync_top_locations_to_sites self locations nb in
      fst run = Ok tt
      /\ map (fun t => (st_name t, st_key t)) (nb_sites (snd run))
         = map (fun c => (sl_name c, Some (sl_id c)))
               (List.filter (fun s => bool_decide (sl_parent s = None)) locations)).
Proof.
  split; [| split]; intros E; cbv zeta.
  - unfold sync_companies_to_tenants, bind, tenants_all. rewrite E.
    destruct (companies_on_empty self desc companies nb) as [H1 H2].
    rewrite E in H2. exact (conj H1 H2).
  - unfold sync_manufacturers, bind, manufacturers_all. rewrite E.
    destruct (manufacturers_on_empty self manufacturers nb) as [H1 H2].
    rewrite E in H2. exact (conj H1 H2).
  - unfold sync_top_locations_to_sites, bind, sites_all. rewrite E.
    destruct (top_locations_on_empty self
                (List.filter (fun s => bool_decide (sl_parent s = None)) locations) nb)
      as [H1 H2].
    rewrite E in H2. exact (conj H1 H2).
Qed.

Lemma first_import_mirrors_source_witness :
  (nb_tenants empty_netbox = [] /\ nb_manufacturers empty_netbox = []
   /\ nb_sites empty_netbox = [])
  /\ map (fun t => (tn_name t, tn_key t))
         (nb_tenants (snd (sync_companies_to_tenants (Sample.syncer false false) "d"
                             [Sample.acme; Sample.acme] empty_netbox)))
     = [("Acme", Some 1); ("Acme", Some 1)]
  /\ map (fun t => (mf_name t, mf_key t))
         (nb_manufacturers (snd (sync_manufacturers (Sample.syncer false false) [Sample.dell]
                                  empty_netbox)))
     = [("Dell", Some 2)]
  /\ map (fun t => (st_name t, st_key t))
         (nb_sites (snd (sync_top_locations_to_sites (Sample.syncer false false)
                           [Sample.hq; Sample.floor] empty_netbox)))
     = [("HQ", Some 4)].
Proof.
  destruct (first_import_mirrors_source (Sample.syncer false false) "d"
              [Sample.acme; Sample.acme] [Sample.dell] [Sample.hq; Sample.floor]
              empty_netbox) as (H1 & H2 & H3).
  split; [repeat split |].
  split; [exact (proj2 (H1 eq_refl)) |].
  split; [exact (proj2 (H2 eq_refl)) | exact (proj2 (H3 eq_refl))].
Defined.

(** ** Roles of a new category *)

Lemma find_append {A} (f : A -> bool) (l l' : list A) :
  List.find f (l ++ l')
  = match List.find f l with Some x => Some x | None => List.find f l' end.
Proof.
  induction l as [| x l IH]; [reflexivity |].
  cbn [app List.find]. destruct (f x); [reflexivity | exact IH].
Qed.

(** X26.  A role made for a new category is stamped by every later asset of
    the category.  When no role of the list carries the id of the
    category and none has the name derived from it, the role is created
    with a name and a slug only and appended to the list; for the next
    asset of the same category the search by id on that list fails
    again, the search by name finds the created role, and one update
    stamps the id on it.  The list handed back is the list handed in,
    its record still without the id, so that the same holds for the
    asset after it, from whatever state of the target. *)
Theorem new_role_stamped_by_later_assets (netbox_roles : list DeviceRole)
    (a b : SnipeAsset) (nb nb' : NetBox) :
  sa_category b = sa_category a ->
  get_customfield_from_dict_list netbox_roles (ref_id (sa_category a)) = None ->
  List.find (fun item => String.eqb (rl_name item) (role_name (ref_name (sa_category a))))
            netbox_roles = None ->
  exists role,
    get_role_from_category netbox_roles a nb
    = (Ok ((netbox_roles ++ [role])%list, role), create_at DeviceRoles
         (dict [("name", PStr (role_name (ref_name (sa_category a))));
                ("slug", PStr (slugify (role_name (ref_name (sa_category a)))))]) nb)
    /\ rl_key role = None
    /\ fst (get_role_from_category (netbox_roles ++ [role]) b nb')
       = Ok ((netbox_roles ++ [role])%list, role)
    /\ calls_of (get_role_from_category (netbox_roles ++ [role]) b) nb'
       = [Update DeviceRoles
            [dict [("id", PInt (rl_id role));
                   ("custom_fields", PCustom (ref_id (sa_category a)))]]].
Proof.
  intros Eb Hk Hn.
  exists (make_record (nb_next_id nb)
            (dict [("name", PStr (role_name (ref_name (sa_category a))));
                   ("slug", PStr (slugify (role_name (ref_name (sa_category a)))))])).
  split.
  { unfold get_role_from_category. cbv zeta. rewrite Hk, Hn. reflexivity. }
  split; [reflexivity |].
  unfold get_role_from_category. cbv zeta. rewrite Eb.
  unfold get_customfield_from_dict_list in *.
  rewrite !find_append, Hk, Hn.
  cbn [List.find].
  replace (bool_decide (rec_key (make_record (nb_next_id nb) _) = Some _)) with false
    by reflexivity.
  replace (String.eqb (rl_name (make_record (nb_next_id nb) _)) _) with true.
  2: { symmetry. apply String.eqb_eq. reflexivity. }
  split; [reflexivity |].
  apply calls_of_one. reflexivity.
Qed.

Lemma new_role_stamped_by_later_assets_witness :
  calls_of (get_role_from_category
              [Sample.role 30 "Desktop" None;
               make_record 100 (dict [("name", PStr "Laptop"); ("slug", PStr "laptop")])]
              (Sample.asset 7 "PC2" "T2" "S2" "Laptop"))
           (create_at DeviceRoles (dict [("name", PStr "Laptop"); ("slug", PStr "laptop")])
              (Sample.netbox [] [] [] [Sample.role 30 "Desktop" None] []))
  = [Update DeviceRoles [dict [("id", PInt 100); ("custom_fields", PCustom 7)]]].
Proof.
  destruct (new_role_stamped_by_later_assets [Sample.role 30 "Desktop" None]
              (Sample.asset 6 "PC" "T1" "S1" "Laptop")
              (Sample.asset 7 "PC2" "T2" "S2" "Laptop")
              (Sample.netbox [] [] [] [Sample.role 30 "Desktop" None] [])
              (create_at DeviceRoles (dict [("name", PStr "Laptop"); ("slug", PStr "laptop")])
                 (Sample.netbox [] [] [] [Sample.role 30 "Desktop" None] []))
              eq_refl eq_refl eq_refl) as (role & H1 & H2 & H3 & H4).
  vm_compute in H1. injection H1 as <-. exact H4.
Defined.
